(** * Chill-hour calculator: a shallow embedding of the TypeScript sources

    Embedded files:
    - [src/services/chillHours.ts]  (class [ChillHourCalculator])
    - [src/services/ambientApi.ts]  (class [AmbientWeatherAPI])
    - [src/types.ts]                (interfaces [WeatherData], [ChillHourReport])
    - [src/index.ts]                (the action of the [chill] command)

    Modelling conventions.
    - JavaScript numbers that the program uses as integers (epoch
      milliseconds, counters, years, months, HTTP status codes, delays) are
      [Z] or [nat].  Temperatures and the percentage are doubles, each
      modelled by the rational number ([Q]) it stands for: comparisons of
      finite doubles are exact, and the quotient test of [isChillHour] is
      exact on counts below 2^53.  The arithmetic of the percentage is the
      arithmetic of doubles: the exact result of each operation, rounded
      to the nearest double with ties to even ([JS.roundDouble]).  The
      exponent of a double is not bounded in the model: no quotient of two
      counts and no product of one with 100 comes near the overflow or
      the subnormal range.  [NaN], infinities and the range limit of
      [Date] time values are not modelled.
    - A [Date] object is its time value (milliseconds since the epoch, UTC).
      The calendar functions follow ECMA-262 (Day, DayFromYear,
      YearFromTime, MonthFromTime, DateFromTime, MakeDay, LocalTime, UTC).
      What depends on the host (time zone, locale rendering of dates, the
      clock) is a field of [Host].
    - [Map<string, ...>] is a [gmap string _]; arrays are lists, and where
      aliasing matters locations in a store of arrays.
    - The network is an oracle [Server]; every [axios.get] and every [sleep]
      is recorded in a trace.  Console output is not modelled. *)

From Stdlib Require Import ZArith QArith Qround Qpower Lia Lqa.
From Stdlib Require Import Ascii DecimalString DecimalZ DecimalPos.
From Stdlib Require Floats Uint63.
From stdpp Require Import base option list gmap strings sorting.

Local Open Scope Z_scope.

(** ** ECMAScript dates *)

Module JSDate.

Definition msPerDay : Z := 86400000.
Definition msPerHour : Z := 3600000.
Definition HoursPerDay : Z := 24.

Definition Day (t : Z) : Z := t / msPerDay.
Definition TimeWithinDay (t : Z) : Z := t mod msPerDay.

Definition DayFromYear (y : Z) : Z :=
  365 * (y - 1970) + (y - 1969) / 4 - (y - 1901) / 100 + (y - 1601) / 400.

Definition isLeapYear (y : Z) : bool :=
  if negb (y mod 4 =? 0) then false
  else if negb (y mod 100 =? 0) then true
  else if negb (y mod 400 =? 0) then false
  else true.

Definition DaysInYear (y : Z) : Z := if isLeapYear y then 366 else 365.

(** The largest year whose first day is not after day [d]: a first guess
    from the mean length of the Gregorian year, corrected by one. *)
Definition YearFromDay (d : Z) : Z :=
  let y0 := 1970 + (d * 400) / 146097 in
  if d <? DayFromYear y0 then y0 - 1
  else if DayFromYear (y0 + 1) <=? d then y0 + 1
  else y0.

Definition YearFromTime (t : Z) : Z := YearFromDay (Day t).
Definition InLeapYear (t : Z) : Z :=
  if isLeapYear (YearFromTime t) then 1 else 0.
Definition DayWithinYear (t : Z) : Z := Day t - DayFromYear (YearFromTime t).

(** Day within the year on which month [m] (0-based) starts. *)
Definition monthStart (leap m : Z) : Z :=
  match m with
  | 0 => 0
  | 1 => 31
  | 2 => 59 + leap
  | 3 => 90 + leap
  | 4 => 120 + leap
  | 5 => 151 + leap
  | 6 => 181 + leap
  | 7 => 212 + leap
  | 8 => 243 + leap
  | 9 => 273 + leap
  | 10 => 304 + leap
  | 11 => 334 + leap
  | _ => 365 + leap
  end.

Definition MonthFromTime (t : Z) : Z :=
  let d := DayWithinYear t in
  let leap := InLeapYear t in
  if d <? 31 then 0
  else if d <? 59 + leap then 1
  else if d <? 90 + leap then 2
  else if d <? 120 + leap then 3
  else if d <? 151 + leap then 4
  else if d <? 181 + leap then 5
  else if d <? 212 + leap then 6
  else if d <? 243 + leap then 7
  else if d <? 273 + leap then 8
  else if d <? 304 + leap then 9
  else if d <? 334 + leap then 10
  else 11.

Definition DateFromTime (t : Z) : Z :=
  DayWithinYear t - monthStart (InLeapYear t) (MonthFromTime t) + 1.

Definition HourFromTime (t : Z) : Z := (t / msPerHour) mod HoursPerDay.

(** [MakeDay(year, month, date)]: months outside 0..11 carry into the
    year, and [date] is an offset from the first of the month, so that
    date 0 is the last day of the month before. *)
Definition MakeDay (year month date : Z) : Z :=
  let ym := year + month / 12 in
  let mn := month mod 12 in
  DayFromYear ym + monthStart (if isLeapYear ym then 1 else 0) mn + date - 1.

Definition MakeDate (day time : Z) : Z := day * msPerDay + time.

(** The host environment of a run. *)
Record Host := {
  (** [LocalTZA(t, isUTC)]: offset of local time, in ms, at UTC instant
      [t] ([isUTC = true]) or at local time [t] ([isUTC = false]). *)
  LocalTZA : Z -> bool -> Z;
  (** [Date.prototype.toLocaleDateString] of the date with a time value. *)
  toLocaleDateString : Z -> string;
  (** Time value of [new Date()]. *)
  now : Z
}.

Section WithHost.
Context (host : Host).

Definition LocalTime (t : Z) : Z := t + LocalTZA host t true.
Definition UTC (t : Z) : Z := t - LocalTZA host t false.

(** [new Date(year, monthIndex, day)]: local midnight; a year in 0..99
    stands for 1900 + year. *)
Definition newDate (year monthIndex day : Z) : Z :=
  let yr := if (0 <=? year) && (year <=? 99) then 1900 + year else year in
  UTC (MakeDate (MakeDay yr monthIndex day) 0).

Definition getFullYear (d : Z) : Z := YearFromTime (LocalTime d).
Definition getMonth (d : Z) : Z := MonthFromTime (LocalTime d).
Definition getDate (d : Z) : Z := DateFromTime (LocalTime d).
Definition getHours (d : Z) : Z := HourFromTime (LocalTime d).
End WithHost.

(** A host in a zone with a fixed offset from UTC, an ISO-like date
    rendering and a given clock. *)
Definition showZ (z : Z) : string := NilZero.string_of_int (Z.to_int z).

Definition fixedOffsetHost (offset clock : Z) : Host :=
  {| LocalTZA := fun _ _ => offset;
     toLocaleDateString := fun t =>
       let l := t + offset in
       (showZ (YearFromTime l) +:+ "-" +:+ showZ (MonthFromTime l + 1)
          +:+ "-" +:+ showZ (DateFromTime l))%string;
     now := clock |}.

End JSDate.

(** ** [src/types.ts] *)

Record WeatherData := {
  dateutc : Z;
  tempf : Q
}.

Record ChillHourReport := {
  totalHours : nat;
  chillHours : nat;
  date : string;
  percentChillHours : Q
}.

(** ** [Array.prototype.sort], template literals and numbers *)

Module JS.

Section Sort.
Context {A : Type} (compareFn : A -> A -> Z).

(** [x] goes in front of the first element it does not come after, so
    elements that compare equal keep their order (the sort is stable). *)
Fixpoint insertSorted (x : A) (l : list A) : list A :=
  match l with
  | [] => [x]
  | y :: l' =>
      if compareFn x y <=? 0 then x :: y :: l'
      else y :: insertSorted x l'
  end.

(** The array sorted by [compareFn]. *)
Fixpoint sort (l : list A) : list A :=
  match l with
  | [] => []
  | x :: l' => insertSorted x (sort l')
  end.
End Sort.

(** [`${n}`] for an integer [n]. *)
Definition numberToString (n : Z) : string := NilZero.string_of_int (Z.to_int n).

(** [Math.min(...ts)] and [Math.max(...ts)] of a non-empty list, [t] being
    its first element. *)
Definition mathMin (t : Z) (ts : list Z) : Z := foldr Z.min t ts.
Definition mathMax (t : Z) (ts : list Z) : Z := foldr Z.max t ts.

(** [Math.ceil(a / b)] and [Math.round(a / b)] for integers [a] and [b > 0]. *)
Definition ceilDiv (a b : Z) : Z := - ((- a) / b).
Definition roundDiv (a b : Z) : Z := (2 * a + b) / (2 * b).

(** *** Doubles

    A double is the rational number it stands for.  An operation on
    doubles gives the double nearest to its exact result, the one with an
    even significand of two that are equally near (IEEE 754 binary64,
    round to nearest, ties to even). *)

(** The exponent of a positive rational: the [e] with
    [2^e <= x < 2^(e+1)]. *)
Definition floorLog2 (x : Q) : Z :=
  let k := Z.log2 (Qnum x) - Z.log2 (Zpos (Qden x)) in
  if Qle_bool (2 ^ k) x then k else k - 1.

(** The integer nearest to [y], the even one of two that are equally
    near. *)
Definition roundHalfEven (y : Q) : Z :=
  let f := Qfloor y in
  match (y - inject_Z f ?= 1 # 2)%Q with
  | Lt => f
  | Gt => f + 1
  | Eq => if Z.even f then f else f + 1
  end.

(** The double nearest to a positive rational: a significand of 53 bits,
    [2^52 <= m <= 2^53], times a power of 2. *)
Definition roundPositive (x : Q) : Q :=
  let e := floorLog2 x - 52 in
  Qred (inject_Z (roundHalfEven (x / 2 ^ e)) * 2 ^ e).

(** The double nearest to a rational. *)
Definition roundDouble (x : Q) : Q :=
  match (x ?= 0)%Q with
  | Eq => 0
  | Gt => roundPositive x
  | Lt => - roundPositive (- x)
  end.

(** [a / b] and [a * b] on doubles. *)
Definition divide (a b : Q) : Q := roundDouble (a / b).
Definition multiply (a b : Q) : Q := roundDouble (a * b).

End JS.

(** ** [src/services/chillHours.ts] *)

Module ChillHourCalculator.
Import JSDate.

Definition DEFAULT_MIN_TEMP_F : Q := 32.
Definition DEFAULT_MAX_TEMP_F : Q := 45.
Definition MILLISECONDS_PER_DAY : Z := 24 * 60 * 60 * 1000.
Definition MIN_COVERAGE_PERCENT : Z := 80.
Definition DECEMBER_MONTH : Z := 11.

(** The value type of the hourly map. *)
Record HourData := {
  temps : list Q;
  inRange : nat
}.

Section Methods.
(** The host, and the fields [this.minTemp] and [this.maxTemp]. *)
Context (host : Host) (minTemp maxTemp : Q).

Definition createEmptyReport (message : string) : ChillHourReport :=
  {| totalHours := 0;
     chillHours := 0;
     date := message;
     percentChillHours := 0 |}.

Definition sortDataChronologically (data : list WeatherData) : list WeatherData :=
  JS.sort (fun a b => dateutc a - dateutc b) data.

Definition createHourKey (timestamp : Z) : string :=
  (JS.numberToString (getFullYear host timestamp) +:+ "-"
   +:+ JS.numberToString (getMonth host timestamp + 1) +:+ "-"
   +:+ JS.numberToString (getDate host timestamp) +:+ "-"
   +:+ JS.numberToString (getHours host timestamp))%string.

Definition isTemperatureInChillRange (tempF : Q) : bool :=
  Qle_bool minTemp tempF && Qle_bool tempF maxTemp.

(** One turn of the loop of [groupReadingsByHour]. *)
Definition addReading (hourlyData : gmap string HourData) (entry : WeatherData)
  : gmap string HourData :=
  let hourKey := createHourKey (dateutc entry) in
  let hourlyData :=
    match hourlyData !! hourKey with
    | Some _ => hourlyData
    | None => <[hourKey := {| temps := []; inRange := 0 |}]> hourlyData
    end in
  alter (fun hourData =>
           {| temps := temps hourData ++ [tempf entry];
              inRange := if isTemperatureInChillRange (tempf entry)
                         then S (inRange hourData) else inRange hourData |})
        hourKey hourlyData.

Definition groupReadingsByHour (sortedData : list WeatherData)
  : gmap string HourData :=
  foldl addReading ∅ sortedData.

Definition isChillHour (hourData : HourData) : bool :=
  (0 <? length (temps hourData))%nat
  && Qle_bool (1 # 2)
       (inject_Z (Z.of_nat (inRange hourData))
        / inject_Z (Z.of_nat (length (temps hourData)))).

(** Returns [(totalHours, chillHours)]. *)
Definition countChillHours (hourlyData : gmap string HourData) : nat * nat :=
  let totalHours := size hourlyData in
  let chillHours :=
    map_fold (fun _ hourData chillHours =>
                if isChillHour hourData then S chillHours else chillHours)
             0%nat hourlyData in
  (totalHours, chillHours).

(** [sortedData] is not empty where this is called; the time value 0
    stands in for the element that an empty array does not have. *)
Definition createReport (sortedData : list WeatherData)
    (totalHours chillHours : nat) : ChillHourReport :=
  let startDate := default 0 (dateutc <$> head sortedData) in
  let endDate := default 0 (dateutc <$> last sortedData) in
  let dateStr :=
    (toLocaleDateString host startDate +:+ " to "
     +:+ toLocaleDateString host endDate)%string in
  {| totalHours := totalHours;
     chillHours := chillHours;
     date := dateStr;
     percentChillHours :=
       if (0 <? totalHours)%nat
       then JS.multiply
              (JS.divide (inject_Z (Z.of_nat chillHours))
                         (inject_Z (Z.of_nat totalHours)))
              100
       else 0 |}.

Definition calculateChillHours (data : list WeatherData) : ChillHourReport :=
  let sortedData := sortDataChronologically data in
  if (length sortedData =? 0)%nat then createEmptyReport "No data available"
  else
    let hourlyData := groupReadingsByHour sortedData in
    let '(totalHours, chillHours) := countChillHours hourlyData in
    createReport sortedData totalHours chillHours.

(** [year] is the optional argument; [year || currentYear] also takes
    the current year when [year] is 0. *)
Definition determineSeasonDates (seasonStartMonth : Z) (year : option Z) : Z * Z :=
  let currentYear := getFullYear host (now host) in
  let calculationYear :=
    match year with
    | Some y => if y =? 0 then currentYear else y
    | None => currentYear
    end in
  if seasonStartMonth <=? 6 then
    (newDate host calculationYear (seasonStartMonth - 1) 1,
     newDate host calculationYear DECEMBER_MONTH 31)
  else
    (newDate host (calculationYear - 1) (seasonStartMonth - 1) 1,
     newDate host calculationYear (seasonStartMonth - 1) 0).

Definition calculateDaysBetween (startDate endDate : Z) : Z :=
  JS.roundDiv (endDate - startDate) MILLISECONDS_PER_DAY.

Definition filterDataForSeason (allData : list WeatherData)
    (seasonStart seasonEnd : Z) : list WeatherData :=
  filter (fun entry =>
            let entryDate := dateutc entry in
            (seasonStart <=? entryDate) && (entryDate <=? seasonEnd) = true)
         allData.

Definition calculateSeasonChillHours (allData : list WeatherData)
    (seasonStartMonth : Z) (year : option Z) : ChillHourReport :=
  let '(seasonStart, seasonEnd) := determineSeasonDates seasonStartMonth year in
  let seasonData := filterDataForSeason allData seasonStart seasonEnd in
  if (length seasonData =? 0)%nat then
    createEmptyReport
      (toLocaleDateString host seasonStart +:+ " to "
       +:+ toLocaleDateString host seasonEnd +:+ " (no data)")%string
  else calculateChillHours seasonData.

End Methods.

End ChillHourCalculator.

(** ** Arrays as objects

    A value of type [WeatherData[]] is a reference.  Here the calculator's
    public methods are written over a store of arrays: the spread
    [[...data]] and [Array.prototype.filter] allocate a new array,
    [Array.prototype.sort] sorts the array it is called on in place. *)

Module ArrayStore.
Import JSDate.

Abbreviation ref := positive (only parsing).
Abbreviation store := (gmap positive (list WeatherData)) (only parsing).

(** A computation over the store; [None] when a reference is not in it. *)
Definition Comp (A : Type) : Type := store -> option (A * store).

Definition ret {A} (a : A) : Comp A := fun σ => Some (a, σ).
Definition bind {A B} (m : Comp A) (k : A -> Comp B) : Comp B :=
  fun σ => match m σ with
           | Some (a, σ') => k a σ'
           | None => None
           end.

Notation "'let*' x ':=' m 'in' k" := (bind m (fun x => k))
  (at level 10, x name, m at level 100, k at level 200).

Definition contents (a : ref) : Comp (list WeatherData) :=
  fun σ => match σ !! a with
           | Some l => Some (l, σ)
           | None => None
           end.

Definition allocate (l : list WeatherData) : Comp ref :=
  fun σ => let a := fresh (dom σ) in Some (a, <[a := l]> σ).

(** [[...a]] *)
Definition spread (a : ref) : Comp ref :=
  let* l := contents a in allocate l.

(** [a.sort(compareFn)]: sorts [a] itself and returns it. *)
Definition sortInPlace (compareFn : WeatherData -> WeatherData -> Z) (a : ref)
  : Comp ref :=
  fun σ => match σ !! a with
           | Some l => Some (a, <[a := JS.sort compareFn l]> σ)
           | None => None
           end.

(** [a.filter(p)] *)
Definition filterArray (p : WeatherData -> bool) (a : ref) : Comp ref :=
  let* l := contents a in allocate (filter (fun entry => p entry = true) l).

Section Methods.
Context (host : Host) (minTemp maxTemp : Q).

Definition sortDataChronologically (data : ref) : Comp ref :=
  let* copy := spread data in
  sortInPlace (fun a b => dateutc a - dateutc b) copy.

Definition calculateChillHours (data : ref) : Comp ChillHourReport :=
  let* sortedData := sortDataChronologically data in
  let* l := contents sortedData in
  if (length l =? 0)%nat
  then ret (ChillHourCalculator.createEmptyReport "No data available")
  else
    let hourlyData :=
      ChillHourCalculator.groupReadingsByHour host minTemp maxTemp l in
    let '(totalHours, chillHours) :=
      ChillHourCalculator.countChillHours hourlyData in
    ret (ChillHourCalculator.createReport host l totalHours chillHours).

Definition filterDataForSeason (allData : ref) (seasonStart seasonEnd : Z)
  : Comp ref :=
  filterArray (fun entry =>
                 let entryDate := dateutc entry in
                 (seasonStart <=? entryDate) && (entryDate <=? seasonEnd))
              allData.

Definition calculateSeasonChillHours (allData : ref)
    (seasonStartMonth : Z) (year : option Z) : Comp ChillHourReport :=
  let '(seasonStart, seasonEnd) :=
    ChillHourCalculator.determineSeasonDates host seasonStartMonth year in
  let* seasonData := filterDataForSeason allData seasonStart seasonEnd in
  let* l := contents seasonData in
  if (length l =? 0)%nat then
    ret (ChillHourCalculator.createEmptyReport
           (toLocaleDateString host seasonStart +:+ " to "
            +:+ toLocaleDateString host seasonEnd +:+ " (no data)")%string)
  else calculateChillHours seasonData.
End Methods.

End ArrayStore.

(** ** [src/services/ambientApi.ts] *)

Module AmbientWeatherAPI.
Import JSDate.

Definition DEFAULT_RATE_LIMIT_DELAY_MS : Z := 1000.
Definition DEFAULT_READINGS_PER_DAY : Z := 288.
Definition DEFAULT_READINGS_PER_CHUNK : Z := 500.
Definition MAX_FETCH_OPERATIONS : nat := 100.
Definition MILLISECONDS_PER_DAY : Z := 24 * 60 * 60 * 1000.
Definition HTTP_RATE_LIMIT_STATUS : Z := 429.
Definition HTTP_SERVER_ERROR_MIN : Z := 500.
Definition HTTP_SERVER_ERROR_MAX : Z := 599.
Definition DEFAULT_MAX_RETRIES : nat := 3.
Definition ONE_SECOND_MS : Z := 1000.
Definition baseUrl : string := "https://api.ambientweather.net/v1".

(** What [axios.get] rejects with: [status] is [error.response.status],
    absent when the error carries no response. *)
Record AxiosError := { status : option Z }.

(** The query of a request, without the two keys, which never change;
    [endDate] is the time value that the code sends as an ISO string. *)
Record Params := {
  limit : option Z;
  endDate : option Z
}.

Record Request := {
  url : string;
  params : Params
}.

Inductive Outcome :=
| Resolved (data : list WeatherData)
| Rejected (error : AxiosError).

(** The remote service: its answer to a request, given how many requests
    it has received before. *)
Definition Server : Type := nat -> Request -> Outcome.

Inductive Event :=
| Get (req : Request)
| Sleep (ms : Z).

Definition isGet (e : Event) : bool :=
  match e with Get _ => true | Sleep _ => false end.

Definition requests (tr : list Event) : nat := length (filter (fun e => isGet e = true) tr).
Definition sleeps (tr : list Event) : list Z :=
  omap (fun e => match e with Sleep ms => Some ms | Get _ => None end) tr.

(** How an [async] method ends: with a value or with a thrown error. *)
Inductive Result (A : Type) :=
| Ok (a : A)
| Throw (e : AxiosError).
Arguments Ok {A} a.
Arguments Throw {A} e.

(** An [async] method, run from a trace: the result and the extended
    trace, or [None] when the loop inside was cut short by its fuel. *)
Definition Async (A : Type) : Type := list Event -> option (Result A * list Event).

Section Methods.
(** The host, the remote service and the field [this.rateLimitDelay]. *)
Context (host : Host) (server : Server) (rateLimitDelay : Z).

Definition axiosGet (req : Request) (tr : list Event) : Outcome * list Event :=
  (server (requests tr) req, tr ++ [Get req]).

Definition sleep (ms : Z) (tr : list Event) : list Event := tr ++ [Sleep ms].

Definition isRetryableError (error : AxiosError) : bool :=
  match status error with
  | Some st =>
      (st =? HTTP_RATE_LIMIT_STATUS)
      || ((HTTP_SERVER_ERROR_MIN <=? st) && (st <=? HTTP_SERVER_ERROR_MAX))
  | None => false
  end.

Definition calculateBackoffDelay (retryCount : nat) : Z :=
  rateLimitDelay * 2 ^ (Z.of_nat retryCount - 1).

(** The [while (true)] loop of [makeRequest], [retries] being its
    variable. *)
Fixpoint makeRequestLoop (fuel : nat) (req : Request) (maxRetries retries : nat)
  : Async (list WeatherData) :=
  fun tr =>
  match fuel with
  | O => None
  | S fuel =>
      let '(outcome, tr) := axiosGet req tr in
      match outcome with
      | Resolved data => Some (Ok data, tr)
      | Rejected error =>
          if isRetryableError error then
            if (maxRetries <=? retries)%nat then Some (Throw error, tr)
            else
              let retries := S retries in
              let backoffDelay := calculateBackoffDelay retries in
              makeRequestLoop fuel req maxRetries retries (sleep backoffDelay tr)
          else Some (Throw error, tr)
      end
  end.

Definition makeRequest (url : string) (params : Params) (maxRetries : nat)
  : Async (list WeatherData) :=
  makeRequestLoop (S maxRetries) {| url := url; params := params |} maxRetries 0.

Definition createRequestParams (endDate : option Z) (limit : option Z) : Params :=
  {| limit := match limit with
              | Some n => if n =? 0 then None else Some n
              | None => None
              end;
     endDate := endDate |}.

(** The [catch] of the source logs the error and throws it again. *)
Definition getDeviceData (macAddress : string) (endDate : option Z) (limit : Z)
  : Async (list WeatherData) :=
  let params := createRequestParams endDate (Some limit) in
  makeRequest (baseUrl +:+ "/devices/" +:+ macAddress)%string params
              DEFAULT_MAX_RETRIES.

Definition calculateDaysBetweenDates (startDate endDate : Z) : Z :=
  JS.ceilDiv (endDate - startDate) MILLISECONDS_PER_DAY.

(** Returns [daysToFetch], the number that goes into the logged line. *)
Definition logDateRangeInfo (startDate endDate maxDays : Z) : Z :=
  let totalDaysDiff := calculateDaysBetweenDates startDate endDate in
  Z.min totalDaysDiff maxDays.

(** Returns [(earliestDate, latestDate, earliestTimestamp)].
    [chunkData] is not empty where this is called; 0 stands in for the
    bounds that an empty array does not have. *)
Definition findDateBounds (chunkData : list WeatherData) : Z * Z * Z :=
  match dateutc <$> chunkData with
  | [] => (0, 0, 0)
  | t :: ts =>
      let earliestTimestamp := JS.mathMin t ts in
      let latestTimestamp := JS.mathMax t ts in
      (earliestTimestamp, latestTimestamp, earliestTimestamp)
  end.

(** Returns [(shouldContinue, nextEndDate)] and the array [allData]
    after the push. *)
Definition processChunk (chunkData : list WeatherData) (startDate : Z)
    (allData : list WeatherData) : bool * Z * list WeatherData :=
  let '(earliestDate, latestDate, earliestTimestamp) := findDateBounds chunkData in
  let allData := allData ++ chunkData in
  if earliestDate <=? startDate then (false, now host, allData)
  else
    let nextEndDate := earliestTimestamp - ONE_SECOND_MS in
    (true, nextEndDate, allData).

(** The variables of the loop of [fetchDataInChunks]. *)
Record FetchState := {
  currentEnd : Z;
  allData : list WeatherData;
  reachedStartDate : bool;
  fetchCount : nat
}.

Fixpoint fetchLoop (fuel : nat) (macAddress : string) (startDate : Z)
    (st : FetchState) : Async FetchState :=
  fun tr =>
  if negb (reachedStartDate st) && (fetchCount st <? MAX_FETCH_OPERATIONS)%nat then
    match fuel with
    | O => None
    | S fuel =>
        let fetchCount := S (fetchCount st) in
        match getDeviceData macAddress (Some (currentEnd st))
                            DEFAULT_READINGS_PER_CHUNK tr with
        | None => None
        | Some (Throw e, tr) => Some (Throw e, tr)
        | Some (Ok chunkData, tr) =>
            if (length chunkData =? 0)%nat then
              Some (Ok {| currentEnd := currentEnd st;
                          allData := allData st;
                          reachedStartDate := reachedStartDate st;
                          fetchCount := fetchCount |}, tr)
            else
              let '(shouldContinue, nextEndDate, allData) :=
                processChunk chunkData startDate (allData st) in
              if shouldContinue then
                fetchLoop fuel macAddress startDate
                  {| currentEnd := nextEndDate;
                     allData := allData;
                     reachedStartDate := negb shouldContinue;
                     fetchCount := fetchCount |}
                  (sleep rateLimitDelay tr)
              else
                fetchLoop fuel macAddress startDate
                  {| currentEnd := currentEnd st;
                     allData := allData;
                     reachedStartDate := negb shouldContinue;
                     fetchCount := fetchCount |}
                  tr
        end
    end
  else Some (Ok st, tr).

Definition fetchDataInChunks (macAddress : string) (startDate endDate : Z)
  : Async (list WeatherData) :=
  fun tr =>
  let st := {| currentEnd := endDate;
               allData := [];
               reachedStartDate := false;
               fetchCount := 0 |} in
  match fetchLoop MAX_FETCH_OPERATIONS macAddress startDate st tr with
  | Some (Ok st, tr) => Some (Ok (allData st), tr)
  | Some (Throw e, tr) => Some (Throw e, tr)
  | None => None
  end.

Definition filterDataByDateRange (data : list WeatherData)
    (startDate endDate : Z) : list WeatherData :=
  let startTime := startDate in
  let endTime := endDate in
  filter (fun entry =>
            let dataTime := dateutc entry in
            (startTime <=? dataTime) && (dataTime <=? endTime) = true)
         data.

Definition sortDataChronologically (data : list WeatherData) : list WeatherData :=
  JS.sort (fun a b => dateutc a - dateutc b) data.

Definition processRetrievedData (allData : list WeatherData)
    (startDate endDate : Z) : list WeatherData :=
  let filteredData := filterDataByDateRange allData startDate endDate in
  sortDataChronologically filteredData.

(** [endDate] and [maxDays] are the optional arguments, with defaults
    [new Date()] and 365.  The [catch] logs and throws again. *)
Definition getDeviceDataForDateRange (macAddress : string) (startDate : Z)
    (endDate : option Z) (maxDays : option Z) : Async (list WeatherData) :=
  fun tr =>
  let endDate := default (now host) endDate in
  let maxDays := default 365 maxDays in
  let _daysToFetch := logDateRangeInfo startDate endDate maxDays in
  match fetchDataInChunks macAddress startDate endDate tr with
  | Some (Ok allData, tr) =>
      Some (Ok (processRetrievedData allData startDate endDate), tr)
  | Some (Throw e, tr) => Some (Throw e, tr)
  | None => None
  end.

End Methods.

End AmbientWeatherAPI.

(** ** Vocabulary of the statements *)

Module Spec.
Import JSDate.

(** *** The aggregator *)

(** The temperature lies in the closed interval of the chill range. *)
Definition inChillRange (minTemp maxTemp tempF : Q) : Prop :=
  (minTemp <= tempF)%Q /\ (tempF <= maxTemp)%Q.

#[global] Instance inChillRange_dec minTemp maxTemp tempF :
  Decision (inChillRange minTemp maxTemp tempF).
Proof.
  unfold inChillRange.
  destruct (Qlt_le_dec tempF minTemp) as [H1|H1];
    [right; intros [H _]; exact (Qlt_not_le _ _ H1 H)|].
  destruct (Qlt_le_dec maxTemp tempF) as [H2|H2];
    [right; intros [_ H]; exact (Qlt_not_le _ _ H2 H)|].
  left; split; assumption.
Defined.

Section Buckets.
Context (host : Host) (minTemp maxTemp : Q).

(** The readings of [data] that fall in the hour with key [k], in the
    order of [data]. *)
Definition readingsAt (k : string) (data : list WeatherData) : list WeatherData :=
  filter (fun e => ChillHourCalculator.createHourKey host (dateutc e) = k) data.

(** How many of the readings are in the chill range. *)
Definition inRangeCount (readings : list WeatherData) : nat :=
  length (filter (fun e => inChillRange minTemp maxTemp (tempf e)) readings).

(** A bucket extended by further readings of its hour. *)
Definition extendBucket (b : ChillHourCalculator.HourData)
    (readings : list WeatherData) : ChillHourCalculator.HourData :=
  {| ChillHourCalculator.temps :=
       ChillHourCalculator.temps b ++ (tempf <$> readings);
     ChillHourCalculator.inRange :=
       ChillHourCalculator.inRange b + inRangeCount readings |}.
End Buckets.

(** Timestamps in ascending order. *)
Definition chronological (a b : WeatherData) : Prop := dateutc a <= dateutc b.

(** *** The calendar *)

(** Year, month (1..12) and day of the month of a date, in local time. *)
Definition calendarDate (host : Host) (d : Z) : Z * Z * Z :=
  (getFullYear host d, getMonth host d + 1, getDate host d).

(** The day, counted from the epoch, on which a date falls in local time. *)
Definition localDay (host : Host) (d : Z) : Z := Day (LocalTime host d).

(** The date that the host makes of the local midnight starting a day
    falls on that day: on the midnight itself or, in a zone whose clocks
    skip it, not far enough from it to leave the day. *)
Definition midnightsKeepDay (host : Host) : Prop :=
  forall day : Z, localDay host (UTC host (day * msPerDay)) = day.

(** Number of days of a month (1..12) of a year. *)
Definition daysInMonth (year month : Z) : Z :=
  match month with
  | 2 => if isLeapYear year then 29 else 28
  | 4 | 6 | 9 | 11 => 30
  | _ => 31
  end.

(** *** The store of arrays *)

(** Every array of [σ] is in [σ'] with the same elements in the same
    order. *)
Definition arraysKept (σ σ' : gmap positive (list WeatherData)) : Prop :=
  forall (a : positive) (l : list WeatherData), σ !! a = Some l -> σ' !! a = Some l.

(** *** Requests *)

(** The answer is a rejection with a response of status 429 or 5xx. *)
Definition retryable (o : AmbientWeatherAPI.Outcome) : Prop :=
  exists st : Z,
    o = AmbientWeatherAPI.Rejected {| AmbientWeatherAPI.status := Some st |} /\
    (st = 429 \/ 500 <= st <= 599).

(** What the caller gets from an answer that is not retried. *)
Definition resultOf (o : AmbientWeatherAPI.Outcome)
  : AmbientWeatherAPI.Result (list WeatherData) :=
  match o with
  | AmbientWeatherAPI.Resolved data => AmbientWeatherAPI.Ok data
  | AmbientWeatherAPI.Rejected error => AmbientWeatherAPI.Throw error
  end.

(** The wait before retry number [k] (1, 2, ...). *)
Definition backoff (baseDelay : Z) (k : nat) : Z := baseDelay * 2 ^ (Z.of_nat k - 1).

(** The events of a request that goes through retries number
    [first], ..., [first + n - 1] after its first attempt. *)
Definition retriesFrom (req : AmbientWeatherAPI.Request) (baseDelay : Z)
    (first n : nat) : list AmbientWeatherAPI.Event :=
  AmbientWeatherAPI.Get req
  :: flat_map (fun k => [AmbientWeatherAPI.Sleep (backoff baseDelay k);
                         AmbientWeatherAPI.Get req])
              (seq first n).

(** The events of a request that is retried [n] times. *)
Definition attempts (req : AmbientWeatherAPI.Request) (baseDelay : Z) (n : nat)
  : list AmbientWeatherAPI.Event :=
  retriesFrom req baseDelay 1 n.

(** One page request of the fetch loop as the trace shows it: the
    request, how often it was retried, the readings it brought (none when
    it failed), and whether the loop waited after it. *)
Record Page := {
  pageRequest : AmbientWeatherAPI.Request;
  pageRetries : nat;
  pageData : list WeatherData;
  pageWait : bool
}.

Definition pageEvents (delay : Z) (p : Page) : list AmbientWeatherAPI.Event :=
  attempts (pageRequest p) delay (pageRetries p)
  ++ (if pageWait p then [AmbientWeatherAPI.Sleep delay] else []).

(** The request for the page that ends at [cursor]. *)
Definition pageRequestAt (macAddress : string) (cursor : Z)
  : AmbientWeatherAPI.Request :=
  {| AmbientWeatherAPI.url :=
       (AmbientWeatherAPI.baseUrl +:+ "/devices/" +:+ macAddress)%string;
     AmbientWeatherAPI.params :=
       {| AmbientWeatherAPI.limit := Some 500;
          AmbientWeatherAPI.endDate := Some cursor |} |}.

(** What a page request brings: after [n <= 3] retries, each made after
    a rejection with status 429 or 5xx, the answer to the last attempt,
    which is not such a rejection unless the retries are used up.  The
    trace grows by the attempts and the waits between them. *)
Definition pageAnswer (server : AmbientWeatherAPI.Server) (delay : Z)
    (macAddress : string) (cursor : Z) (tr : list AmbientWeatherAPI.Event)
    (result : AmbientWeatherAPI.Result (list WeatherData))
    (tr' : list AmbientWeatherAPI.Event) : Prop :=
  let req := pageRequestAt macAddress cursor in
  let answer (i : nat) := server (AmbientWeatherAPI.requests tr + i)%nat req in
  exists n : nat,
    (n <= 3)%nat /\
    (forall i, (i < n)%nat -> retryable (answer i)) /\
    ((n < 3)%nat -> ~ retryable (answer n)) /\
    result = resultOf (answer n) /\
    tr' = tr ++ attempts req delay n.

(** [m] is the earliest timestamp of the readings of a page. *)
Definition earliestOf (chunk : list WeatherData) (m : Z) : Prop :=
  m ∈ dateutc <$> chunk /\ Forall (fun e => m <= dateutc e) chunk.

(** The fetch in chunks, in the words of its description.  With [left]
    page requests still allowed, the page that ends at [cursor] to ask
    for next, the readings [acc] collected so far and the trace [tr], the
    fetch asks for the pages that end at [cursors], one after the other,
    and ends with [result] and the trace [tr']:
    - with no page request left it returns what it has collected;
    - a page request that fails throws its error;
    - an empty page ends the fetch with what it has collected;
    - a page whose earliest timestamp is at or before the start date is
      added and ends the fetch;
    - any other page is added, the fetch waits, and goes on with the page
      that ends one second before that earliest timestamp. *)
Inductive chunkedFetch (server : AmbientWeatherAPI.Server) (delay : Z)
    (macAddress : string) (startDate : Z)
  : nat -> Z -> list WeatherData -> list AmbientWeatherAPI.Event ->
    list Z -> AmbientWeatherAPI.Result (list WeatherData) ->
    list AmbientWeatherAPI.Event -> Prop :=
| fetch_capped cursor acc tr :
    chunkedFetch server delay macAddress startDate
      0 cursor acc tr [] (AmbientWeatherAPI.Ok acc) tr
| fetch_failed left cursor acc tr error tr1 :
    pageAnswer server delay macAddress cursor tr (AmbientWeatherAPI.Throw error) tr1 ->
    chunkedFetch server delay macAddress startDate
      (S left) cursor acc tr [cursor] (AmbientWeatherAPI.Throw error) tr1
| fetch_exhausted left cursor acc tr tr1 :
    pageAnswer server delay macAddress cursor tr (AmbientWeatherAPI.Ok []) tr1 ->
    chunkedFetch server delay macAddress startDate
      (S left) cursor acc tr [cursor] (AmbientWeatherAPI.Ok acc) tr1
| fetch_covered left cursor acc tr chunk m tr1 :
    pageAnswer server delay macAddress cursor tr (AmbientWeatherAPI.Ok chunk) tr1 ->
    earliestOf chunk m ->
    m <= startDate ->
    chunkedFetch server delay macAddress startDate
      (S left) cursor acc tr [cursor] (AmbientWeatherAPI.Ok (acc ++ chunk)) tr1
| fetch_more left cursor acc tr chunk m tr1 cursors result tr' :
    pageAnswer server delay macAddress cursor tr (AmbientWeatherAPI.Ok chunk) tr1 ->
    earliestOf chunk m ->
    startDate < m ->
    chunkedFetch server delay macAddress startDate
      left (m - 1000) (acc ++ chunk) (tr1 ++ [AmbientWeatherAPI.Sleep delay])
      cursors result tr' ->
    chunkedFetch server delay macAddress startDate
      (S left) cursor acc tr (cursor :: cursors) result tr'.

(** The timestamp lies in the requested window. *)
Definition inWindow (startDate endDate : Z) (e : WeatherData) : Prop :=
  startDate <= dateutc e <= endDate.

#[global] Instance inWindow_dec startDate endDate e :
  Decision (inWindow startDate endDate e).
Proof. unfold inWindow. apply _. Defined.
End Spec.

(** ** The doubles of the machine

    Rocq's primitive floats are the binary64 numbers of the processor.
    They serve to check [JS.roundDouble] against them. *)

Module Binary64.

(** The rational number that a finite double stands for. *)
Definition value (f : PrimFloat.float) : Q :=
  match FloatOps.Prim2SF f with
  | SpecFloat.S754_finite negative m e =>
      Qred ((if negative then -1 else 1) * inject_Z (Zpos m) * 2 ^ e)
  | _ => 0
  end.

Definition ofCount (n : Z) : PrimFloat.float :=
  PrimFloat.of_uint63 (Uint63.of_Z n).

(** [(chillHours / totalHours) * 100] on the doubles of the machine. *)
Definition percent (chillHours totalHours : Z) : PrimFloat.float :=
  PrimFloat.mul (PrimFloat.div (ofCount chillHours) (ofCount totalHours))
                (ofCount 100).

(** The pairs [(chillHours, totalHours)] with
    [0 <= chillHours <= totalHours] and [1 <= totalHours <= n]. *)
Definition counts (n : nat) : list (Z * Z) :=
  t ← seq 1 n; c ← seq 0 (S t); [(Z.of_nat c, Z.of_nat t)].

End Binary64.

(** ** Hosts, readings and services of the examples *)

Module Fixtures.
Import AmbientWeatherAPI.
Import JSDate.
Definition reading (t : Z) (f : Q) : WeatherData := {| dateutc := t; tempf := f |}.
(** A host on UTC whose clock shows 2024-06-01. *)
Definition utcHost : Host := fixedOffsetHost 0 1717200000000.
(** Four readings of the hour from 03:00 on 2023-01-15 (UTC), two of them
    between 32 and 45 degrees, and three of the next hour, one of them in
    that range. *)
Definition twoHours : list WeatherData :=
  [reading 1673751600000 40; reading 1673751900000 50;
   reading 1673752200000 33; reading 1673752500000 60;
   reading 1673755200000 31; reading 1673755500000 45;
   reading 1673755800000 46].
Definition twoHoursShuffled : list WeatherData :=
  [reading 1673755500000 45; reading 1673752500000 60;
   reading 1673751600000 40; reading 1673755800000 46;
   reading 1673752200000 33; reading 1673755200000 31;
   reading 1673751900000 50].

(** One reading in each of three hours from 03:00 on 2023-01-15 (UTC),
    two of them between 32 and 45 degrees. *)
Definition threeHours : list WeatherData :=
  [reading 1673751600000 40; reading 1673755200000 44;
   reading 1673758800000 50].

(** A service that answers 429, then 503, then one reading at 1000 ms. *)
Definition twiceBusy : Server :=
  fun n _ =>
    match n with
    | 0%nat => Rejected {| status := Some 429 |}
    | 1%nat => Rejected {| status := Some 503 |}
    | _ => Resolved [reading 1000 40]
    end.
(** A service that always answers 401. *)
Definition unauthorized : Server := fun _ _ => Rejected {| status := Some 401 |}.
Definition someRequest : Request :=
  {| url := "https://api.ambientweather.net/v1/devices/AA";
     params := {| limit := Some 500; endDate := Some 1000 |} |}.

(** A service with one page of two readings of the same instant. *)
Definition twoAtOnce : Server :=
  fun n _ =>
    match n with
    | 0%nat => Resolved [reading 1000 40; reading 1000 41]
    | _ => Resolved []
    end.
(** A service with one reading, taken at 1000 ms. *)
Definition oneReading : Server := fun _ _ => Resolved [reading 1000 40].
(** A service with a reading for every hour: each page holds the one
    reading taken an hour before the end of the page. *)
Definition hourly : Server :=
  fun _ req =>
    match endDate (params req) with
    | Some t => Resolved [reading (t - 3600000) 40]
    | None => Resolved []
    end.
(** A service with two readings, at the epoch and two days later. *)
Definition twoDaysApart : Server :=
  fun _ _ => Resolved [reading 172800000 40; reading 0 41].
End Fixtures.

(** ** [src/index.ts]: the [chill] command *)

Module CommandLine.
Import JSDate.

(** [Date.prototype.setDate]: the day of the month is replaced in local
    time and the time of day is kept; a day outside the month carries into
    the months around it. *)
Definition setDate (host : Host) (d date : Z) : Z :=
  let t := LocalTime host d in
  UTC host (MakeDate (MakeDay (YearFromTime t) (MonthFromTime t) date)
                     (TimeWithinDay t)).

(** [Config] of [src/types.ts]; an optional field that is not set is [None]. *)
Record Config := {
  apiKey : string;
  applicationKey : option string;
  defaultStationMac : option string;
  seasonStart : Z;
  chillHourMin : Q;
  chillHourMax : Q;
  rateLimitDelay : option Z
}.

(** The options of [chill] as commander hands them over; [days] has the
    default 7 there. *)
Record ChillOptions := {
  mac : option string;
  days : Z;
  year : option Z;
  season : bool
}.

(** How the action ends: with one of its two complaints, with the report
    it prints, or in its [catch]. *)
Inductive ChillOutcome :=
| ApiKeyMissing
| StationMissing
| Reported (report : ChillHourReport)
| Failed (error : AmbientWeatherAPI.AxiosError).

(** A string as a condition: absent and empty strings are false. *)
Definition truthy (s : option string) : option string :=
  match s with
  | Some EmptyString => None
  | _ => s
  end.

Section Chill.
(** The host and the remote service; every [new Date()] of a run reads the
    same instant [now host]. *)
Context (host : Host) (server : AmbientWeatherAPI.Server).

(** The season dates as the action computes them. *)
Definition seasonDates (seasonStartMonth year : Z) : Z * Z :=
  if seasonStartMonth <=? 6 then
    (newDate host year (seasonStartMonth - 1) 1, newDate host year 11 31)
  else
    (newDate host (year - 1) (seasonStartMonth - 1) 1,
     newDate host year (seasonStartMonth - 1) 0).

Definition chill (config : Config) (options : ChillOptions)
  : list AmbientWeatherAPI.Event -> option (ChillOutcome * list AmbientWeatherAPI.Event) :=
  fun tr =>
  match truthy (Some (apiKey config)) with
  | None => Some (ApiKeyMissing, tr)
  | Some _ =>
      let stationMac :=
        match truthy (mac options) with
        | Some m => Some m
        | None => defaultStationMac config
        end in
      match truthy stationMac with
      | None => Some (StationMissing, tr)
      | Some stationMac =>
          let delay :=
            default AmbientWeatherAPI.DEFAULT_RATE_LIMIT_DELAY_MS (rateLimitDelay config) in
          let endDate := now host in
          if season options then
            let currentYear := getFullYear host (now host) in
            let year :=
              match year options with
              | Some y => if y =? 0 then currentYear else y
              | None => currentYear
              end in
            let seasonStartMonth := seasonStart config in
            let '(seasonStart, seasonEnd) := seasonDates seasonStartMonth year in
            let daysInSeason :=
              JS.ceilDiv (seasonEnd - seasonStart) (1000 * 60 * 60 * 24) in
            match AmbientWeatherAPI.getDeviceDataForDateRange host server delay
                    stationMac seasonStart (Some endDate) None tr with
            | Some (AmbientWeatherAPI.Ok data, tr) =>
                let report :=
                  ChillHourCalculator.calculateSeasonChillHours host
                    (chillHourMin config) (chillHourMax config) data
                    (CommandLine.seasonStart config) (Some year) in
                Some (Reported report, tr)
            | Some (AmbientWeatherAPI.Throw e, tr) => Some (Failed e, tr)
            | None => None
            end
          else
            let startDate :=
              setDate host (now host) (getDate host (now host) - days options) in
            match AmbientWeatherAPI.getDeviceDataForDateRange host server delay
                    stationMac startDate (Some endDate) None tr with
            | Some (AmbientWeatherAPI.Ok data, tr) =>
                let report :=
                  ChillHourCalculator.calculateChillHours host
                    (chillHourMin config) (chillHourMax config) data in
                Some (Reported report, tr)
            | Some (AmbientWeatherAPI.Throw e, tr) => Some (Failed e, tr)
            | None => None
            end
      end
  end.
End Chill.

End CommandLine.

(** ** [src/services/chillHours.ts]: what the season log is computed from *)

Module ChillHourCalculatorLog.

(** Returns [(earliestDate, latestDate)].  [data] is not empty where this
    is called; 0 stands in for the bounds that an empty array does not
    have. *)
Definition findDateRange (data : list WeatherData) : Z * Z :=
  match dateutc <$> data with
  | [] => (0, 0)
  | t :: ts => (JS.mathMin t ts, JS.mathMax t ts)
  end.

End ChillHourCalculatorLog.

Module HourSets.
Import JSDate.

Section Hours.
Context (host : Host) (minTemp maxTemp : Q).

(** The key of the hour of a reading. *)
Definition hourOf (e : WeatherData) : string :=
  ChillHourCalculator.createHourKey host (dateutc e).

(** The hours that have a reading. *)
Definition hours (data : list WeatherData) : gset string :=
  list_to_set (hourOf <$> data).

(** At least half of the readings of hour [k] are in the chill range. *)
Definition halfInRange (data : list WeatherData) (k : string) : Prop :=
  (length (Spec.readingsAt host k data)
   <= 2 * Spec.inRangeCount minTemp maxTemp (Spec.readingsAt host k data))%nat.

#[global] Instance halfInRange_dec data k : Decision (halfInRange data k).
Proof. unfold halfInRange. apply _. Defined.
End Hours.

(** Timestamps in strictly ascending order. *)
Definition strictlyChronological (a b : WeatherData) : Prop := dateutc a < dateutc b.
End HourSets.

Module HourKeys.
(** No character of the string is a minus sign. *)
Fixpoint noDash (s : string) : Prop :=
  match s with
  | EmptyString => True
  | String c s' => c <> "-"%char /\ noDash s'
  end.

(** The hour, counted from the epoch, in which a date falls in local time. *)
Definition localHour (host : JSDate.Host) (d : Z) : Z :=
  JSDate.LocalTime host d / JSDate.msPerHour.
End HourKeys.

Module Zones.
(** The zone of the host has one offset from UTC at all times. *)
Definition fixedOffset (host : JSDate.Host) (offset : Z) : Prop :=
  forall (t : Z) (isUTC : bool), JSDate.LocalTZA host t isUTC = offset.
End Zones.

Module Pages.
Import AmbientWeatherAPI.

(** The sum of a list of waits. *)
Definition totalWait (waits : list Z) : Z := foldr Z.add 0 waits.

(** The service honours the end date of a request: no reading of its
    answer is later. *)
Definition honoursEndDate (server : Server) : Prop :=
  forall (i : nat) (req : Request) (data : list WeatherData) (t : Z),
    server i req = Resolved data -> endDate (params req) = Some t ->
    Forall (fun e => dateutc e <= t) data.

(** No page of the service has two readings of the same instant. *)
Definition distinctInPage (server : Server) : Prop :=
  forall (i : nat) (req : Request) (data : list WeatherData),
    server i req = Resolved data -> NoDup (dateutc <$> data).

(** Pages in the order they were fetched: every reading of a later page is
    at least a second older than every reading of an earlier one. *)
Fixpoint pagesApart (pages : list (list WeatherData)) : Prop :=
  match pages with
  | [] => True
  | page :: later =>
      (forall e1 page2 e2, e1 ∈ page -> page2 ∈ later -> e2 ∈ page2 ->
                           dateutc e2 + 1000 <= dateutc e1)
      /\ pagesApart later
  end.

(** The event is a wait, or a request for readings of the device, 500 at
    most, up to some instant. *)
Definition deviceEvent (macAddress : string) (ev : Event) : Prop :=
  match ev with
  | Sleep _ => True
  | Get req => exists cursor : Z, req = Spec.pageRequestAt macAddress cursor
  end.
End Pages.

Module Seasons.
(** The year that [year || currentYear] stands for. *)
Definition effectiveYear (host : JSDate.Host) (year : option Z) : Z :=
  let currentYear := JSDate.getFullYear host (JSDate.now host) in
  match year with
  | Some y => if y =? 0 then currentYear else y
  | None => currentYear
  end.
End Seasons.

Module Runs.
(** A configuration with a key, the station "AA" and the defaults. *)
Definition config : CommandLine.Config :=
  {| CommandLine.apiKey := "key";
     CommandLine.applicationKey := None;
     CommandLine.defaultStationMac := Some "AA"%string;
     CommandLine.seasonStart := 9;
     CommandLine.chillHourMin := 32;
     CommandLine.chillHourMax := 45;
     CommandLine.rateLimitDelay := None |}.

Definition seasonOf (year : Z) : CommandLine.ChillOptions :=
  {| CommandLine.mac := None; CommandLine.days := 7;
     CommandLine.year := Some year; CommandLine.season := true |}.

Definition lastDays (days : Z) : CommandLine.ChillOptions :=
  {| CommandLine.mac := None; CommandLine.days := days;
     CommandLine.year := None; CommandLine.season := false |}.

(** A service whose one page holds the readings of [Fixtures.twoHours]
    and a reading taken at the epoch. *)
Definition januaryService : AmbientWeatherAPI.Server :=
  fun _ _ => AmbientWeatherAPI.Resolved (Fixtures.twoHours ++ [Fixtures.reading 0 41]).

(** A service whose one page holds a reading taken one day and a reading
    taken eight days before the clock of [Fixtures.utcHost]. *)
Definition recentService : AmbientWeatherAPI.Server :=
  fun _ _ => AmbientWeatherAPI.Resolved
               [Fixtures.reading (1717200000000 - 86400000) 40;
                Fixtures.reading (1717200000000 - 8 * 86400000) 40].

(** The trace at the end of a run of the command. *)
Definition traceOf (run : option (CommandLine.ChillOutcome * list AmbientWeatherAPI.Event))
  : list AmbientWeatherAPI.Event :=
  match run with
  | Some (_, tr) => tr
  | None => []
  end.
End Runs.

(** * Properties *)

(** ** Doubles *)

Section Rounding.
Import JS.
Local Open Scope Q_scope.

(** A comparison that came out as [Eq], [Lt] or [Gt], as a relation. *)
Ltac compared H :=
  match type of H with
  | (_ ?= _) = Eq => apply Qeq_alt in H
  | (_ ?= _) = Lt => apply Qlt_alt in H
  | (_ ?= _) = Gt => apply Qgt_alt in H
  end.

Lemma pow2_pos e : 0 < 2 ^ e.
Proof. by apply Qpower_0_lt. Qed.

Lemma pow2_succ e : 2 ^ (e + 1) == 2 * 2 ^ e.
Proof. rewrite Qpower_plus by done. change (2 ^ 1) with 2. ring. Qed.

Lemma pow2_le e e' : (e <= e')%Z -> 2 ^ e <= 2 ^ e'.
Proof. intros. by apply Qpower_le_compat_l. Qed.

Lemma pow2_Z (a : Z) : (0 <= a)%Z -> inject_Z (2 ^ a) == 2 ^ a.
Proof. intros Ha. by rewrite Zpower_Qpower. Qed.

(** The bounds of a positive integer between two powers of 2. *)
Lemma log2_bounds (n : Z) :
  (0 < n)%Z -> 2 ^ Z.log2 n <= inject_Z n /\ inject_Z n < 2 * 2 ^ Z.log2 n.
Proof.
  intros Hn. destruct (Z.log2_spec n Hn) as [Hlo Hhi].
  pose proof (Z.log2_nonneg n) as Hnn.
  rewrite <- pow2_succ, <- !pow2_Z by lia.
  rewrite <- Zle_Qle, <- Zlt_Qlt. change (Z.succ (Z.log2 n)) with (Z.log2 n + 1)%Z in Hhi.
  done.
Qed.

Lemma floorLog2_spec x :
  0 < x -> 2 ^ floorLog2 x <= x /\ x < 2 ^ (floorLog2 x + 1).
Proof.
  intros Hx. unfold floorLog2.
  destruct x as [n d]. cbn [Qnum Qden].
  assert (Hn : (0 < n)%Z) by (unfold Qlt in Hx; simpl in Hx; lia).
  destruct (log2_bounds n Hn) as [Hn1 Hn2].
  destruct (log2_bounds (Zpos d) eq_refl) as [Hd1 Hd2].
  set (a := Z.log2 n) in *. set (b := Z.log2 (Z.pos d)) in *.
  pose proof (pow2_pos a) as Ha. pose proof (pow2_pos b) as Hb.
  assert (Hk : 2 ^ (a - b) * 2 ^ b == 2 ^ a).
  { rewrite Qpower_minus by done. field. intros H. rewrite H in Hb. by apply Qlt_irrefl in Hb. }
  assert (Hk1 : 2 ^ (a - b - 1) * 2 == 2 ^ (a - b)).
  { replace (a - b)%Z with ((a - b - 1) + 1)%Z at 2 by lia. rewrite pow2_succ. ring. }
  assert (Hxd : (n # d) * inject_Z (Zpos d) == inject_Z n).
  { rewrite (Qmake_Qdiv n d). field. discriminate. }
  pose proof (pow2_pos (a - b)) as Hp. pose proof (pow2_pos (a - b - 1)) as Hp1.
  set (P := 2 ^ (a - b)) in *. set (P1 := 2 ^ (a - b - 1)) in *.
  set (A := 2 ^ a) in *. set (B := 2 ^ b) in *.
  set (N := inject_Z n) in *. set (D := inject_Z (Z.pos d)) in *.
  set (X := n # d) in *.
  destruct (Qle_bool P X) eqn:Hle.
  - apply Qle_bool_iff in Hle. split; [done|].
    rewrite pow2_succ. fold P. nra.
  - assert (Hlt : X < P).
    { apply Qnot_le_lt. intros H. apply Qle_bool_iff in H. congruence. }
    replace (a - b - 1 + 1)%Z with (a - b)%Z by lia. fold P. split; [|done].
    fold P1. nra.
Qed.

Lemma pow2_lt_inv e e' : 2 ^ e < 2 ^ e' -> (e < e')%Z.
Proof. intros H. by apply (Qpower_lt_compat_l_inv 2). Qed.

Lemma floorLog2_unique x e :
  2 ^ e <= x -> x < 2 ^ (e + 1) -> floorLog2 x = e.
Proof.
  intros Hlo Hhi.
  assert (Hx : 0 < x) by (eapply Qlt_le_trans; [apply (pow2_pos e)|done]).
  destruct (floorLog2_spec x Hx) as [Hlo' Hhi'].
  pose proof (pow2_lt_inv e (floorLog2 x + 1) ltac:(by eapply Qle_lt_trans)).
  pose proof (pow2_lt_inv (floorLog2 x) (e + 1) ltac:(by eapply Qle_lt_trans)).
  lia.
Qed.

Lemma floorLog2_comp x y : 0 < x -> x == y -> floorLog2 x = floorLog2 y.
Proof.
  intros Hx Hxy. destruct (floorLog2_spec x Hx) as [Hlo Hhi].
  symmetry. apply floorLog2_unique; by rewrite <- Hxy.
Qed.

Lemma floorLog2_mono x y : 0 < x -> x <= y -> (floorLog2 x <= floorLog2 y)%Z.
Proof.
  intros Hx Hxy.
  assert (Hy : 0 < y) by by eapply Qlt_le_trans.
  destruct (floorLog2_spec x Hx) as [Hlo _]. destruct (floorLog2_spec y Hy) as [_ Hhi].
  pose proof (pow2_lt_inv (floorLog2 x) (floorLog2 y + 1)
                ltac:(eapply Qle_lt_trans; [|exact Hhi]; by eapply Qle_trans)).
  lia.
Qed.

Lemma roundHalfEven_floor y :
  (Qfloor y <= roundHalfEven y <= Qfloor y + 1)%Z.
Proof.
  unfold roundHalfEven. destruct (y - inject_Z (Qfloor y) ?= 1 # 2); [|lia..].
  destruct (Z.even _); lia.
Qed.

Lemma roundHalfEven_near y :
  inject_Z (roundHalfEven y) - y <= 1 # 2 /\ y - inject_Z (roundHalfEven y) <= 1 # 2.
Proof.
  pose proof (Qfloor_le y) as Hlo. pose proof (Qlt_floor y) as Hhi.
  rewrite inject_Z_plus in Hhi. change (inject_Z 1) with 1 in Hhi.
  unfold roundHalfEven.
  destruct (y - inject_Z (Qfloor y) ?= 1 # 2) eqn:Hc.
  - apply Qeq_alt in Hc.
    destruct (Z.even _); [|rewrite inject_Z_plus; change (inject_Z 1) with 1]; lra.
  - apply Qlt_alt in Hc. lra.
  - apply Qgt_alt in Hc. rewrite inject_Z_plus. change (inject_Z 1) with 1. lra.
Qed.

Lemma roundHalfEven_Z z : roundHalfEven (inject_Z z) = z.
Proof.
  unfold roundHalfEven. rewrite Qfloor_Z.
  destruct (inject_Z z - inject_Z z ?= 1 # 2) eqn:Hc; [|done|].
  - apply Qeq_alt in Hc. lra.
  - apply Qgt_alt in Hc. lra.
Qed.

Lemma roundHalfEven_mono y y' : y <= y' -> (roundHalfEven y <= roundHalfEven y')%Z.
Proof.
  intros Hy. pose proof (Qfloor_resp_le y y' Hy) as Hf.
  pose proof (roundHalfEven_floor y) as Hr. pose proof (roundHalfEven_floor y') as Hr'.
  destruct (decide (Qfloor y = Qfloor y')) as [Heq|Hne]; [|lia].
  unfold roundHalfEven in *. rewrite <- Heq in *.
  destruct (y - inject_Z (Qfloor y) ?= 1 # 2) eqn:Hc;
    destruct (y' - inject_Z (Qfloor y) ?= 1 # 2) eqn:Hc';
    compared Hc; compared Hc'; lia || lra.
Qed.

Lemma roundHalfEven_comp y y' : y == y' -> roundHalfEven y = roundHalfEven y'.
Proof.
  intros H.
  pose proof (roundHalfEven_mono y y' ltac:(rewrite H; apply Qle_refl)).
  pose proof (roundHalfEven_mono y' y ltac:(rewrite H; apply Qle_refl)).
  lia.
Qed.

(** A positive number is rounded to [m * 2^e] with [2^52 <= m <= 2^53]. *)
Lemma roundPositive_spec x :
  0 < x ->
  let e := (floorLog2 x - 52)%Z in
  let m := roundHalfEven (x / 2 ^ e) in
  roundPositive x == inject_Z m * 2 ^ e /\
  (2 ^ 52 <= m <= 2 ^ 53)%Z /\
  inject_Z (2 ^ 52) * 2 ^ e <= x.
Proof.
  intros Hx e m. unfold roundPositive. fold e. fold m.
  split; [apply Qred_correct|].
  destruct (floorLog2_spec x Hx) as [Hlo Hhi].
  pose proof (pow2_pos e) as He.
  assert (Hlo' : 2 ^ 52 * 2 ^ e <= x).
  { rewrite <- Qpower_plus by done. by replace (52 + e)%Z with (floorLog2 x) by (subst e; lia). }
  assert (Hhi' : x < 2 ^ 53 * 2 ^ e).
  { rewrite <- Qpower_plus by done.
    by replace (53 + e)%Z with (floorLog2 x + 1)%Z by (subst e; lia). }
  assert (Hy : inject_Z (2 ^ 52) <= x / 2 ^ e /\ x / 2 ^ e <= inject_Z (2 ^ 53)).
  { split.
    - apply Qle_shift_div_l; [done|]. exact Hlo'.
    - apply Qle_shift_div_r; [done|]. apply Qlt_le_weak. exact Hhi'. }
  destruct Hy as [Hy1 Hy2].
  apply roundHalfEven_mono in Hy1, Hy2. rewrite roundHalfEven_Z in Hy1, Hy2.
  split; [done|]. exact Hlo'.
Qed.

Lemma roundPositive_pos x : 0 < x -> 0 < roundPositive x.
Proof.
  intros Hx. destruct (roundPositive_spec x Hx) as (-> & [Hm _] & _).
  apply Qmult_lt_0_compat; [|apply pow2_pos].
  change 0 with (inject_Z 0). rewrite <- Zlt_Qlt. lia.
Qed.

(** The relative error of rounding is at most [2^-53]. *)
Lemma roundPositive_error x :
  0 < x ->
  x * (1 - 2 ^ (-53)) <= roundPositive x /\ roundPositive x <= x * (1 + 2 ^ (-53)).
Proof.
  intros Hx. destruct (roundPositive_spec x Hx) as (-> & _ & Hlo).
  set (e := (floorLog2 x - 52)%Z) in *. pose proof (pow2_pos e) as He.
  destruct (roundHalfEven_near (x / 2 ^ e)) as [H1 H2].
  set (m := inject_Z (roundHalfEven (x / 2 ^ e))) in *.
  assert (Hy : x / 2 ^ e * 2 ^ e == x).
  { field. intros H. rewrite H in He. by apply Qlt_irrefl in He. }
  set (y := x / 2 ^ e) in *. set (p := 2 ^ e) in *.
  change (inject_Z (2 ^ 52)) with (4503599627370496 # 1) in Hlo.
  change (2 ^ (-53)) with (1 # 9007199254740992).
  split; nra.
Qed.

Lemma roundPositive_mono x y :
  0 < x -> x <= y -> roundPositive x <= roundPositive y.
Proof.
  intros Hx Hxy. assert (Hy : 0 < y) by by eapply Qlt_le_trans.
  destruct (roundPositive_spec x Hx) as (-> & [_ Hmx] & _).
  destruct (roundPositive_spec y Hy) as (-> & [Hmy _] & _).
  pose proof (floorLog2_mono x y Hx Hxy) as He.
  set (ex := (floorLog2 x - 52)%Z) in *. set (ey := (floorLog2 y - 52)%Z) in *.
  pose proof (pow2_pos ex) as Hpx. pose proof (pow2_pos ey) as Hpy.
  destruct (decide (ex = ey)) as [Heq|Hne].
  - rewrite <- Heq. apply Qmult_le_r; [done|]. rewrite <- Zle_Qle.
    apply roundHalfEven_mono. apply Qmult_le_r; [by apply Qinv_lt_0_compat|done].
  - assert (Hp : 2 * 2 ^ ex <= 2 ^ ey).
    { rewrite <- pow2_succ. apply pow2_le. subst ex ey. lia. }
    rewrite Zle_Qle in Hmx, Hmy.
    change (inject_Z (2 ^ 53)) with (9007199254740992 # 1) in Hmx.
    change (inject_Z (2 ^ 52)) with (4503599627370496 # 1) in Hmy.
    set (mx := inject_Z (roundHalfEven (x / 2 ^ ex))) in *.
    set (my := inject_Z (roundHalfEven (y / 2 ^ ey))) in *.
    set (px := 2 ^ ex) in *. set (py := 2 ^ ey) in *. nra.
Qed.

Lemma roundPositive_comp x y : 0 < x -> x == y -> roundPositive x = roundPositive y.
Proof.
  intros Hx Hxy. unfold roundPositive. rewrite <- (floorLog2_comp x y Hx Hxy).
  apply Qred_complete.
  rewrite (roundHalfEven_comp (x / 2 ^ (floorLog2 x - 52)) (y / 2 ^ (floorLog2 x - 52)))
    by (apply Qdiv_comp; [exact Hxy|reflexivity]).
  reflexivity.
Qed.

Lemma roundDouble_pos x : 0 < x -> roundDouble x = roundPositive x.
Proof.
  intros Hx. unfold roundDouble.
  destruct (x ?= 0) eqn:Hc; [apply Qeq_alt in Hc; lra|apply Qlt_alt in Hc; lra|done].
Qed.

Lemma roundDouble_0 x : x == 0 -> roundDouble x = 0.
Proof.
  intros Hx. unfold roundDouble.
  destruct (x ?= 0) eqn:Hc; [done|apply Qlt_alt in Hc; lra|apply Qgt_alt in Hc; lra].
Qed.

Lemma roundDouble_comp x y : x == y -> roundDouble x = roundDouble y.
Proof.
  intros Hxy. unfold roundDouble. rewrite <- Hxy.
  destruct (x ?= 0) eqn:Hc; [done|..].
  - apply Qlt_alt in Hc. f_equal. apply roundPositive_comp; [lra|by rewrite Hxy].
  - apply Qgt_alt in Hc. by apply roundPositive_comp.
Qed.

Lemma roundDouble_nonneg x : 0 <= x -> 0 <= roundDouble x.
Proof.
  intros Hx. destruct (Qeq_dec x 0) as [H0|H0].
  - by rewrite roundDouble_0.
  - assert (0 < x) by (apply Qle_lteq in Hx as [?|Heq]; [done|by rewrite <- Heq in H0]).
    rewrite roundDouble_pos by done. by apply Qlt_le_weak, roundPositive_pos.
Qed.

(** Rounding keeps the order of numbers that are not negative. *)
Lemma roundDouble_mono x y : 0 <= x -> x <= y -> roundDouble x <= roundDouble y.
Proof.
  intros Hx Hxy. destruct (Qeq_dec x 0) as [H0|H0].
  - rewrite (roundDouble_0 x) by done. apply roundDouble_nonneg. lra.
  - assert (0 < x) by (apply Qle_lteq in Hx as [?|Heq]; [done|by rewrite <- Heq in H0]).
    rewrite !roundDouble_pos by lra. by apply roundPositive_mono.
Qed.

Lemma roundDouble_error x :
  0 <= x ->
  x * (1 - 2 ^ (-53)) <= roundDouble x /\ roundDouble x <= x * (1 + 2 ^ (-53)).
Proof.
  intros Hx. destruct (Qeq_dec x 0) as [H0|H0].
  - rewrite (roundDouble_0 x) by done. rewrite H0. split; lra.
  - assert (0 < x) by (apply Qle_lteq in Hx as [?|Heq]; [done|by rewrite <- Heq in H0]).
    rewrite roundDouble_pos by done. by apply roundPositive_error.
Qed.

Lemma roundDouble_1 : roundDouble 1 = 1.
Proof. vm_compute. reflexivity. Qed.

Lemma roundDouble_100 : roundDouble 100 = 100.
Proof. vm_compute. reflexivity. Qed.

(** On the doubles of the machine the percentage of [c] hours out of
    [t] comes out as in the model, for all counts up to 100 hours. *)
Lemma percentage_binary64 :
  Forall (fun p => Binary64.value (Binary64.percent p.1 p.2) =
                   multiply (divide (inject_Z p.1) (inject_Z p.2)) 100)
         (Binary64.counts 100).
Proof.
  apply Forall_forall. intros p Hp.
  assert (H : forallb (fun p => bool_decide
                         (Qnum (Binary64.value (Binary64.percent p.1 p.2)) =
                            Qnum (multiply (divide (inject_Z p.1) (inject_Z p.2)) 100)
                          /\ Qden (Binary64.value (Binary64.percent p.1 p.2)) =
                                Qden (multiply (divide (inject_Z p.1) (inject_Z p.2)) 100)))
                      (Binary64.counts 100) = true)
    by (vm_compute; reflexivity).
  rewrite forallb_forall in H. apply list_elem_of_In, H in Hp.
  apply bool_decide_eq_true in Hp as [Hn Hd].
  destruct (Binary64.value _), (multiply _ _). simpl in *. by subst.
Qed.

(** *** The percentage of [c] hours out of [t] *)

Lemma count_nonneg (n : nat) : 0 <= inject_Z (Z.of_nat n).
Proof. change 0 with (inject_Z 0). rewrite <- Zle_Qle. lia. Qed.

Lemma count_pos (n : nat) : (0 < n)%nat -> 0 < inject_Z (Z.of_nat n).
Proof. intros Hn. change 0 with (inject_Z 0). rewrite <- Zlt_Qlt. lia. Qed.

Lemma ratio_bounds (c t : nat) :
  (c <= t)%nat -> (0 < t)%nat ->
  0 <= inject_Z (Z.of_nat c) / inject_Z (Z.of_nat t) <= 1.
Proof.
  intros Hc Ht. pose proof (count_pos t Ht) as Hpos. pose proof (count_nonneg c) as Hnn.
  assert (Hle : inject_Z (Z.of_nat c) <= inject_Z (Z.of_nat t))
    by (rewrite <- Zle_Qle; lia).
  split.
  - apply Qle_shift_div_l; [done|]. lra.
  - apply Qle_shift_div_r; [done|]. lra.
Qed.

Lemma percentage_all (t : nat) :
  (0 < t)%nat ->
  multiply (divide (inject_Z (Z.of_nat t)) (inject_Z (Z.of_nat t))) 100 = 100.
Proof.
  intros Ht. pose proof (count_pos t Ht) as Hpos. unfold multiply, divide.
  rewrite (roundDouble_comp (inject_Z (Z.of_nat t) / inject_Z (Z.of_nat t)) 1).
  - rewrite roundDouble_1. vm_compute. reflexivity.
  - field. intros H. rewrite H in Hpos. by apply Qlt_irrefl in Hpos.
Qed.

Lemma percentage_none (t : nat) :
  multiply (divide (inject_Z (Z.of_nat 0)) (inject_Z (Z.of_nat t))) 100 = 0.
Proof.
  unfold multiply, divide.
  rewrite (roundDouble_0 (inject_Z (Z.of_nat 0) / inject_Z (Z.of_nat t)))
    by (unfold Qdiv; apply Qmult_0_l).
  vm_compute. reflexivity.
Qed.

Lemma percentage_bounds (c t : nat) :
  (c <= t)%nat -> (0 < t)%nat ->
  0 <= multiply (divide (inject_Z (Z.of_nat c)) (inject_Z (Z.of_nat t))) 100 <= 100.
Proof.
  intros Hc Ht. destruct (ratio_bounds c t Hc Ht) as [Hlo Hhi].
  unfold multiply, divide.
  set (q := inject_Z (Z.of_nat c) / inject_Z (Z.of_nat t)) in *.
  pose proof (roundDouble_nonneg q Hlo) as H0.
  pose proof (roundDouble_mono q 1 Hlo Hhi) as H1. rewrite roundDouble_1 in H1.
  split.
  - apply roundDouble_nonneg. lra.
  - eapply Qle_trans; [apply (roundDouble_mono _ 100); lra|].
    rewrite roundDouble_100. apply Qle_refl.
Qed.

(** The two roundings move the percentage by a factor between
    [(1 - 2^-53)^2] and [(1 + 2^-53)^2]. *)
Lemma percentage_error (c t : nat) :
  (0 < t)%nat ->
  let exact := 100 * inject_Z (Z.of_nat c) / inject_Z (Z.of_nat t) in
  let percent := multiply (divide (inject_Z (Z.of_nat c)) (inject_Z (Z.of_nat t))) 100 in
  exact * (1 - 2 ^ (-53)) ^ 2 <= percent /\ percent <= exact * (1 + 2 ^ (-53)) ^ 2.
Proof.
  intros Ht exact percent. subst exact percent. unfold multiply, divide.
  pose proof (count_pos t Ht) as Hpos. pose proof (count_nonneg c) as Hnn.
  assert (Hq : 0 <= inject_Z (Z.of_nat c) / inject_Z (Z.of_nat t))
    by (apply Qle_shift_div_l; [done|lra]).
  assert (Hexact : 100 * inject_Z (Z.of_nat c) / inject_Z (Z.of_nat t)
                   == inject_Z (Z.of_nat c) / inject_Z (Z.of_nat t) * 100).
  { field. intros H. rewrite H in Hpos. by apply Qlt_irrefl in Hpos. }
  rewrite Hexact.
  set (q := inject_Z (Z.of_nat c) / inject_Z (Z.of_nat t)) in *.
  destruct (roundDouble_error q Hq) as [H1 H2].
  pose proof (roundDouble_nonneg q Hq) as Hq1.
  destruct (roundDouble_error (roundDouble q * 100) ltac:(lra)) as [H3 H4].
  set (q1 := roundDouble q) in *. set (p := roundDouble (q1 * 100)) in *.
  change (2 ^ (-53)) with (1 # 9007199254740992) in *.
  change ((1 - (1 # 9007199254740992)) ^ 2)
    with ((1 - (1 # 9007199254740992)) * (1 - (1 # 9007199254740992))).
  change ((1 + (1 # 9007199254740992)) ^ 2)
    with ((1 + (1 # 9007199254740992)) * (1 + (1 # 9007199254740992))).
  split; nra.
Qed.
End Rounding.


(** ** Sorting *)

Section SortFacts.
Context {A : Type} (compareFn : A -> A -> Z).

Lemma insertSorted_Permutation x l : JS.insertSorted compareFn x l ≡ₚ x :: l.
Proof.
  induction l as [|y l IH]; simpl; [done|].
  destruct (compareFn x y <=? 0); [done|].
  rewrite IH. apply Permutation_swap.
Qed.

Lemma sort_Permutation l : JS.sort compareFn l ≡ₚ l.
Proof.
  induction l as [|x l IH]; simpl; [done|].
  by rewrite insertSorted_Permutation, IH.
Qed.

Lemma sort_length l : length (JS.sort compareFn l) = length l.
Proof. by rewrite sort_Permutation. Qed.
End SortFacts.

Section SortByKey.
Context {A : Type} (key : A -> Z).
Let byKey (a b : A) : Prop := key a <= key b.

Lemma insertSorted_HdRel x y l :
  byKey y x -> HdRel byKey y l ->
  HdRel byKey y (JS.insertSorted (fun a b => key a - key b) x l).
Proof.
  intros Hyx Hl. destruct l as [|z l]; simpl; [by constructor|].
  destruct (Z.leb_spec (key x - key z) 0); constructor; [done|].
  by inversion Hl.
Qed.

Lemma insertSorted_Sorted x l :
  Sorted byKey l -> Sorted byKey (JS.insertSorted (fun a b => key a - key b) x l).
Proof.
  induction 1 as [|y l Hs IH Hhd]; simpl.
  - repeat constructor.
  - destruct (Z.leb_spec (key x - key y) 0) as [Hle|Hgt].
    + constructor; [by constructor|]. constructor. unfold byKey. lia.
    + constructor; [done|]. apply insertSorted_HdRel; [|done].
      unfold byKey. lia.
Qed.

Lemma sort_Sorted l : Sorted byKey (JS.sort (fun a b => key a - key b) l).
Proof.
  induction l as [|x l IH]; simpl; [constructor|].
  by apply insertSorted_Sorted.
Qed.
End SortByKey.

Lemma sortDataChronologically_Sorted data :
  Sorted Spec.chronological (ChillHourCalculator.sortDataChronologically data).
Proof. apply (sort_Sorted dateutc). Qed.

Lemma sortDataChronologically_Permutation data :
  ChillHourCalculator.sortDataChronologically data ≡ₚ data.
Proof. apply sort_Permutation. Qed.

(** Two chronological arrangements of the same readings show the same
    sequence of timestamps. *)
Lemma chronological_timestamps l1 l2 :
  Sorted Spec.chronological l1 -> Sorted Spec.chronological l2 -> l1 ≡ₚ l2 ->
  dateutc <$> l1 = dateutc <$> l2.
Proof.
  intros H1 H2 Hp.
  apply (Sorted_unique (A:=Z) Z.le).
  - by apply (Sorted_fmap dateutc Spec.chronological Z.le).
  - by apply (Sorted_fmap dateutc Spec.chronological Z.le).
  - by rewrite Hp.
Qed.

(** ** The hourly map *)

Section Grouping.
Import ChillHourCalculator.
Context (host : JSDate.Host) (minTemp maxTemp : Q).

Local Abbreviation key := (fun e => createHourKey host (dateutc e)).
Local Abbreviation readingsAt := (Spec.readingsAt host).
Local Abbreviation inRangeCount := (Spec.inRangeCount minTemp maxTemp).
Local Abbreviation addReading := (addReading host minTemp maxTemp).
Local Abbreviation groupReadingsByHour := (groupReadingsByHour host minTemp maxTemp).
Local Abbreviation extendBucket := (Spec.extendBucket minTemp maxTemp).

Lemma isTemperatureInChillRange_spec t :
  isTemperatureInChillRange minTemp maxTemp t = true <->
  Spec.inChillRange minTemp maxTemp t.
Proof.
  unfold isTemperatureInChillRange, Spec.inChillRange.
  rewrite andb_true_iff, !Qle_bool_iff. reflexivity.
Qed.

Lemma extendBucket_nil b : extendBucket b [] = b.
Proof.
  destruct b as [ts n]. unfold Spec.extendBucket; simpl.
  rewrite app_nil_r. f_equal. unfold Spec.inRangeCount. simpl. lia.
Qed.

Lemma inRangeCount_cons e l :
  inRangeCount (e :: l) =
  ((if isTemperatureInChillRange minTemp maxTemp (tempf e) then 1 else 0)
   + inRangeCount l)%nat.
Proof.
  unfold Spec.inRangeCount. rewrite filter_cons.
  destruct (isTemperatureInChillRange minTemp maxTemp (tempf e)) eqn:E.
  - apply isTemperatureInChillRange_spec in E. by rewrite decide_True.
  - rewrite decide_False; [done|].
    intros H%isTemperatureInChillRange_spec. congruence.
Qed.

Lemma addReading_lookup_eq m e :
  addReading m e !! key e =
  Some (extendBucket (default {| temps := []; inRange := 0 |} (m !! key e)) [e]).
Proof.
  unfold ChillHourCalculator.addReading.
  destruct (m !! key e) as [b|] eqn:E; simpl.
  - rewrite lookup_alter_eq, E. simpl. f_equal.
    unfold Spec.extendBucket. rewrite inRangeCount_cons. simpl.
    f_equal. destruct (isTemperatureInChillRange _ _ _); unfold Spec.inRangeCount; simpl; lia.
  - rewrite lookup_alter_eq, lookup_insert_eq. simpl. f_equal.
    unfold Spec.extendBucket. rewrite inRangeCount_cons. simpl.
    f_equal. destruct (isTemperatureInChillRange _ _ _); unfold Spec.inRangeCount; simpl; lia.
Qed.

Lemma addReading_lookup_ne m e k :
  key e <> k -> addReading m e !! k = m !! k.
Proof.
  intros Hne. unfold ChillHourCalculator.addReading.
  destruct (m !! key e) as [b|] eqn:E; simpl.
  - by rewrite lookup_alter_ne.
  - by rewrite lookup_alter_ne, lookup_insert_ne.
Qed.

Lemma foldl_addReading_lookup data : forall m k,
  foldl addReading m data !! k =
  match m !! k with
  | Some b => Some (extendBucket b (readingsAt k data))
  | None =>
      match readingsAt k data with
      | [] => None
      | readings => Some (extendBucket {| temps := []; inRange := 0 |} readings)
      end
  end.
Proof.
  induction data as [|e data IH]; intros m k; simpl.
  - destruct (m !! k); [by rewrite extendBucket_nil|done].
  - rewrite IH. unfold Spec.readingsAt. rewrite filter_cons.
    destruct (decide (key e = k)) as [<-|Hne].
    + rewrite addReading_lookup_eq.
      destruct (m !! key e) as [b|]; simpl; f_equal;
        unfold Spec.extendBucket; simpl; rewrite !inRangeCount_cons;
        rewrite <- ?app_assoc; simpl; f_equal;
        change (inRangeCount []) with 0%nat; lia.
    + by rewrite addReading_lookup_ne.
Qed.

(** The hourly map has a bucket exactly for the hours that have a
    reading, holding the readings of that hour in order and the number
    of them in the chill range. *)
Lemma groupReadingsByHour_lookup data k :
  groupReadingsByHour data !! k =
  match readingsAt k data with
  | [] => None
  | readings =>
      Some {| temps := tempf <$> readings; inRange := inRangeCount readings |}
  end.
Proof.
  unfold ChillHourCalculator.groupReadingsByHour.
  rewrite foldl_addReading_lookup, lookup_empty.
  by destruct (readingsAt k data).
Qed.

(** The quotient test, on integers. *)
Lemma isChillHour_spec b :
  isChillHour b = true <->
  (0 < length (temps b))%nat /\
  (1 # 2 <= inject_Z (Z.of_nat (inRange b)) / inject_Z (Z.of_nat (length (temps b))))%Q.
Proof.
  unfold isChillHour. rewrite andb_true_iff, Nat.ltb_lt, Qle_bool_iff. reflexivity.
Qed.

Lemma half_le_quotient (n d : nat) :
  (0 < d)%nat ->
  (1 # 2 <= inject_Z (Z.of_nat n) / inject_Z (Z.of_nat d))%Q <-> (d <= 2 * n)%nat.
Proof.
  intros Hd. destruct d as [|d]; [lia|].
  unfold Qle, Qdiv, Qmult, Qinv, inject_Z. simpl. lia.
Qed.
End Grouping.

Section Aggregator.
Import ChillHourCalculator.
Context (host : JSDate.Host) (minTemp maxTemp : Q).

Lemma countChillHours_le (m : gmap string HourData) :
  ((countChillHours m).2 <= (countChillHours m).1)%nat.
Proof.
  unfold countChillHours; simpl.
  apply (map_fold_weak_ind (fun r m => (r <= size m)%nat)).
  - lia.
  - intros i x m' r Hi IH. rewrite map_size_insert_None by done.
    destruct (isChillHour x); lia.
Qed.

(** The counts depend on the map only through which hours it holds and
    which of them are chill hours. *)
Lemma countChillHours_flags (m : gmap string HourData) :
  countChillHours m =
  (size (isChillHour <$> m),
   map_fold (fun _ (flag : bool) n => if flag then S n else n) 0%nat
            (isChillHour <$> m)).
Proof.
  unfold countChillHours. by rewrite map_size_fmap, map_fold_fmap.
Qed.

Lemma isChillHour_bucket_Permutation (l1 l2 : list WeatherData) :
  l1 ≡ₚ l2 ->
  isChillHour {| temps := tempf <$> l1;
                 inRange := Spec.inRangeCount minTemp maxTemp l1 |} =
  isChillHour {| temps := tempf <$> l2;
                 inRange := Spec.inRangeCount minTemp maxTemp l2 |}.
Proof.
  intros Hp. unfold isChillHour, Spec.inRangeCount; simpl.
  by rewrite !length_fmap, Hp.
Qed.

Lemma groupReadingsByHour_flags_Permutation (l1 l2 : list WeatherData) :
  l1 ≡ₚ l2 ->
  isChillHour <$> groupReadingsByHour host minTemp maxTemp l1 =
  isChillHour <$> groupReadingsByHour host minTemp maxTemp l2.
Proof.
  intros Hp. apply map_eq; intros k.
  rewrite !lookup_fmap, !groupReadingsByHour_lookup.
  assert (Hk : Spec.readingsAt host k l1 ≡ₚ Spec.readingsAt host k l2)
    by (unfold Spec.readingsAt; by rewrite Hp).
  destruct (Spec.readingsAt host k l1) as [|e1 r1] eqn:E1.
  - apply Permutation_nil_l in Hk. by rewrite <- Hk.
  - destruct (Spec.readingsAt host k l2) as [|e2 r2] eqn:E2.
    + by apply Permutation_nil_r in Hk.
    + cbn [fmap option_fmap option_map]. f_equal.
      by apply (isChillHour_bucket_Permutation (e1 :: r1) (e2 :: r2)).
Qed.

Lemma createReport_timestamps (l1 l2 : list WeatherData) n c :
  dateutc <$> l1 = dateutc <$> l2 ->
  createReport host l1 n c = createReport host l2 n c.
Proof.
  intros Ht. unfold createReport.
  assert (H1 : dateutc <$> head l1 = dateutc <$> head l2).
  { destruct l1, l2; simpl in *; congruence. }
  assert (H2 : dateutc <$> last l1 = dateutc <$> last l2)
    by (by rewrite <- !fmap_last, Ht).
  by rewrite H1, H2.
Qed.

Lemma calculateChillHours_counts data :
  let r := calculateChillHours host minTemp maxTemp data in
  (chillHours r <= totalHours r)%nat /\
  percentChillHours r =
    if (0 <? totalHours r)%nat
    then JS.multiply
           (JS.divide (inject_Z (Z.of_nat (chillHours r)))
                      (inject_Z (Z.of_nat (totalHours r))))
           100
    else 0%Q.
Proof.
  unfold calculateChillHours.
  destruct (length _ =? 0)%nat; [by split|].
  pose proof (countChillHours_le
    (groupReadingsByHour host minTemp maxTemp (sortDataChronologically data))) as Hle.
  destruct (countChillHours _) as [n c]; simpl in *. by split.
Qed.
End Aggregator.

(** C3.  An hour bucket of the aggregator holds the readings of its hour
    and the number of them with a temperature in the closed interval from
    [minTemp] to [maxTemp]; it has at least one reading, and it is a chill
    hour exactly when that number divided by the number of readings is at
    least one half.  With 2 of 4 readings in range the bucket is a chill
    hour, with 1 of 3 it is not. *)
Theorem isChillHour_at_least_half
    (host : JSDate.Host) (minTemp maxTemp : Q)
    (sortedData : list WeatherData) (k : string)
    (b : ChillHourCalculator.HourData) :
  ChillHourCalculator.groupReadingsByHour host minTemp maxTemp sortedData !! k = Some b ->
  let readings := Spec.readingsAt host k sortedData in
  let n := Spec.inRangeCount minTemp maxTemp readings in
  let size := length readings in
  ChillHourCalculator.temps b = tempf <$> readings /\
  ChillHourCalculator.inRange b = n /\
  (0 < size)%nat /\
  (ChillHourCalculator.isChillHour b = true <->
   (1 # 2 <= inject_Z (Z.of_nat n) / inject_Z (Z.of_nat size))%Q) /\
  (size = 4%nat -> n = 2%nat -> ChillHourCalculator.isChillHour b = true) /\
  (size = 3%nat -> n = 1%nat -> ChillHourCalculator.isChillHour b = false).
Proof.
  intros Hb readings n size.
  rewrite groupReadingsByHour_lookup in Hb.
  change (Spec.readingsAt host k sortedData) with readings in Hb.
  assert (Hne : (0 < size)%nat /\
                b = {| ChillHourCalculator.temps := tempf <$> readings;
                       ChillHourCalculator.inRange := n |}).
  { subst n size. clearbody readings. destruct readings; [done|].
    cbv zeta in Hb. injection Hb as <-. simpl. split; [lia|reflexivity]. }
  destruct Hne as [Hpos ->]. simpl.
  assert (Hiff : ChillHourCalculator.isChillHour
                   {| ChillHourCalculator.temps := tempf <$> readings;
                      ChillHourCalculator.inRange := n |} = true <->
                 (size <= 2 * n)%nat).
  { rewrite isChillHour_spec. simpl. rewrite length_fmap. fold size.
    rewrite half_le_quotient by done. tauto. }
  repeat split; try done.
  - intros H. rewrite isChillHour_spec in H. simpl in H.
    rewrite length_fmap in H. tauto.
  - intros H. apply Hiff. by apply half_le_quotient.
  - intros H4 H2. apply Hiff. lia.
  - intros H3 H1. apply not_true_is_false. rewrite Hiff. lia.
Qed.

Lemma isChillHour_at_least_half_witness :
  ChillHourCalculator.isChillHour
    {| ChillHourCalculator.temps := [40; 50; 33; 60]%Q;
       ChillHourCalculator.inRange := 2 |} = true.
Proof.
  apply (isChillHour_at_least_half Fixtures.utcHost 32 45 Fixtures.twoHours
           "2023-1-15-3"
           {| ChillHourCalculator.temps := [40; 50; 33; 60]%Q;
              ChillHourCalculator.inRange := 2 |});
    vm_compute; reflexivity.
Defined.

(** C6, as the code has it.  In the report of the aggregator the number
    of chill hours is between 0 and the number of hours.  With at least one
    hour the percentage is the double that [(chillHours / totalHours) * 100]
    gives, the quotient and the product each rounded to the nearest double:
    it need not be 100 * chillHours / totalHours, but it is that number
    times a factor between (1 - 2^-53)^2 and (1 + 2^-53)^2.  With no hour
    the percentage is 0.  The same holds for the season report. *)
Theorem report_counts_and_percentage
    (host : JSDate.Host) (minTemp maxTemp : Q) (data : list WeatherData)
    (seasonStartMonth : Z) (year : option Z) (r : ChillHourReport) :
  r = ChillHourCalculator.calculateChillHours host minTemp maxTemp data \/
  r = ChillHourCalculator.calculateSeasonChillHours host minTemp maxTemp data
        seasonStartMonth year ->
  let c := inject_Z (Z.of_nat (chillHours r)) in
  let t := inject_Z (Z.of_nat (totalHours r)) in
  0 <= Z.of_nat (chillHours r) <= Z.of_nat (totalHours r) /\
  ((0 < totalHours r)%nat ->
   percentChillHours r = JS.roundDouble (JS.roundDouble (c / t) * 100) /\
   (100 * c / t * (1 - 2 ^ (-53)) ^ 2 <= percentChillHours r)%Q /\
   (percentChillHours r <= 100 * c / t * (1 + 2 ^ (-53)) ^ 2)%Q) /\
  (totalHours r = 0%nat -> percentChillHours r = 0%Q).
Proof.
  intros Hr c t. subst c t.
  assert (H : (chillHours r <= totalHours r)%nat /\
    percentChillHours r =
      if (0 <? totalHours r)%nat
      then JS.multiply
             (JS.divide (inject_Z (Z.of_nat (chillHours r)))
                        (inject_Z (Z.of_nat (totalHours r))))
             100
      else 0%Q).
  { destruct Hr as [->| ->]; [apply calculateChillHours_counts|].
    unfold ChillHourCalculator.calculateSeasonChillHours.
    destruct (ChillHourCalculator.determineSeasonDates _ _ _) as [s e].
    destruct (length _ =? 0)%nat; [by split|apply calculateChillHours_counts]. }
  destruct H as [Hle Hp]. split; [lia|]. rewrite Hp. split.
  - intros Hpos. pose proof Hpos as Hpos'. apply Nat.ltb_lt in Hpos'. rewrite Hpos'.
    split; [reflexivity|].
    apply (percentage_error (chillHours r) (totalHours r) Hpos).
  - intros ->. reflexivity.
Qed.

Lemma report_counts_and_percentage_witness :
  percentChillHours
    (ChillHourCalculator.calculateChillHours Fixtures.utcHost 32 45 Fixtures.twoHours)
  = 50%Q.
Proof.
  destruct (report_counts_and_percentage Fixtures.utcHost 32 45 Fixtures.twoHours
              9 None _ (or_introl eq_refl)) as (_ & H & _).
  destruct H as [-> _]; [vm_compute; lia|]. vm_compute. reflexivity.
Defined.

(** C6, as the spec has it, fails.  For three hours, two of them chill
    hours, the percentage is the double 66.66666666666666, which is
    neither 100 * 2 / 3 nor the double nearest to it. *)
Lemma report_percentage_not_exact :
  let r := ChillHourCalculator.calculateChillHours Fixtures.utcHost 32 45
             Fixtures.threeHours in
  totalHours r = 3%nat /\ chillHours r = 2%nat /\
  percentChillHours r = 2345624805922133 # 35184372088832 /\
  ~ (percentChillHours r == 100 * 2 / 3)%Q /\
  percentChillHours r <> JS.roundDouble (100 * 2 / 3).
Proof.
  cbv zeta.
  assert (H : ChillHourCalculator.calculateChillHours Fixtures.utcHost 32 45
                Fixtures.threeHours
              = {| totalHours := 3; chillHours := 2;
                   date := "2023-1-15 to 2023-1-15";
                   percentChillHours := 2345624805922133 # 35184372088832 |})
    by (vm_compute; reflexivity).
  rewrite H. cbn [totalHours chillHours percentChillHours].
  split; [done|]. split; [done|]. split; [done|]. split.
  - intros Heq. vm_compute in Heq. discriminate Heq.
  - vm_compute. discriminate.
Qed.

(** C7.  The aggregator gives the same report for a list of readings and
    for any permutation of it: the same number of hours and of chill
    hours, the same percentage and the same period label. *)
Theorem calculateChillHours_Permutation
    (host : JSDate.Host) (minTemp maxTemp : Q) (data data' : list WeatherData) :
  data ≡ₚ data' ->
  ChillHourCalculator.calculateChillHours host minTemp maxTemp data' =
  ChillHourCalculator.calculateChillHours host minTemp maxTemp data.
Proof.
  intros Hp. unfold ChillHourCalculator.calculateChillHours.
  set (s := ChillHourCalculator.sortDataChronologically data).
  set (s' := ChillHourCalculator.sortDataChronologically data').
  assert (Hs : s' ≡ₚ s).
  { subst s s'. by rewrite !sortDataChronologically_Permutation. }
  assert (Ht : dateutc <$> s' = dateutc <$> s).
  { apply chronological_timestamps; [apply sortDataChronologically_Sorted..|done]. }
  rewrite (Permutation_length Hs).
  destruct (length s =? 0)%nat; [done|].
  rewrite !countChillHours_flags.
  rewrite (groupReadingsByHour_flags_Permutation host minTemp maxTemp s' s Hs).
  by apply createReport_timestamps.
Qed.

Lemma calculateChillHours_Permutation_witness :
  ChillHourCalculator.calculateChillHours Fixtures.utcHost 32 45 Fixtures.twoHoursShuffled
  = {| totalHours := 2; chillHours := 1; date := "2023-1-15 to 2023-1-15";
       percentChillHours := 50 |}.
Proof.
  rewrite (calculateChillHours_Permutation Fixtures.utcHost 32 45
             Fixtures.twoHours Fixtures.twoHoursShuffled).
  - vm_compute. reflexivity.
  - unfold Fixtures.twoHours, Fixtures.twoHoursShuffled. solve_Permutation.
Defined.

(** ** The calendar *)

Section Calendar.
Import JSDate.

Lemma DayFromYear_succ y : DayFromYear (y + 1) = DayFromYear y + DaysInYear y.
Proof.
  unfold DayFromYear, DaysInYear, isLeapYear.
  repeat match goal with
         | |- context [?a =? ?b] => destruct (Z.eqb_spec a b)
         end; cbn [negb]; Z.div_mod_to_equations; lia.
Qed.

(** [YearFromDay] is the year of ECMA-262: the one whose days include [d]. *)
Lemma YearFromDay_unique y d :
  DayFromYear y <= d < DayFromYear (y + 1) -> YearFromDay d = y.
Proof.
  unfold YearFromDay, DayFromYear. intros H.
  repeat match goal with
         | |- context [?a <? ?b] => destruct (Z.ltb_spec a b)
         | |- context [?a <=? ?b] => destruct (Z.leb_spec a b)
         end; Z.div_mod_to_equations; lia.
Qed.

Lemma Day_MakeDate day : Day (MakeDate day 0) = day.
Proof. unfold Day, MakeDate. rewrite Z.add_0_r. by apply Z.div_mul. Qed.

Lemma month_cases m :
  0 <= m <= 11 ->
  m = 0 \/ m = 1 \/ m = 2 \/ m = 3 \/ m = 4 \/ m = 5 \/
  m = 6 \/ m = 7 \/ m = 8 \/ m = 9 \/ m = 10 \/ m = 11.
Proof. lia. Qed.

Lemma MakeDay_in_year y m d :
  0 <= m <= 11 ->
  MakeDay y m d =
  DayFromYear y + monthStart (if isLeapYear y then 1 else 0) m + d - 1.
Proof.
  intros Hm. unfold MakeDay.
  rewrite Z.div_small, Z.mod_small, Z.add_0_r by lia. reflexivity.
Qed.

(** The calendar fields of a time value are those of its day. *)
Lemma fields_of_Day t1 t2 :
  Day t1 = Day t2 ->
  YearFromTime t1 = YearFromTime t2 /\
  MonthFromTime t1 = MonthFromTime t2 /\
  DateFromTime t1 = DateFromTime t2.
Proof.
  intros H.
  unfold DateFromTime, MonthFromTime, DayWithinYear, InLeapYear, YearFromTime.
  by rewrite H.
Qed.

(** The date with local fields (y, m, d), for a day [d] that month [m] of
    year [y] has, reads back as (y, m, d). *)
Lemma MakeDay_fields y m d :
  0 <= m <= 11 -> 1 <= d ->
  (let leap := if isLeapYear y then 1 else 0 in
   monthStart leap m + d - 1 < monthStart leap (m + 1)) ->
  let t := MakeDate (MakeDay y m d) 0 in
  YearFromTime t = y /\ MonthFromTime t = m /\ DateFromTime t = d.
Proof.
  intros Hm Hd Hlt t.
  assert (Hday : Day t = DayFromYear y + monthStart (if isLeapYear y then 1 else 0) m + d - 1).
  { subst t. rewrite Day_MakeDate. by apply MakeDay_in_year. }
  assert (Hyear : YearFromTime t = y).
  { unfold YearFromTime. rewrite Hday. apply YearFromDay_unique.
    rewrite DayFromYear_succ. unfold DaysInYear. cbv zeta in Hlt.
    destruct (isLeapYear y);
      destruct (month_cases m Hm) as [->|[->|[->|[->|[->|[->|[->|[->|[->|[->|[->| ->]]]]]]]]]]];
      simpl in *; lia. }
  assert (Hmonth : MonthFromTime t = m).
  { unfold MonthFromTime, DayWithinYear, InLeapYear. rewrite Hyear, Hday.
    cbv zeta in Hlt.
    destruct (isLeapYear y);
      destruct (month_cases m Hm) as [->|[->|[->|[->|[->|[->|[->|[->|[->|[->|[->| ->]]]]]]]]]]];
      simpl in Hlt |- *;
      repeat match goal with
             | |- context [?a <? ?b] => destruct (Z.ltb_spec a b); try lia
             end. }
  split; [done|]. split; [done|].
  unfold DateFromTime, DayWithinYear, InLeapYear. rewrite Hmonth, Hyear, Hday. lia.
Qed.
End Calendar.

Section SeasonDates.
Import JSDate ChillHourCalculator.
Context (host : Host) (Hzone : Spec.midnightsKeepDay host).

Lemma calendarDate_newDate y m d :
  ~ (0 <= y <= 99) -> 0 <= m <= 11 -> 1 <= d ->
  (let leap := if isLeapYear y then 1 else 0 in
   monthStart leap m + d - 1 < monthStart leap (m + 1)) ->
  Spec.calendarDate host (newDate host y m d) = (y, m + 1, d).
Proof.
  intros Hy Hm Hd Hlt.
  unfold Spec.calendarDate, getFullYear, getMonth, getDate, newDate.
  replace ((0 <=? y) && (y <=? 99)) with false by (symmetry; apply andb_false_iff; lia).
  set (t := LocalTime host (UTC host (MakeDate (MakeDay y m d) 0))).
  assert (Ht : Day t = Day (MakeDate (MakeDay y m d) 0)).
  { subst t. rewrite Day_MakeDate. unfold MakeDate. rewrite Z.add_0_r. apply Hzone. }
  destruct (fields_of_Day _ _ Ht) as (-> & -> & ->).
  destruct (MakeDay_fields y m d Hm Hd Hlt) as (H1 & H2 & H3).
  by rewrite H1, H2, H3.
Qed.

(** Day 0 of a month is the day before its first day. *)
Lemma newDate_day_before y m :
  Spec.localDay host (newDate host y m 0) + 1 = Spec.localDay host (newDate host y m 1).
Proof.
  unfold newDate, MakeDate. rewrite !Z.add_0_r, !Hzone. unfold MakeDay. lia.
Qed.
End SeasonDates.

(** C4, as the code has it.  On a host whose local midnights keep their
    day, for a start month in 1..12 and a target year outside 0..100: when
    the start month is at most 6 the window runs from the 1st of the start
    month of the target year to its December 31; otherwise it runs from
    the 1st of the start month of the year before to the day before the
    1st of the start month of the target year, which is the last day of
    the month before the start month. *)
Theorem determineSeasonDates_window
    (host : JSDate.Host) (seasonStartMonth year : Z) :
  Spec.midnightsKeepDay host ->
  1 <= seasonStartMonth <= 12 ->
  year < 0 \/ 100 < year ->
  let window := ChillHourCalculator.determineSeasonDates host seasonStartMonth (Some year) in
  let firstOfStartMonth := JSDate.newDate host year (seasonStartMonth - 1) 1 in
  if seasonStartMonth <=? 6 then
    Spec.calendarDate host window.1 = (year, seasonStartMonth, 1) /\
    Spec.calendarDate host window.2 = (year, 12, 31)
  else
    Spec.calendarDate host window.1 = (year - 1, seasonStartMonth, 1) /\
    Spec.calendarDate host firstOfStartMonth = (year, seasonStartMonth, 1) /\
    Spec.localDay host window.2 + 1 = Spec.localDay host firstOfStartMonth /\
    Spec.calendarDate host window.2 =
      (year, seasonStartMonth - 1,
       Spec.daysInMonth year (seasonStartMonth - 1)).
Proof.
  intros Hzone Hm Hy window first. subst window first.
  unfold ChillHourCalculator.determineSeasonDates.
  replace (year =? 0) with false by (symmetry; apply Z.eqb_neq; lia).
  assert (Hfirst : forall y, ~ (0 <= y <= 99) ->
            Spec.calendarDate host (JSDate.newDate host y (seasonStartMonth - 1) 1)
            = (y, seasonStartMonth, 1)).
  { intros y Hy'.
    rewrite (calendarDate_newDate host Hzone y (seasonStartMonth - 1) 1) by
      (try lia; cbv zeta; destruct (JSDate.isLeapYear y);
       destruct (month_cases (seasonStartMonth - 1) ltac:(lia))
         as [->|[->|[->|[->|[->|[->|[->|[->|[->|[->|[->| ->]]]]]]]]]]]; simpl; lia).
    f_equal. f_equal. lia. }
  destruct (Z.leb_spec seasonStartMonth 6) as [Hle|Hgt]; simpl.
  - split; [apply Hfirst; lia|].
    unfold ChillHourCalculator.DECEMBER_MONTH.
    rewrite (calendarDate_newDate host Hzone year 11 31); [done|lia|lia|lia|].
    cbv zeta. destruct (JSDate.isLeapYear year); simpl; lia.
  - split; [apply Hfirst; lia|]. split; [apply Hfirst; lia|].
    split; [apply newDate_day_before; done|].
    assert (Hc : seasonStartMonth = 7 \/ seasonStartMonth = 8 \/ seasonStartMonth = 9 \/
                 seasonStartMonth = 10 \/ seasonStartMonth = 11 \/ seasonStartMonth = 12) by lia.
    assert (Hend : JSDate.newDate host year (seasonStartMonth - 1) 0 =
                   JSDate.newDate host year (seasonStartMonth - 2)
                     (Spec.daysInMonth year (seasonStartMonth - 1))).
    { unfold JSDate.newDate. do 2 f_equal.
      rewrite !MakeDay_in_year by lia.
      destruct Hc as [->|[->|[->|[->|[->| ->]]]]]; simpl; lia. }
    rewrite Hend.
    rewrite (calendarDate_newDate host Hzone year (seasonStartMonth - 2));
      [f_equal; f_equal; lia|lia|lia|..].
    + destruct Hc as [->|[->|[->|[->|[->| ->]]]]]; simpl; lia.
    + cbv zeta. destruct (JSDate.isLeapYear year);
        destruct Hc as [->|[->|[->|[->|[->| ->]]]]]; simpl; lia.
Qed.

Lemma determineSeasonDates_window_witness :
  (let w := ChillHourCalculator.determineSeasonDates Fixtures.utcHost 9 (Some 2023) in
   Spec.calendarDate Fixtures.utcHost w.1 = (2022, 9, 1) /\
   Spec.calendarDate Fixtures.utcHost w.2 = (2023, 8, 31)) /\
  (let w := ChillHourCalculator.determineSeasonDates Fixtures.utcHost 3 (Some 2023) in
   Spec.calendarDate Fixtures.utcHost w.1 = (2023, 3, 1) /\
   Spec.calendarDate Fixtures.utcHost w.2 = (2023, 12, 31)).
Proof.
  assert (Hzone : Spec.midnightsKeepDay Fixtures.utcHost).
  { intros day. unfold Spec.localDay, JSDate.LocalTime, JSDate.UTC. simpl.
    rewrite Z.sub_0_r, Z.add_0_r. by apply Z.div_mul. }
  split.
  - pose proof (determineSeasonDates_window Fixtures.utcHost 9 2023
                  Hzone ltac:(lia) ltac:(lia)) as H.
    cbv zeta in H. change (9 <=? 6) with false in H. cbv iota in H.
    destruct H as (H1 & _ & _ & H2). split; [exact H1|exact H2].
  - exact (determineSeasonDates_window Fixtures.utcHost 3 2023
             Hzone ltac:(lia) ltac:(lia)).
Defined.

(** C4 as stated fails: with start month 3 the window of 2023 starts on
    March 1, not on January 1. *)
Lemma determineSeasonDates_window_counterexample :
  let window := ChillHourCalculator.determineSeasonDates Fixtures.utcHost 3 (Some 2023) in
  (3 <=? 6) = true /\
  Spec.calendarDate Fixtures.utcHost window.1 = (2023, 3, 1) /\
  Spec.calendarDate Fixtures.utcHost window.1 <> (2023, 1, 1).
Proof. vm_compute. repeat split; congruence. Qed.

(** A target year in 0..99 is read as 1900 + year, and a target year of 0
    as no year at all (the clock of the fixture shows 2024). *)
Example determineSeasonDates_small_years :
  Spec.calendarDate Fixtures.utcHost
    (ChillHourCalculator.determineSeasonDates Fixtures.utcHost 3 (Some 50)).1 = (1950, 3, 1) /\
  Spec.calendarDate Fixtures.utcHost
    (ChillHourCalculator.determineSeasonDates Fixtures.utcHost 9 (Some 100)).1 = (1999, 9, 1) /\
  Spec.calendarDate Fixtures.utcHost
    (ChillHourCalculator.determineSeasonDates Fixtures.utcHost 3 (Some 0)).1 = (2024, 3, 1).
Proof. vm_compute. repeat split. Qed.

(** ** Arrays in the store *)

Section Store.
Import ArrayStore.
Context (host : JSDate.Host) (minTemp maxTemp : Q).
Implicit Types (σ : gmap positive (list WeatherData)) (l : list WeatherData).

Lemma fresh_lookup σ : σ !! fresh (dom σ) = None.
Proof. apply not_elem_of_dom, is_fresh. Qed.

Lemma arraysKept_insert_fresh σ l : Spec.arraysKept σ (<[fresh (dom σ) := l]> σ).
Proof.
  intros a x Ha. rewrite lookup_insert_ne; [done|].
  intros <-. by rewrite fresh_lookup in Ha.
Qed.

Lemma spread_run σ a l :
  σ !! a = Some l ->
  spread a σ = Some (fresh (dom σ), <[fresh (dom σ) := l]> σ).
Proof. intros Ha. unfold spread, bind, contents, allocate. by rewrite Ha. Qed.

Lemma filterArray_run σ a l p :
  σ !! a = Some l ->
  filterArray p a σ =
  Some (fresh (dom σ), <[fresh (dom σ) := filter (fun e => p e = true) l]> σ).
Proof. intros Ha. unfold filterArray, bind, contents, allocate. by rewrite Ha. Qed.

(** The sort works on the copy: the array passed in stays as it is. *)
Lemma sortDataChronologically_run σ data l :
  σ !! data = Some l ->
  sortDataChronologically data σ =
  Some (fresh (dom σ),
        <[fresh (dom σ) := ChillHourCalculator.sortDataChronologically l]> σ).
Proof.
  intros Ha. unfold sortDataChronologically, bind.
  rewrite (spread_run σ data l Ha). unfold sortInPlace.
  rewrite lookup_insert_eq, insert_insert_eq. reflexivity.
Qed.

Lemma calculateChillHours_run σ data l :
  σ !! data = Some l ->
  exists σ',
    calculateChillHours host minTemp maxTemp data σ =
      Some (ChillHourCalculator.calculateChillHours host minTemp maxTemp l, σ') /\
    Spec.arraysKept σ σ'.
Proof.
  intros Ha. eexists. split; [|apply (arraysKept_insert_fresh σ)].
  unfold calculateChillHours, bind.
  rewrite (sortDataChronologically_run σ data l Ha).
  unfold contents at 1. rewrite lookup_insert_eq.
  unfold ChillHourCalculator.calculateChillHours.
  destruct (length _ =? 0)%nat; [reflexivity|].
  destruct (ChillHourCalculator.countChillHours _) as [n c]. reflexivity.
Qed.

Lemma calculateSeasonChillHours_run σ allData l seasonStartMonth year :
  σ !! allData = Some l ->
  exists σ',
    calculateSeasonChillHours host minTemp maxTemp allData seasonStartMonth year σ =
      Some (ChillHourCalculator.calculateSeasonChillHours host minTemp maxTemp l
              seasonStartMonth year, σ') /\
    Spec.arraysKept σ σ'.
Proof.
  intros Ha.
  unfold calculateSeasonChillHours, ChillHourCalculator.calculateSeasonChillHours.
  destruct (ChillHourCalculator.determineSeasonDates _ _ _) as [s e].
  unfold bind, filterDataForSeason.
  rewrite (filterArray_run σ allData l _ Ha).
  unfold contents at 1. rewrite lookup_insert_eq.
  fold (ChillHourCalculator.filterDataForSeason l s e).
  set (seasonData := ChillHourCalculator.filterDataForSeason l s e).
  destruct (length seasonData =? 0)%nat.
  - eexists. split; [reflexivity|apply arraysKept_insert_fresh].
  - destruct (calculateChillHours_run (<[fresh (dom σ) := seasonData]> σ)
                (fresh (dom σ)) seasonData) as (σ' & Hrun & Hkept);
      [apply lookup_insert_eq|].
    exists σ'. split; [done|].
    intros a x Hx. by apply Hkept, arraysKept_insert_fresh.
Qed.
End Store.

(** C10.  [calculateChillHours] and [calculateSeasonChillHours] leave the
    array they are given as it was: they end, with the report of the
    aggregator on the elements of the array, in a store where every array
    that was there, the input among them, has the same elements in the
    same order. *)
Theorem aggregator_keeps_input
    (host : JSDate.Host) (minTemp maxTemp : Q)
    (σ : gmap positive (list WeatherData)) (data : positive)
    (elements : list WeatherData) (seasonStartMonth : Z) (year : option Z) :
  σ !! data = Some elements ->
  (exists σ',
     ArrayStore.calculateChillHours host minTemp maxTemp data σ =
       Some (ChillHourCalculator.calculateChillHours host minTemp maxTemp elements, σ') /\
     σ' !! data = Some elements /\ Spec.arraysKept σ σ') /\
  (exists σ',
     ArrayStore.calculateSeasonChillHours host minTemp maxTemp data
       seasonStartMonth year σ =
       Some (ChillHourCalculator.calculateSeasonChillHours host minTemp maxTemp
               elements seasonStartMonth year, σ') /\
     σ' !! data = Some elements /\ Spec.arraysKept σ σ').
Proof.
  intros Ha. split.
  - destruct (calculateChillHours_run host minTemp maxTemp σ data elements Ha)
      as (σ' & Hrun & Hkept).
    exists σ'. repeat split; [done|by apply Hkept|done].
  - destruct (calculateSeasonChillHours_run host minTemp maxTemp σ data elements
                seasonStartMonth year Ha) as (σ' & Hrun & Hkept).
    exists σ'. repeat split; [done|by apply Hkept|done].
Qed.

Lemma aggregator_keeps_input_witness :
  exists σ',
    ArrayStore.calculateChillHours Fixtures.utcHost 32 45 1%positive
      {[ 1%positive := Fixtures.twoHoursShuffled ]} =
    Some (ChillHourCalculator.calculateChillHours Fixtures.utcHost 32 45
            Fixtures.twoHoursShuffled, σ') /\
    σ' !! 1%positive = Some Fixtures.twoHoursShuffled.
Proof.
  destruct (aggregator_keeps_input Fixtures.utcHost 32 45
              {[ 1%positive := Fixtures.twoHoursShuffled ]} 1%positive
              Fixtures.twoHoursShuffled 9 (Some 2023)) as [(σ' & H1 & H2 & _) _].
  - vm_compute. reflexivity.
  - exists σ'. split; [exact H1|exact H2].
Defined.

(** ** Requests and retries *)

Section Requests.
Import AmbientWeatherAPI.
Context (server : Server) (rateLimitDelay : Z).

Lemma isRetryableError_spec error :
  isRetryableError error = true <-> Spec.retryable (Rejected error).
Proof.
  unfold isRetryableError, Spec.retryable,
    HTTP_RATE_LIMIT_STATUS, HTTP_SERVER_ERROR_MIN, HTTP_SERVER_ERROR_MAX.
  destruct error as [[st|]]; simpl.
  - rewrite orb_true_iff, andb_true_iff, Z.eqb_eq, !Z.leb_le. split.
    + intros H. exists st. split; [done|lia].
    + intros (st' & [= <-] & H). lia.
  - split; [done|]. by intros (st' & [=] & _).
Qed.

Lemma not_retryable_Resolved data : ~ Spec.retryable (Resolved data).
Proof. by intros (st & [=] & _). Qed.

Lemma requests_app tr1 tr2 : requests (tr1 ++ tr2) = (requests tr1 + requests tr2)%nat.
Proof. unfold requests. by rewrite filter_app, length_app. Qed.

Lemma requests_Get req tr : requests (Get req :: tr) = S (requests tr).
Proof. unfold requests. by rewrite filter_cons_True. Qed.

Lemma requests_Sleep ms tr : requests (Sleep ms :: tr) = requests tr.
Proof. unfold requests. by rewrite filter_cons_False. Qed.

Lemma requests_retriesFrom req first n :
  requests (Spec.retriesFrom req rateLimitDelay first n) = S n.
Proof.
  unfold Spec.retriesFrom. rewrite requests_Get. f_equal.
  revert first. induction n as [|n IH]; intros first; [done|].
  cbn [seq flat_map app]. by rewrite requests_Sleep, requests_Get, IH.
Qed.

Lemma sleeps_app tr1 tr2 : sleeps (tr1 ++ tr2) = sleeps tr1 ++ sleeps tr2.
Proof. unfold sleeps. apply omap_app. Qed.

Lemma sleeps_retriesFrom req first n :
  sleeps (Spec.retriesFrom req rateLimitDelay first n) =
  Spec.backoff rateLimitDelay <$> seq first n.
Proof.
  unfold Spec.retriesFrom, sleeps. simpl.
  revert first. induction n as [|n IH]; intros first; simpl; [done|].
  by rewrite IH.
Qed.

(** The loop of [makeRequest], from [retries] on: when the next [n]
    answers are retryable and the one after them is not, or the retries
    are used up with it, that answer is what the caller gets. *)
Lemma makeRequestLoop_run req maxRetries n : forall fuel retries tr,
  (n < fuel)%nat -> (retries + n <= maxRetries)%nat ->
  (forall i, (i < n)%nat -> Spec.retryable (server (requests tr + i)%nat req)) ->
  ((retries + n < maxRetries)%nat ->
   ~ Spec.retryable (server (requests tr + n)%nat req)) ->
  makeRequestLoop server rateLimitDelay fuel req maxRetries retries tr =
  Some (Spec.resultOf (server (requests tr + n)%nat req),
        tr ++ Spec.retriesFrom req rateLimitDelay (S retries) n).
Proof.
  induction n as [|n IH]; intros fuel retries tr Hfuel Hmax Hretry Hlast;
    (destruct fuel as [|fuel]; [lia|]); simpl.
  - rewrite Nat.add_0_r. unfold Spec.retriesFrom; simpl.
    destruct (server (requests tr) req) as [data|error] eqn:E; [done|].
    destruct (isRetryableError error) eqn:Er; [|done].
    apply isRetryableError_spec in Er.
    destruct (Nat.leb_spec maxRetries retries) as [_|Hlt]; [done|].
    exfalso. apply Hlast; [lia|]. by rewrite Nat.add_0_r, E.
  - pose proof (Hretry 0%nat ltac:(lia)) as H0. rewrite Nat.add_0_r in H0.
    destruct (server (requests tr) req) as [data|error] eqn:E;
      [by apply not_retryable_Resolved in H0|].
    apply isRetryableError_spec in H0. rewrite H0.
    destruct (Nat.leb_spec maxRetries retries) as [Hle|_]; [lia|].
    unfold sleep, calculateBackoffDelay.
    assert (Hreq : requests ((tr ++ [Get req]) ++
              [Sleep (rateLimitDelay * 2 ^ (Z.of_nat (S retries) - 1))])
            = S (requests tr)).
    { rewrite !requests_app, requests_Get, requests_Sleep.
      change (requests []) with 0%nat. lia. }
    rewrite (IH fuel (S retries)); [|lia|lia|..].
    + rewrite Hreq. replace (S (requests tr) + n)%nat with (requests tr + S n)%nat by lia.
      f_equal. f_equal. rewrite <- !app_assoc. reflexivity.
    + intros i Hi. rewrite Hreq.
      replace (S (requests tr) + i)%nat with (requests tr + S i)%nat by lia.
      apply Hretry. lia.
    + intros Hlt. rewrite Hreq.
      replace (S (requests tr) + n)%nat with (requests tr + S n)%nat by lia.
      apply Hlast. lia.
Qed.

(** Whatever the service answers, a request ends after its first attempt
    and at most [maxRetries] retries. *)
Lemma makeRequestLoop_total req maxRetries : forall fuel retries tr,
  (maxRetries - retries < fuel)%nat ->
  exists n r,
    (retries + n <= Nat.max maxRetries retries)%nat /\
    makeRequestLoop server rateLimitDelay fuel req maxRetries retries tr =
    Some (r, tr ++ Spec.retriesFrom req rateLimitDelay (S retries) n) /\
    (forall e, r = Throw e -> exists i, server i req = Rejected e).
Proof.
  induction fuel as [|fuel IH]; intros retries tr Hfuel; [lia|]. simpl.
  destruct (server (requests tr) req) as [data|error] eqn:E.
  { exists 0%nat, (Ok data). split; [lia|]. split; [done|]. by intros e [=]. }
  destruct (isRetryableError error).
  - destruct (Nat.leb_spec maxRetries retries) as [Hle|Hlt].
    { exists 0%nat, (Throw error). split; [lia|]. split; [done|].
      intros e [= <-]. eauto. }
    destruct (IH (S retries)
                (sleep (calculateBackoffDelay rateLimitDelay (S retries))
                       (tr ++ [Get req]))) as (n & r & Hn & Hrun & Hthrow); [lia|].
    exists (S n), r. split; [lia|]. split; [|done].
    rewrite Hrun. unfold sleep, calculateBackoffDelay.
    f_equal. f_equal. rewrite <- !app_assoc. reflexivity.
  - exists 0%nat, (Throw error). split; [lia|]. split; [done|].
    intros e [= <-]. eauto.
Qed.

Lemma retryable_dec (o : Outcome) : {Spec.retryable o} + {~ Spec.retryable o}.
Proof.
  destruct o as [data|error]; [right; apply not_retryable_Resolved|].
  destruct (isRetryableError error) eqn:E.
  - left. by apply isRetryableError_spec.
  - right. intros H. apply isRetryableError_spec in H. congruence.
Qed.

(** How many retries a request goes through is fixed by the answers. *)
Lemma retries_exist (answer : nat -> Outcome) (maxRetries : nat) :
  exists n,
    (n <= maxRetries)%nat /\
    (forall i, (i < n)%nat -> Spec.retryable (answer i)) /\
    ((n < maxRetries)%nat -> ~ Spec.retryable (answer n)).
Proof.
  induction maxRetries as [|maxRetries (n & Hn & Hretry & Hlast)].
  - exists 0%nat. split; [lia|]. split; intros; lia.
  - destruct (decide (n < maxRetries)%nat) as [Hlt|Hge].
    { exists n. split; [lia|]. split; [done|]. intros _. by apply Hlast. }
    assert (n = maxRetries) as -> by lia.
    destruct (retryable_dec (answer maxRetries)) as [Hr|Hr].
    + exists (S maxRetries). split; [lia|]. split; [|lia].
      intros i Hi. destruct (decide (i = maxRetries)) as [->|Hne]; [done|].
      apply Hretry. lia.
    + exists maxRetries. split; [lia|]. split; [done|]. done.
Qed.

Lemma retries_unique (answer : nat -> Outcome) (maxRetries n n' : nat) :
  (n <= maxRetries)%nat ->
  (forall i, (i < n)%nat -> Spec.retryable (answer i)) ->
  ((n < maxRetries)%nat -> ~ Spec.retryable (answer n)) ->
  (n' <= maxRetries)%nat ->
  (forall i, (i < n')%nat -> Spec.retryable (answer i)) ->
  ((n' < maxRetries)%nat -> ~ Spec.retryable (answer n')) ->
  n = n'.
Proof.
  intros Hn Hretry Hlast Hn' Hretry' Hlast'.
  destruct (lt_eq_lt_dec n n') as [[Hlt| ->]|Hgt]; [|done|].
  - exfalso. apply Hlast; [lia|]. by apply Hretry'.
  - exfalso. apply Hlast'; [lia|]. by apply Hretry.
Qed.
End Requests.


(** C5.  A page request whose first [n] answers are rejections with status
    429 or 5xx and whose next answer is not, or comes when the [maxRetries]
    retries are used up, ends with that answer: it makes [n] retries, waits
    [rateLimitDelay * 2^(k-1)] before retry [k], and makes no other request
    and no other wait.  In particular an answer that is not a 429 or 5xx
    rejection ends the request at once, and a rejection is thrown after
    [maxRetries] retries; [getDeviceData] asks for 3 retries at most. *)
Theorem makeRequest_retries
    (server : AmbientWeatherAPI.Server) (rateLimitDelay : Z)
    (url : string) (params : AmbientWeatherAPI.Params) (maxRetries : nat)
    (tr : list AmbientWeatherAPI.Event) (n : nat) :
  let req := {| AmbientWeatherAPI.url := url; AmbientWeatherAPI.params := params |} in
  let answer i := server (AmbientWeatherAPI.requests tr + i)%nat req in
  (n <= maxRetries)%nat ->
  (forall i, (i < n)%nat -> Spec.retryable (answer i)) ->
  ((n < maxRetries)%nat -> ~ Spec.retryable (answer n)) ->
  exists tr',
    AmbientWeatherAPI.makeRequest server rateLimitDelay url params maxRetries tr
      = Some (Spec.resultOf (answer n), tr') /\
    tr' = tr ++ Spec.attempts req rateLimitDelay n /\
    AmbientWeatherAPI.requests tr' = (AmbientWeatherAPI.requests tr + 1 + n)%nat /\
    AmbientWeatherAPI.sleeps tr' =
      AmbientWeatherAPI.sleeps tr ++
      ((fun k => rateLimitDelay * 2 ^ (Z.of_nat k - 1)) <$> seq 1 n) /\
    (forall macAddress endDate limit,
       AmbientWeatherAPI.getDeviceData server rateLimitDelay macAddress endDate limit =
       AmbientWeatherAPI.makeRequest server rateLimitDelay
         (AmbientWeatherAPI.baseUrl +:+ "/devices/" +:+ macAddress)%string
         (AmbientWeatherAPI.createRequestParams endDate (Some limit)) 3).
Proof.
  intros req answer Hn Hretry Hlast. eexists. split; [|split; [reflexivity|]].
  - unfold AmbientWeatherAPI.makeRequest.
    apply makeRequestLoop_run; [lia|lia|done|]. intros H. apply Hlast. lia.
  - unfold Spec.attempts.
    rewrite requests_app, requests_retriesFrom, sleeps_app, sleeps_retriesFrom.
    split; [lia|]. split; [reflexivity|]. reflexivity.
Qed.

Lemma makeRequest_retries_witness :
  (exists tr',
     AmbientWeatherAPI.makeRequest Fixtures.twiceBusy 1000
       (AmbientWeatherAPI.url Fixtures.someRequest)
       (AmbientWeatherAPI.params Fixtures.someRequest) 3 []
     = Some (AmbientWeatherAPI.Ok [Fixtures.reading 1000 40], tr') /\
     AmbientWeatherAPI.sleeps tr' = [1000; 2000]) /\
  (exists tr',
     AmbientWeatherAPI.makeRequest Fixtures.unauthorized 1000
       (AmbientWeatherAPI.url Fixtures.someRequest)
       (AmbientWeatherAPI.params Fixtures.someRequest) 3 []
     = Some (AmbientWeatherAPI.Throw {| AmbientWeatherAPI.status := Some 401 |}, tr') /\
     AmbientWeatherAPI.requests tr' = 1%nat /\
     AmbientWeatherAPI.sleeps tr' = []).
Proof.
  split.
  - destruct (makeRequest_retries Fixtures.twiceBusy 1000
                (AmbientWeatherAPI.url Fixtures.someRequest)
                (AmbientWeatherAPI.params Fixtures.someRequest) 3 [] 2)
      as (tr' & Hrun & _ & _ & Hsleeps & _).
    + lia.
    + intros [|[|i]] Hi; [exists 429|exists 503|lia]; simpl; split; (reflexivity || lia).
    + intros _ (st & [=] & _).
    + exists tr'. split; [exact Hrun|exact Hsleeps].
  - destruct (makeRequest_retries Fixtures.unauthorized 1000
                (AmbientWeatherAPI.url Fixtures.someRequest)
                (AmbientWeatherAPI.params Fixtures.someRequest) 3 [] 0)
      as (tr' & Hrun & _ & Hreq & Hsleeps & _).
    + lia.
    + intros i Hi. lia.
    + intros _ (st & [= <-] & H). lia.
    + exists tr'. split; [exact Hrun|]. split; [exact Hreq|exact Hsleeps].
Defined.

(** ** The fetch loop *)

Section FetchLoop.
Import AmbientWeatherAPI.
Context (host : JSDate.Host) (server : Server) (rateLimitDelay : Z).

Local Abbreviation getDeviceData := (getDeviceData server rateLimitDelay).
Local Abbreviation fetchLoop := (fetchLoop host server rateLimitDelay).
Local Abbreviation pageEvents := (Spec.pageEvents rateLimitDelay).

Lemma getDeviceData_total macAddress cursor tr :
  exists n r,
    (n <= 3)%nat /\
    getDeviceData macAddress (Some cursor) DEFAULT_READINGS_PER_CHUNK tr =
    Some (r, tr ++ Spec.attempts (Spec.pageRequestAt macAddress cursor)
                     rateLimitDelay n) /\
    (forall e, r = Throw e -> exists i req, server i req = Rejected e).
Proof.
  unfold AmbientWeatherAPI.getDeviceData, makeRequest.
  destruct (makeRequestLoop_total server rateLimitDelay
              {| url := (baseUrl +:+ "/devices/" +:+ macAddress)%string;
                 params := createRequestParams (Some cursor)
                             (Some DEFAULT_READINGS_PER_CHUNK) |}
              DEFAULT_MAX_RETRIES (S DEFAULT_MAX_RETRIES) 0%nat tr)
    as (n & r & Hn & Hrun & Hthrow); [lia|].
  exists n, r. split; [unfold DEFAULT_MAX_RETRIES in Hn; lia|]. split; [exact Hrun|].
  intros e He. destruct (Hthrow e He) as [i Hi]. eauto.
Qed.

(** A page request ends, and brings what the answers of the service make
    of it. *)
Lemma getDeviceData_pageAnswer macAddress cursor tr :
  exists r tr1,
    getDeviceData macAddress (Some cursor) DEFAULT_READINGS_PER_CHUNK tr
      = Some (r, tr1) /\
    Spec.pageAnswer server rateLimitDelay macAddress cursor tr r tr1.
Proof.
  set (req := Spec.pageRequestAt macAddress cursor).
  destruct (retries_exist (fun i => server (requests tr + i)%nat req) 3)
    as (n & Hn & Hretry & Hlast).
  exists (Spec.resultOf (server (requests tr + n)%nat req)),
         (tr ++ Spec.attempts req rateLimitDelay n).
  split; [|by exists n].
  unfold AmbientWeatherAPI.getDeviceData, makeRequest.
  apply (makeRequestLoop_run server rateLimitDelay req 3 n 4 0 tr); [lia|lia|done|].
  intros Hlt. apply Hlast. lia.
Qed.

Lemma pageAnswer_deterministic macAddress cursor tr r1 tr1 r2 tr2 :
  Spec.pageAnswer server rateLimitDelay macAddress cursor tr r1 tr1 ->
  Spec.pageAnswer server rateLimitDelay macAddress cursor tr r2 tr2 ->
  r1 = r2 /\ tr1 = tr2.
Proof.
  intros (n & Hn & Hretry & Hlast & -> & ->) (n' & Hn' & Hretry' & Hlast' & -> & ->).
  by rewrite (retries_unique _ 3 n n' Hn Hretry Hlast Hn' Hretry' Hlast').
Qed.

Lemma earliestOf_unique chunk m m' :
  Spec.earliestOf chunk m -> Spec.earliestOf chunk m' -> m = m'.
Proof.
  intros [Hin Hle] [Hin' Hle'].
  apply list_elem_of_fmap in Hin as (e & -> & He).
  apply list_elem_of_fmap in Hin' as (e' & -> & He').
  eapply Forall_forall in Hle; [|exact He']. eapply Forall_forall in Hle'; [|exact He].
  simpl in *. lia.
Qed.

Lemma earliestOf_nil m : ~ Spec.earliestOf [] m.
Proof. intros [Hin _]. by apply elem_of_nil in Hin. Qed.

Lemma mathMin_spec t ts :
  JS.mathMin t ts ∈ t :: ts /\ Forall (fun x => JS.mathMin t ts <= x) (t :: ts).
Proof.
  unfold JS.mathMin. induction ts as [|x ts [IHin IHle]]; simpl.
  - split; [by left|]. repeat constructor. lia.
  - split.
    + rewrite !elem_of_cons in *.
      destruct (Z.min_spec x (foldr Z.min t ts)) as [[_ ->]|[_ ->]]; tauto.
    + inversion IHle as [|? ? Ht Hts]; subst.
      constructor; [lia|]. constructor; [lia|].
      eapply Forall_impl; [exact Hts|]. simpl. intros; lia.
Qed.

Lemma earliestOf_mathMin first rest :
  Spec.earliestOf (first :: rest) (JS.mathMin (dateutc first) (dateutc <$> rest)).
Proof.
  destruct (mathMin_spec (dateutc first) (dateutc <$> rest)) as [Hin Hle].
  split; [exact Hin|].
  change (dateutc first :: (dateutc <$> rest)) with (dateutc <$> first :: rest) in Hle.
  by rewrite Forall_fmap in Hle.
Qed.

Lemma processChunk_nonempty first rest startDate acc :
  processChunk host (first :: rest) startDate acc =
  let earliest := JS.mathMin (dateutc first) (dateutc <$> rest) in
  if earliest <=? startDate then (false, JSDate.now host, acc ++ first :: rest)
  else (true, earliest - 1000, acc ++ first :: rest).
Proof. reflexivity. Qed.

(** One turn of the loop, for a page request that brought [chunk]. *)
Lemma fetchLoop_step fuel macAddress startDate st tr chunk tr1 :
  reachedStartDate st = false ->
  (fetchCount st < MAX_FETCH_OPERATIONS)%nat ->
  getDeviceData macAddress (Some (currentEnd st)) DEFAULT_READINGS_PER_CHUNK tr
    = Some (Ok chunk, tr1) ->
  fetchLoop (S fuel) macAddress startDate st tr =
  match chunk with
  | [] =>
      Some (Ok {| currentEnd := currentEnd st; allData := allData st;
                  reachedStartDate := false; fetchCount := S (fetchCount st) |}, tr1)
  | first :: rest =>
      let earliest := JS.mathMin (dateutc first) (dateutc <$> rest) in
      if earliest <=? startDate then
        Some (Ok {| currentEnd := currentEnd st; allData := allData st ++ chunk;
                    reachedStartDate := true; fetchCount := S (fetchCount st) |}, tr1)
      else
        fetchLoop fuel macAddress startDate
          {| currentEnd := earliest - 1000; allData := allData st ++ chunk;
             reachedStartDate := false; fetchCount := S (fetchCount st) |}
          (tr1 ++ [Sleep rateLimitDelay])
  end.
Proof.
  intros Hreached Hcount Hget. cbn [AmbientWeatherAPI.fetchLoop].
  rewrite Hreached. apply Nat.ltb_lt in Hcount. rewrite Hcount. cbn [negb andb].
  rewrite Hget. destruct chunk as [|first rest]; [done|].
  cbn [length Nat.eqb]. rewrite processChunk_nonempty. cbv zeta.
  destruct (JS.mathMin (dateutc first) (dateutc <$> rest) <=? startDate); [|done].
  cbn [negb]. by destruct fuel.
Qed.

Lemma fetchLoop_exit fuel macAddress startDate st tr :
  negb (reachedStartDate st) && (fetchCount st <? MAX_FETCH_OPERATIONS)%nat = false ->
  fetchLoop fuel macAddress startDate st tr = Some (Ok st, tr).
Proof. intros H. destruct fuel; cbn [AmbientWeatherAPI.fetchLoop]; by rewrite H. Qed.

(** The loop ends whatever the service answers, with at most
    [MAX_FETCH_OPERATIONS] page requests on the whole. *)
Lemma fetchLoop_total macAddress startDate : forall fuel st tr,
  (MAX_FETCH_OPERATIONS - fetchCount st <= fuel)%nat ->
  exists r pages,
    fetchLoop fuel macAddress startDate st tr =
      Some (r, tr ++ flat_map pageEvents pages) /\
    (fetchCount st + length pages <= Nat.max MAX_FETCH_OPERATIONS (fetchCount st))%nat /\
    (reachedStartDate st = false -> (fetchCount st < MAX_FETCH_OPERATIONS)%nat ->
     (1 <= length pages)%nat) /\
    Forall (fun p => (Spec.pageRetries p <= 3)%nat) pages /\
    (forall e, r = Throw e -> exists i req, server i req = Rejected e) /\
    (forall st', r = Ok st' ->
       fetchCount st' = (fetchCount st + length pages)%nat /\
       allData st' = allData st ++ concat (Spec.pageData <$> pages)).
Proof.
  induction fuel as [|fuel IH]; intros st tr Hfuel;
    destruct (negb (reachedStartDate st) && (fetchCount st <? MAX_FETCH_OPERATIONS)%nat)
      eqn:Hguard.
  2, 4: (exists (Ok st), []; rewrite fetchLoop_exit by done; simpl;
         rewrite !app_nil_r; apply andb_false_iff in Hguard;
         split; [done|]; split; [lia|]; split;
         [intros Hr Hlt%Nat.ltb_lt; rewrite Hr in Hguard; simpl in Hguard;
          destruct Hguard; congruence|];
         split; [constructor|]; split; [by intros e [=]|];
         intros st' [= <-]; split; [lia|done]).
  - apply andb_true_iff in Hguard as [_ Hlt%Nat.ltb_lt]. lia.
  - apply andb_true_iff in Hguard as [Hreached%negb_true_iff Hlt%Nat.ltb_lt].
    destruct (getDeviceData_total macAddress (currentEnd st) tr)
      as (n & r1 & Hn & Hget & Hthrow).
    set (page := fun data wait =>
           {| Spec.pageRequest := Spec.pageRequestAt macAddress (currentEnd st);
              Spec.pageRetries := n; Spec.pageData := data;
              Spec.pageWait := wait |}).
    destruct r1 as [chunk|e].
    + rewrite (fetchLoop_step fuel macAddress startDate st tr chunk _ Hreached Hlt Hget).
      destruct chunk as [|first rest];
        [|cbv zeta;
          destruct (JS.mathMin (dateutc first) (dateutc <$> rest) <=? startDate)].
      * eexists _, [page [] false].
        simpl. unfold Spec.pageEvents; simpl. rewrite !app_nil_r.
        split; [done|]. split; [lia|]. split; [lia|].
        split; [constructor; [simpl; lia|constructor]|]. split; [by intros e [=]|].
        intros st' [= <-]. simpl. split; [lia|done].
      * eexists _, [page (first :: rest) false].
        simpl. unfold Spec.pageEvents; simpl. rewrite !app_nil_r.
        split; [done|]. split; [lia|]. split; [lia|].
        split; [constructor; [simpl; lia|constructor]|]. split; [by intros e [=]|].
        intros st' [= <-]. simpl. split; [lia|done].
      * edestruct (IH {| currentEnd := JS.mathMin (dateutc first) (dateutc <$> rest) - 1000;
                         allData := allData st ++ first :: rest;
                         reachedStartDate := false;
                         fetchCount := S (fetchCount st) |}
                      ((tr ++ Spec.attempts (Spec.pageRequestAt macAddress (currentEnd st))
                                rateLimitDelay n) ++ [Sleep rateLimitDelay]))
          as (r & pages & Hrun & Hlen & _ & Hretries & Hthrow' & Hok);
          [cbn [fetchCount]; lia|].
        exists r, (page (first :: rest) true :: pages).
        cbn [fetchCount allData length flat_map fmap list_fmap concat Spec.pageData page] in *.
        rewrite Hrun. unfold Spec.pageEvents at 2; cbn [Spec.pageRequest Spec.pageRetries Spec.pageWait page].
        rewrite <- !app_assoc.
        split; [done|]. split; [lia|]. split; [lia|].
        split; [by constructor|]. split; [done|].
        intros st'' Hst'. destruct (Hok st'' Hst') as [-> ->].
        split; [lia|]. by rewrite <- app_assoc.
    + exists (Throw e), [page [] false].
      cbn [AmbientWeatherAPI.fetchLoop]. rewrite Hreached.
      apply Nat.ltb_lt in Hlt. rewrite Hlt. cbn [negb andb]. rewrite Hget.
      apply Nat.ltb_lt in Hlt.
      simpl. unfold Spec.pageEvents; simpl. rewrite !app_nil_r.
      split; [done|]. split; [lia|]. split; [lia|].
      split; [constructor; [simpl; lia|constructor]|].
      split; [intros e' [= <-]; by apply Hthrow|]. by intros st' [=].
Qed.

(** The loop runs as the description of the fetch in chunks has it. *)
Lemma fetchLoop_chunked macAddress startDate : forall fuel st tr,
  reachedStartDate st = false ->
  (fetchCount st <= MAX_FETCH_OPERATIONS)%nat ->
  (MAX_FETCH_OPERATIONS - fetchCount st <= fuel)%nat ->
  exists r tr' cursors,
    fetchLoop fuel macAddress startDate st tr = Some (r, tr') /\
    Spec.chunkedFetch server rateLimitDelay macAddress startDate
      (MAX_FETCH_OPERATIONS - fetchCount st) (currentEnd st) (allData st) tr
      cursors
      match r with Ok st' => Ok (allData st') | Throw e => Throw e end
      tr' /\
    (length cursors <= MAX_FETCH_OPERATIONS - fetchCount st)%nat /\
    ((fetchCount st < MAX_FETCH_OPERATIONS)%nat -> (1 <= length cursors)%nat).
Proof.
  induction fuel as [|fuel IH]; intros st tr Hreached Hcount Hfuel.
  - assert (Hleft : (MAX_FETCH_OPERATIONS - fetchCount st = 0)%nat) by lia. rewrite Hleft.
    exists (Ok st), tr, []. split.
    + apply fetchLoop_exit. rewrite Hreached. cbn [negb andb].
      apply Nat.ltb_ge. lia.
    + split; [constructor|]. split; [cbn [length]; lia|]. lia.
  - destruct (decide (fetchCount st < MAX_FETCH_OPERATIONS)%nat) as [Hlt|Hge].
    2: { assert (Hleft : (MAX_FETCH_OPERATIONS - fetchCount st = 0)%nat) by lia. rewrite Hleft.
         exists (Ok st), tr, []. split.
         + apply fetchLoop_exit. rewrite Hreached. cbn [negb andb].
           apply Nat.ltb_ge. lia.
         + split; [constructor|]. split; [cbn [length]; lia|]. lia. }
    assert (Hleft : (MAX_FETCH_OPERATIONS - fetchCount st = S (MAX_FETCH_OPERATIONS - S (fetchCount st)))%nat) by lia.
    rewrite Hleft.
    destruct (getDeviceData_pageAnswer macAddress (currentEnd st) tr)
      as (r1 & tr1 & Hget & Hans).
    destruct r1 as [chunk|e].
    + rewrite (fetchLoop_step fuel macAddress startDate st tr chunk tr1 Hreached
                 ltac:(lia) Hget).
      destruct chunk as [|first rest].
      * eexists _, _, [currentEnd st]. split; [reflexivity|].
        split; [by apply Spec.fetch_exhausted|]. cbn [length]. lia.
      * cbv zeta. pose proof (earliestOf_mathMin first rest) as Hmin.
        destruct (Z.leb_spec (JS.mathMin (dateutc first) (dateutc <$> rest)) startDate)
          as [Hle|Hgt].
        -- eexists _, _, [currentEnd st]. split; [reflexivity|].
           split; [by eapply Spec.fetch_covered|]. cbn [length]. lia.
        -- edestruct (IH {| currentEnd :=
                              JS.mathMin (dateutc first) (dateutc <$> rest) - 1000;
                            allData := allData st ++ first :: rest;
                            reachedStartDate := false;
                            fetchCount := S (fetchCount st) |}
                         (tr1 ++ [Sleep rateLimitDelay]))
             as (r & tr' & cursors & Hrun & Hfetch & Hlen & _);
             [done|cbn [fetchCount]; lia|cbn [fetchCount]; lia|].
           cbn [fetchCount currentEnd allData] in Hfetch, Hlen.
           exists r, tr', (currentEnd st :: cursors). split; [exact Hrun|].
           split; [by eapply Spec.fetch_more|]. cbn [length]. lia.
    + exists (Throw e), tr1, [currentEnd st]. split.
      * cbn [AmbientWeatherAPI.fetchLoop]. rewrite Hreached.
        apply Nat.ltb_lt in Hlt. rewrite Hlt. cbn [negb andb]. by rewrite Hget.
      * split; [by apply Spec.fetch_failed|]. cbn [length]. lia.
Qed.

(** The description fixes the outcome: one list of pages, one result and
    one trace fit it. *)
Lemma chunkedFetch_deterministic macAddress startDate left cursor acc tr
    cursors1 r1 tr1 cursors2 r2 tr2 :
  Spec.chunkedFetch server rateLimitDelay macAddress startDate
    left cursor acc tr cursors1 r1 tr1 ->
  Spec.chunkedFetch server rateLimitDelay macAddress startDate
    left cursor acc tr cursors2 r2 tr2 ->
  cursors1 = cursors2 /\ r1 = r2 /\ tr1 = tr2.
Proof.
  intros H1. revert cursors2 r2 tr2.
  induction H1 as [cursor acc tr
                  |left cursor acc tr e tr1 Hans
                  |left cursor acc tr tr1 Hans
                  |left cursor acc tr chunk m tr1 Hans Hmin Hle
                  |left cursor acc tr chunk m tr1 cursors r tr' Hans Hmin Hgt Hrest IH];
    intros cursors2 r2 tr2 H2; inversion H2; subst; try done;
    match goal with
    | Hans' : Spec.pageAnswer _ _ _ _ _ _ _ |- _ =>
        destruct (pageAnswer_deterministic _ _ _ _ _ _ _ Hans Hans') as [Hr Htr]
    end;
    simplify_eq; try done;
    try (exfalso; eapply earliestOf_nil; eassumption);
    match goal with
    | Hmin' : Spec.earliestOf _ ?m' |- _ =>
        pose proof (earliestOf_unique _ _ _ Hmin Hmin') as Hm; subst m'
    end;
    try done; try lia.
  match goal with
  | Hrest' : Spec.chunkedFetch _ _ _ _ _ _ _ _ _ _ _ |- _ =>
      by destruct (IH _ _ _ Hrest') as (-> & -> & ->)
  end.
Qed.
End FetchLoop.

Section RangeFetch.
Import AmbientWeatherAPI.
Context (host : JSDate.Host) (server : Server) (rateLimitDelay : Z).

Lemma requests_attempts req n :
  requests (Spec.attempts req rateLimitDelay n) = S n.
Proof. apply requests_retriesFrom. Qed.

Lemma requests_pages pages :
  (length pages <= requests (flat_map (Spec.pageEvents rateLimitDelay) pages))%nat.
Proof.
  induction pages as [|p pages IH]; [simpl; lia|].
  cbn [flat_map length]. unfold Spec.pageEvents at 1.
  rewrite !requests_app, requests_attempts. lia.
Qed.

Lemma fetchDataInChunks_total macAddress startDate endDate tr :
  exists r pages,
    fetchDataInChunks host server rateLimitDelay macAddress startDate endDate tr =
      Some (r, tr ++ flat_map (Spec.pageEvents rateLimitDelay) pages) /\
    (1 <= length pages <= MAX_FETCH_OPERATIONS)%nat /\
    Forall (fun p => (Spec.pageRetries p <= 3)%nat) pages /\
    (forall e, r = Throw e -> exists i req, server i req = Rejected e) /\
    (forall data, r = Ok data -> data = concat (Spec.pageData <$> pages)).
Proof.
  unfold fetchDataInChunks.
  destruct (fetchLoop_total host server rateLimitDelay macAddress startDate
              MAX_FETCH_OPERATIONS
              {| currentEnd := endDate; allData := []; reachedStartDate := false;
                 fetchCount := 0 |} tr)
    as (r & pages & Hrun & Hlen & Hfirst & Hretries & Hthrow & Hok);
    [cbn [fetchCount]; lia|].
  cbn [fetchCount reachedStartDate allData] in *.
  specialize (Hfirst eq_refl ltac:(unfold MAX_FETCH_OPERATIONS; lia)).
  rewrite Hrun. destruct r as [st'|e].
  - exists (Ok (allData st')), pages.
    split; [done|]. split; [lia|]. split; [done|]. split; [by intros e [=]|].
    intros data [= <-]. by destruct (Hok st' eq_refl) as [_ ->].
  - exists (Throw e), pages.
    split; [done|]. split; [lia|]. split; [done|].
    split; [intros e' [= <-]; by apply Hthrow|]. by intros data [=].
Qed.

Lemma filterDataByDateRange_inWindow data startDate endDate :
  filterDataByDateRange data startDate endDate =
  filter (Spec.inWindow startDate endDate) data.
Proof.
  unfold filterDataByDateRange. apply list_filter_iff. intros e.
  unfold Spec.inWindow. rewrite andb_true_iff, !Z.leb_le. reflexivity.
Qed.

Lemma processRetrievedData_spec fetched startDate endDate :
  let l := processRetrievedData fetched startDate endDate in
  Sorted Spec.chronological l /\
  l ≡ₚ filter (Spec.inWindow startDate endDate) fetched /\
  Forall (Spec.inWindow startDate endDate) l.
Proof.
  unfold processRetrievedData, sortDataChronologically. cbv zeta.
  rewrite filterDataByDateRange_inWindow.
  split; [apply (sort_Sorted dateutc)|].
  split; [apply sort_Permutation|].
  rewrite sort_Permutation. apply Forall_forall. intros e He.
  by apply list_elem_of_filter in He as [He _].
Qed.

Lemma getDeviceDataForDateRange_Ok macAddress startDate endDate maxDays tr l tr' :
  getDeviceDataForDateRange host server rateLimitDelay macAddress startDate
    endDate maxDays tr = Some (Ok l, tr') ->
  exists fetched,
    fetchDataInChunks host server rateLimitDelay macAddress startDate
      (default (JSDate.now host) endDate) tr = Some (Ok fetched, tr') /\
    l = processRetrievedData fetched startDate (default (JSDate.now host) endDate).
Proof.
  unfold getDeviceDataForDateRange. cbv zeta.
  destruct (fetchDataInChunks _ _ _ _ _ _ _) as [[[fetched|e] tr1]|]; [|done..].
  intros [= <- <-]. by exists fetched.
Qed.
End RangeFetch.

(** C8.  The fetch in chunks ends, whatever the service answers, after at
    least one and at most 100 page requests, and it runs as its description
    has it: it asks for the page that ends at the end date; a page request
    that fails throws its error; an empty page ends the fetch; a page whose
    earliest timestamp is at or before the start date is added and ends the
    fetch; any other page is added, and after a wait the fetch goes on with
    the page that ends one second before that earliest timestamp; after 100
    page requests the fetch ends.  Unless a page request failed, the result
    is the readings of the pages added, in the order they were fetched,
    also when the fetch ends on the cap.  The description leaves no choice:
    no other pages, result or trace fit it. *)
Theorem fetchDataInChunks_terminates
    (host : JSDate.Host) (server : AmbientWeatherAPI.Server) (rateLimitDelay : Z)
    (macAddress : string) (startDate endDate : Z)
    (tr : list AmbientWeatherAPI.Event) :
  exists r tr' cursors,
    AmbientWeatherAPI.fetchDataInChunks host server rateLimitDelay macAddress
      startDate endDate tr = Some (r, tr') /\
    (1 <= length cursors <= 100)%nat /\
    Spec.chunkedFetch server rateLimitDelay macAddress startDate
      100 endDate [] tr cursors r tr' /\
    (forall cursors2 r2 tr2,
       Spec.chunkedFetch server rateLimitDelay macAddress startDate
         100 endDate [] tr cursors2 r2 tr2 ->
       cursors2 = cursors /\ r2 = r /\ tr2 = tr').
Proof.
  destruct (fetchLoop_chunked host server rateLimitDelay macAddress startDate
              AmbientWeatherAPI.MAX_FETCH_OPERATIONS
              {| AmbientWeatherAPI.currentEnd := endDate;
                 AmbientWeatherAPI.allData := [];
                 AmbientWeatherAPI.reachedStartDate := false;
                 AmbientWeatherAPI.fetchCount := 0 |} tr)
    as (r & tr' & cursors & Hrun & Hfetch & Hlen & Hfirst);
    [done|cbn [AmbientWeatherAPI.fetchCount]; lia
    |cbn [AmbientWeatherAPI.fetchCount]; lia|].
  cbn [AmbientWeatherAPI.fetchCount AmbientWeatherAPI.currentEnd
       AmbientWeatherAPI.allData] in Hfetch, Hlen, Hfirst.
  change (AmbientWeatherAPI.MAX_FETCH_OPERATIONS - 0)%nat with 100%nat
    in Hfetch, Hlen.
  specialize (Hfirst ltac:(unfold AmbientWeatherAPI.MAX_FETCH_OPERATIONS; lia)).
  exists (match r with
          | AmbientWeatherAPI.Ok st' => AmbientWeatherAPI.Ok (AmbientWeatherAPI.allData st')
          | AmbientWeatherAPI.Throw e => AmbientWeatherAPI.Throw e
          end), tr', cursors.
  split.
  - unfold AmbientWeatherAPI.fetchDataInChunks. cbv zeta. rewrite Hrun.
    destruct r as [st'|e]; reflexivity.
  - split; [lia|]. split; [exact Hfetch|].
    intros cursors2 r2 tr2 H2.
    exact (chunkedFetch_deterministic server rateLimitDelay macAddress startDate
             _ _ _ _ _ _ _ _ _ _ H2 Hfetch).
Qed.

Lemma fetchDataInChunks_terminates_witness :
  exists data tr' cursors,
    AmbientWeatherAPI.fetchDataInChunks Fixtures.utcHost Fixtures.hourly 1000 "AA"
      (-1000000000000) 0 [] = Some (AmbientWeatherAPI.Ok data, tr') /\
    (1 <= length cursors <= 100)%nat /\
    Spec.chunkedFetch Fixtures.hourly 1000 "AA" (-1000000000000)
      100 0 [] [] cursors (AmbientWeatherAPI.Ok data) tr' /\
    length data = 100%nat /\
    AmbientWeatherAPI.requests tr' = 100%nat.
Proof.
  destruct (fetchDataInChunks_terminates Fixtures.utcHost Fixtures.hourly 1000 "AA"
              (-1000000000000) 0 []) as (r & tr' & cursors & Hrun & Hlen & Hfetch & _).
  assert (Hdata : exists data,
            r = AmbientWeatherAPI.Ok data /\ length data = 100%nat /\
            AmbientWeatherAPI.requests tr' = 100%nat).
  { vm_compute in Hrun. destruct r as [data|e]; [|discriminate Hrun].
    exists data. split; [reflexivity|].
    injection Hrun as Hd Htr. rewrite <- Hd, <- Htr. split; reflexivity. }
  destruct Hdata as (data & -> & Hd & Hreq).
  exists data, tr', cursors. split; [exact Hrun|]. split; [exact Hlen|].
  split; [exact Hfetch|]. split; [exact Hd|exact Hreq].
Defined.

(** C1, as the code has it.  When the range fetch returns, the readings it
    returns are in ascending order of timestamp, each with a timestamp
    from the start date to the end date, and they are the fetched readings
    of that window, each as often as it was fetched: readings with the
    same timestamp are all kept. *)
Theorem range_fetch_sorted_in_window
    (host : JSDate.Host) (server : AmbientWeatherAPI.Server) (rateLimitDelay : Z)
    (macAddress : string) (startDate : Z) (endDate maxDays : option Z)
    (tr tr' : list AmbientWeatherAPI.Event) (result : list WeatherData) :
  AmbientWeatherAPI.getDeviceDataForDateRange host server rateLimitDelay macAddress
    startDate endDate maxDays tr = Some (AmbientWeatherAPI.Ok result, tr') ->
  let endTime := default (JSDate.now host) endDate in
  Sorted Spec.chronological result /\
  Forall (fun e => startDate <= dateutc e <= endTime) result /\
  exists fetched,
    AmbientWeatherAPI.fetchDataInChunks host server rateLimitDelay macAddress
      startDate endTime tr = Some (AmbientWeatherAPI.Ok fetched, tr') /\
    result ≡ₚ filter (Spec.inWindow startDate endTime) fetched.
Proof.
  intros Hrun endTime.
  destruct (getDeviceDataForDateRange_Ok host server rateLimitDelay macAddress
              startDate endDate maxDays tr result tr' Hrun) as (fetched & Hfetch & ->).
  destruct (processRetrievedData_spec fetched startDate endTime) as (Hs & Hp & Hw).
  split; [exact Hs|]. split; [exact Hw|]. by exists fetched.
Qed.

Lemma range_fetch_sorted_in_window_witness :
  Sorted Spec.chronological [Fixtures.reading 1000 40; Fixtures.reading 1000 41].
Proof.
  eapply (range_fetch_sorted_in_window Fixtures.utcHost Fixtures.twoAtOnce 1000 "AA"
            0 (Some 2000) None [] _ [Fixtures.reading 1000 40; Fixtures.reading 1000 41]).
  vm_compute. reflexivity.
Defined.

(** C1 as stated fails: a page with two readings of the same instant
    comes back with both. *)
Lemma range_fetch_keeps_duplicates :
  exists result tr',
    AmbientWeatherAPI.getDeviceDataForDateRange Fixtures.utcHost Fixtures.twoAtOnce
      1000 "AA" 0 (Some 2000) None [] = Some (AmbientWeatherAPI.Ok result, tr') /\
    result = [Fixtures.reading 1000 40; Fixtures.reading 1000 41] /\
    ~ NoDup (dateutc <$> result).
Proof.
  eexists _, _. split; [vm_compute; reflexivity|]. split; [reflexivity|].
  simpl. intros H. apply NoDup_cons in H as [H _]. apply H. by left.
Qed.

(** C2, as the code has it.  When the start date is after the end date, a
    range fetch that returns, returns no reading; and it has made at least
    one request by then. *)
Theorem range_fetch_empty_window
    (host : JSDate.Host) (server : AmbientWeatherAPI.Server) (rateLimitDelay : Z)
    (macAddress : string) (startDate : Z) (endDate maxDays : option Z)
    (tr tr' : list AmbientWeatherAPI.Event) (result : list WeatherData) :
  default (JSDate.now host) endDate < startDate ->
  AmbientWeatherAPI.getDeviceDataForDateRange host server rateLimitDelay macAddress
    startDate endDate maxDays tr = Some (AmbientWeatherAPI.Ok result, tr') ->
  result = [] /\
  (AmbientWeatherAPI.requests tr < AmbientWeatherAPI.requests tr')%nat.
Proof.
  intros Hlt Hrun.
  destruct (getDeviceDataForDateRange_Ok host server rateLimitDelay macAddress
              startDate endDate maxDays tr result tr' Hrun) as (fetched & Hfetch & ->).
  destruct (processRetrievedData_spec fetched startDate
              (default (JSDate.now host) endDate)) as (_ & _ & Hw).
  split.
  - destruct (AmbientWeatherAPI.processRetrievedData fetched startDate _)
      as [|e result]; [done|].
    apply Forall_cons in Hw as [He _]. unfold Spec.inWindow in He. lia.
  - destruct (fetchDataInChunks_total host server rateLimitDelay macAddress startDate
                (default (JSDate.now host) endDate) tr)
      as (r & pages & Hrun' & Hlen & _).
    rewrite Hfetch in Hrun'. injection Hrun' as _ ->.
    rewrite requests_app.
    pose proof (requests_pages rateLimitDelay pages). lia.
Qed.

Lemma range_fetch_empty_window_witness :
  exists tr',
    AmbientWeatherAPI.getDeviceDataForDateRange Fixtures.utcHost Fixtures.oneReading
      1000 "AA" 2000 (Some 1000) None [] = Some (AmbientWeatherAPI.Ok [], tr') /\
    (0 < AmbientWeatherAPI.requests tr')%nat.
Proof.
  eexists. split; [vm_compute; reflexivity|].
  eapply (range_fetch_empty_window Fixtures.utcHost Fixtures.oneReading
            1000 "AA" 2000 (Some 1000) None [] _ []).
  - simpl. lia.
  - vm_compute. reflexivity.
Defined.

(** C2 as stated fails: with the start date equal to the end date the
    fetch makes a request and returns the reading taken at that instant. *)
Lemma range_fetch_empty_window_counterexample :
  exists tr',
    (1000 >=? 1000) = true /\
    AmbientWeatherAPI.getDeviceDataForDateRange Fixtures.utcHost Fixtures.oneReading
      1000 "AA" 1000 (Some 1000) None [] =
      Some (AmbientWeatherAPI.Ok [Fixtures.reading 1000 40], tr') /\
    AmbientWeatherAPI.requests tr' = 1%nat.
Proof. eexists. split; [reflexivity|]. split; vm_compute; reflexivity. Qed.

(** The range fetch does not look at [maxDays]. *)
Lemma getDeviceDataForDateRange_maxDays
    (host : JSDate.Host) (server : AmbientWeatherAPI.Server) (rateLimitDelay : Z)
    (macAddress : string) (startDate : Z) (endDate maxDays maxDays' : option Z)
    (tr : list AmbientWeatherAPI.Event) :
  AmbientWeatherAPI.getDeviceDataForDateRange host server rateLimitDelay macAddress
    startDate endDate maxDays tr =
  AmbientWeatherAPI.getDeviceDataForDateRange host server rateLimitDelay macAddress
    startDate endDate maxDays' tr.
Proof. unfold AmbientWeatherAPI.getDeviceDataForDateRange. cbv zeta. reflexivity. Qed.

(** C9 at a failing input: with a cap of one day, an end date ten days
    after the epoch and a start date at the epoch, the fetch announces one
    day and returns readings taken ten and eight days before the end
    date. *)
Example range_fetch_exceeds_maxDays :
  let endDate := 10 * AmbientWeatherAPI.MILLISECONDS_PER_DAY in
  AmbientWeatherAPI.logDateRangeInfo 0 endDate 1 = 1 /\
  exists tr',
    AmbientWeatherAPI.getDeviceDataForDateRange Fixtures.utcHost Fixtures.twoDaysApart
      1000 "AA" 0 (Some endDate) (Some 1) [] =
      Some (AmbientWeatherAPI.Ok [Fixtures.reading 0 41; Fixtures.reading 172800000 40], tr') /\
    ~ Forall (fun e => endDate - 1 * AmbientWeatherAPI.MILLISECONDS_PER_DAY <= dateutc e)
        [Fixtures.reading 0 41; Fixtures.reading 172800000 40].
Proof.
  split; [reflexivity|]. eexists. split; [vm_compute; reflexivity|].
  intros H. apply Forall_cons in H as [H _]. vm_compute in H. by apply H.
Qed.

(** * More properties *)

(** ** More on the aggregator *)

Section SortMore.
Context {A : Type} (key : A -> Z).
Local Abbreviation cmp := (fun a b : A => key a - key b).

Lemma insertSorted_HdRel_id x l :
  HdRel (fun a b => key a <= key b) x l -> JS.insertSorted cmp x l = x :: l.
Proof.
  destruct 1 as [|y l Hxy]; simpl; [done|].
  destruct (Z.leb_spec (key x - key y) 0); [done|lia].
Qed.

Lemma sort_Sorted_id l :
  Sorted (fun a b => key a <= key b) l -> JS.sort cmp l = l.
Proof.
  induction 1 as [|x l Hs IH Hhd]; simpl; [done|].
  rewrite IH. by apply insertSorted_HdRel_id.
Qed.

Lemma filter_insertSorted_ne (P : A -> Prop) `{!forall x, Decision (P x)} x l :
  ~ P x -> filter P (JS.insertSorted cmp x l) = filter P l.
Proof.
  intros Hx. induction l as [|y l IH]; simpl.
  - by rewrite filter_cons_False.
  - destruct (key x - key y <=? 0).
    + by rewrite filter_cons_False.
    + by rewrite !filter_cons, IH.
Qed.

Lemma filter_insertSorted_key t x l :
  key x = t ->
  filter (fun a => key a = t) (JS.insertSorted cmp x l) =
  x :: filter (fun a => key a = t) l.
Proof.
  intros Hx. induction l as [|y l IH]; simpl.
  - by rewrite filter_cons_True.
  - destruct (Z.leb_spec (key x - key y) 0) as [Hle|Hgt].
    + by rewrite (filter_cons_True _ x).
    + rewrite (filter_cons_False _ y) by lia. rewrite IH.
      by rewrite (filter_cons_False _ y) by lia.
Qed.

Lemma filter_sort_key t l :
  filter (fun a => key a = t) (JS.sort cmp l) = filter (fun a => key a = t) l.
Proof.
  induction l as [|x l IH]; simpl; [done|].
  destruct (decide (key x = t)) as [Hx|Hx].
  - rewrite filter_insertSorted_key by done. rewrite IH. by rewrite filter_cons_True.
  - rewrite filter_insertSorted_ne by done. rewrite IH. by rewrite filter_cons_False.
Qed.
End SortMore.

(** X1.  Sorting again changes nothing, and the sort is stable: the
    readings of one instant come out in the order they went in. *)
Theorem sortDataChronologically_stable (data : list WeatherData) :
  ChillHourCalculator.sortDataChronologically
    (ChillHourCalculator.sortDataChronologically data) =
  ChillHourCalculator.sortDataChronologically data /\
  (forall t : Z,
     filter (fun e => dateutc e = t) (ChillHourCalculator.sortDataChronologically data) =
     filter (fun e => dateutc e = t) data).
Proof.
  split.
  - apply (sort_Sorted_id dateutc), sortDataChronologically_Sorted.
  - intros t. apply (filter_sort_key dateutc).
Qed.

Section Counting.
Import ChillHourCalculator.
Context (host : JSDate.Host) (minTemp maxTemp : Q).

Local Abbreviation hourOf := (HourSets.hourOf host).
Local Abbreviation hours := (HourSets.hours host).
Local Abbreviation readingsAt := (Spec.readingsAt host).
Local Abbreviation inRangeCount := (Spec.inRangeCount minTemp maxTemp).
Local Abbreviation group := (groupReadingsByHour host minTemp maxTemp).

Lemma readingsAt_nil_iff k data : readingsAt k data = [] <-> k ∉ hours data.
Proof.
  unfold HourSets.hours, Spec.readingsAt. rewrite elem_of_list_to_set, list_elem_of_fmap.
  split.
  - intros Hnil (e & -> & He). by apply (filter_nil_not_elem_of _ _ e) in Hnil.
  - intros Hk. destruct (filter _ data) as [|e l] eqn:E; [done|].
    exfalso. apply Hk. exists e.
    assert (He : e ∈ filter (fun e => createHourKey host (dateutc e) = k) data)
      by (rewrite E; left).
    apply list_elem_of_filter in He as [<- He]. done.
Qed.

Lemma dom_groupReadingsByHour data : dom (group data) = hours data.
Proof.
  apply set_eq; intros k. rewrite elem_of_dom, groupReadingsByHour_lookup.
  destruct (readingsAt k data) as [|e l] eqn:E.
  - apply readingsAt_nil_iff in E. split; [by intros [? ?]|done].
  - split; [intros _|by eauto].
    destruct (decide (k ∈ hours data)) as [|Hk]; [done|].
    apply readingsAt_nil_iff in Hk. congruence.
Qed.

Lemma hours_Permutation l1 l2 : l1 ≡ₚ l2 -> hours l1 = hours l2.
Proof.
  intros Hp. apply set_eq; intros k. unfold HourSets.hours.
  by rewrite !elem_of_list_to_set, Hp.
Qed.

Lemma size_hours_le data : (size (hours data) <= length data)%nat.
Proof.
  unfold HourSets.hours. induction data as [|e data IH].
  - rewrite fmap_nil, list_to_set_nil, size_empty. simpl. lia.
  - rewrite fmap_cons, list_to_set_cons. cbn [length].
    etrans; [apply Nat.eq_le_incl, size_union_alt|]. rewrite size_singleton.
    pose proof (subseteq_size (list_to_set (hourOf <$> data) ∖ {[hourOf e]})
                  (list_to_set (hourOf <$> data) : gset string)) as H.
    assert (Hsub : list_to_set (hourOf <$> data) ∖ {[hourOf e]}
                   ⊆ (list_to_set (hourOf <$> data) : gset string)).
    { intros k Hk. by apply elem_of_difference in Hk as [Hk _]. }
    specialize (H Hsub). lia.
Qed.

(** Counting the chill hours of a map is counting the hours whose bucket
    is one. *)
Lemma countChillHours_filter (m : gmap string HourData) :
  (countChillHours m).2 = size (filter (fun kv => isChillHour kv.2 = true) m).
Proof.
  unfold countChillHours; simpl.
  apply (map_fold_weak_ind
           (fun r m => r = size (filter (fun kv : string * HourData => isChillHour kv.2 = true) m))).
  - by rewrite map_filter_empty, map_size_empty.
  - intros i x m' r Hi ->.
    destruct (isChillHour x) eqn:E.
    + rewrite map_filter_insert_True by done.
      rewrite map_size_insert_None; [done|].
      by rewrite map_lookup_filter_None_2; [|left].
    + rewrite map_filter_insert_not' ; [done|simpl; congruence|].
      intros y Hy. congruence.
Qed.

Lemma isChillHour_bucket readings :
  isChillHour {| temps := tempf <$> readings; inRange := inRangeCount readings |} = true
  <-> readings <> [] /\ (length readings <= 2 * inRangeCount readings)%nat.
Proof.
  rewrite isChillHour_spec. simpl. rewrite length_fmap.
  destruct readings as [|e l]; [simpl; split; [lia|by intros [? _]]|].
  rewrite half_le_quotient by (simpl; lia). split; [intros [_ H]|intros [_ H]]; (split; [done || (simpl; lia)|done]).
Qed.

Lemma dom_chill_buckets data :
  dom (filter (fun kv => isChillHour kv.2 = true) (group data)) =
  filter (HourSets.halfInRange host minTemp maxTemp data) (hours data).
Proof.
  apply set_eq; intros k.
  rewrite elem_of_dom, elem_of_filter. unfold is_Some.
  setoid_rewrite map_lookup_filter_Some. simpl.
  setoid_rewrite groupReadingsByHour_lookup.
  unfold HourSets.halfInRange.
  destruct (readingsAt k data) as [|e l] eqn:E.
  - apply readingsAt_nil_iff in E. split; [by intros (? & ? & _)|by intros [_ ?]].
  - assert (Hk : k ∈ hours data).
    { destruct (decide (k ∈ hours data)) as [|Hk]; [done|].
      apply readingsAt_nil_iff in Hk. congruence. }
    split.
    + intros (b & [= <-] & Hb). split; [|done].
      by apply (isChillHour_bucket (e :: l)) in Hb as [_ Hb].
    + intros [Hhalf _]. eexists. split; [done|].
      by apply (isChillHour_bucket (e :: l)).
Qed.

Lemma halfInRange_Permutation l1 l2 k :
  l1 ≡ₚ l2 ->
  HourSets.halfInRange host minTemp maxTemp l1 k <->
  HourSets.halfInRange host minTemp maxTemp l2 k.
Proof.
  intros Hp. unfold HourSets.halfInRange, Spec.readingsAt, Spec.inRangeCount.
  by rewrite Hp.
Qed.

(** The two counts of the report, in terms of the readings. *)
Lemma calculateChillHours_hours data :
  let r := calculateChillHours host minTemp maxTemp data in
  totalHours r = size (hours data) /\
  chillHours r = size (filter (HourSets.halfInRange host minTemp maxTemp data) (hours data)).
Proof.
  cbv zeta. unfold calculateChillHours.
  pose proof (sortDataChronologically_Permutation data) as Hp.
  destruct (length (sortDataChronologically data) =? 0)%nat eqn:E.
  - apply Nat.eqb_eq in E. rewrite (Permutation_length Hp) in E.
    apply length_zero_iff_nil in E as ->. cbn [createEmptyReport totalHours chillHours].
    unfold HourSets.hours. rewrite fmap_nil, list_to_set_nil.
    rewrite filter_empty_L by apply _. by rewrite size_empty.
  - pose proof (countChillHours_filter (group (sortDataChronologically data))) as Hc.
    destruct (countChillHours _) as [n c] eqn:Ec. simpl in *.
    unfold countChillHours in Ec. injection Ec as <- _.
    split.
    + rewrite <- size_dom, dom_groupReadingsByHour. by rewrite (hours_Permutation _ _ Hp).
    + rewrite Hc, <- size_dom, dom_chill_buckets.
      rewrite (hours_Permutation _ _ Hp). f_equal.
      apply set_eq; intros k. rewrite !elem_of_filter.
      by rewrite (halfInRange_Permutation _ _ k Hp).
Qed.
End Counting.

Section CountingMore.
Import ChillHourCalculator.
Context (host : JSDate.Host).

Lemma length_filter_impl {A} (P Q : A -> Prop)
    `{!forall x, Decision (P x)} `{!forall x, Decision (Q x)} (l : list A) :
  (forall x, P x -> Q x) -> (length (filter P l) <= length (filter Q l))%nat.
Proof.
  intros HPQ. induction l as [|x l IH]; [done|].
  rewrite !filter_cons. destruct (decide (P x)) as [HP|HP].
  - rewrite decide_True by auto. simpl. lia.
  - destruct (decide (Q x)); simpl; lia.
Qed.

Lemma inRangeCount_all minTemp maxTemp (l : list WeatherData) :
  Forall (fun e => Spec.inChillRange minTemp maxTemp (tempf e)) l ->
  Spec.inRangeCount minTemp maxTemp l = length l.
Proof.
  intros H. unfold Spec.inRangeCount. f_equal.
  induction H as [|e l He Hl IH]; [done|].
  by rewrite filter_cons_True, IH.
Qed.

Lemma inRangeCount_none minTemp maxTemp (l : list WeatherData) :
  Forall (fun e => ~ Spec.inChillRange minTemp maxTemp (tempf e)) l ->
  Spec.inRangeCount minTemp maxTemp l = 0%nat.
Proof.
  intros H. unfold Spec.inRangeCount.
  induction H as [|e l He Hl IH]; [done|].
  by rewrite filter_cons_False.
Qed.

Lemma Forall_readingsAt (P : WeatherData -> Prop) k data :
  Forall P data -> Forall P (Spec.readingsAt host k data).
Proof.
  intros H. apply Forall_forall. intros e He.
  apply list_elem_of_filter in He as [_ He].
  by eapply Forall_forall in H.
Qed.

Lemma readingsAt_hours k data :
  k ∈ HourSets.hours host data -> (0 < length (Spec.readingsAt host k data))%nat.
Proof.
  intros Hk. destruct (Spec.readingsAt host k data) eqn:E; [|simpl; lia].
  by apply readingsAt_nil_iff in E.
Qed.

Lemma hours_empty_iff data : HourSets.hours host data = ∅ <-> data = [].
Proof.
  split; [|by intros ->].
  destruct data as [|e data]; [done|]. unfold HourSets.hours.
  rewrite fmap_cons, list_to_set_cons. set_solver.
Qed.

(** The report of a permutation, as a lemma for the properties below. *)
Lemma calculateChillHours_perm minTemp maxTemp (data data' : list WeatherData) :
  data ≡ₚ data' ->
  calculateChillHours host minTemp maxTemp data' =
  calculateChillHours host minTemp maxTemp data.
Proof.
  intros Hp. unfold calculateChillHours.
  set (s := sortDataChronologically data).
  set (s' := sortDataChronologically data').
  assert (Hs : s' ≡ₚ s).
  { subst s s'. by rewrite !sortDataChronologically_Permutation. }
  assert (Ht : dateutc <$> s' = dateutc <$> s).
  { apply chronological_timestamps; [apply sortDataChronologically_Sorted..|done]. }
  rewrite (Permutation_length Hs).
  destruct (length s =? 0)%nat; [done|].
  rewrite !countChillHours_flags.
  rewrite (groupReadingsByHour_flags_Permutation host minTemp maxTemp s' s Hs).
  by apply createReport_timestamps.
Qed.

Lemma filterDataForSeason_inWindow data seasonStart seasonEnd :
  filterDataForSeason data seasonStart seasonEnd =
  filter (Spec.inWindow seasonStart seasonEnd) data.
Proof.
  unfold filterDataForSeason. apply list_filter_iff. intros e.
  unfold Spec.inWindow. cbv zeta. rewrite andb_true_iff, !Z.leb_le. reflexivity.
Qed.
End CountingMore.

(** X2.  The report counts the hours that have a reading, and among them
    the hours in which at least half of the readings are in the chill
    range. *)
Theorem report_counts_hours
    (host : JSDate.Host) (minTemp maxTemp : Q) (data : list WeatherData) :
  let r := ChillHourCalculator.calculateChillHours host minTemp maxTemp data in
  totalHours r = size (HourSets.hours host data) /\
  chillHours r =
    size (filter (HourSets.halfInRange host minTemp maxTemp data) (HourSets.hours host data)).
Proof. apply calculateChillHours_hours. Qed.

(** X3.  The number of hours of the report is at most the number of
    readings, and it is 0 exactly when there is no reading. *)
Theorem report_hours_bounds
    (host : JSDate.Host) (minTemp maxTemp : Q) (data : list WeatherData) :
  let r := ChillHourCalculator.calculateChillHours host minTemp maxTemp data in
  (totalHours r <= length data)%nat /\
  (totalHours r = 0%nat <-> data = []).
Proof.
  intros r. destruct (calculateChillHours_hours host minTemp maxTemp data) as [Ht _].
  fold r in Ht. rewrite Ht. split; [apply size_hours_le|].
  rewrite size_empty_iff, <- hours_empty_iff.
  split; [apply leibniz_equiv|by intros ->].
Qed.

(** X4.  When every reading is in the chill range, every hour of the
    report is a chill hour, which is 100 percent when there is a reading;
    when no reading is in the chill range, no hour is a chill hour. *)
Theorem report_all_or_none_in_range
    (host : JSDate.Host) (minTemp maxTemp : Q) (data : list WeatherData) :
  let r := ChillHourCalculator.calculateChillHours host minTemp maxTemp data in
  (Forall (fun e => Spec.inChillRange minTemp maxTemp (tempf e)) data ->
   chillHours r = totalHours r /\
   (data <> [] -> (percentChillHours r == 100)%Q)) /\
  (Forall (fun e => ~ Spec.inChillRange minTemp maxTemp (tempf e)) data ->
   chillHours r = 0%nat /\ (percentChillHours r == 0)%Q).
Proof.
  intros r.
  destruct (calculateChillHours_hours host minTemp maxTemp data) as [Ht Hc].
  destruct (calculateChillHours_counts host minTemp maxTemp data) as [_ Hp].
  fold r in Ht, Hc, Hp. split.
  - intros Hall.
    assert (Heq : chillHours r = totalHours r).
    { rewrite Hc, Ht. f_equal. apply set_eq; intros k. rewrite elem_of_filter.
      split; [by intros [_ ?]|]. intros Hk. split; [|done].
      unfold HourSets.halfInRange.
      rewrite (inRangeCount_all minTemp maxTemp) by by apply Forall_readingsAt. lia. }
    split; [done|]. intros Hne. rewrite Hp, Heq.
    assert (Hpos : (0 < totalHours r)%nat).
    { rewrite Ht. destruct (size (HourSets.hours host data)) eqn:E; [|lia].
      apply size_empty_iff, leibniz_equiv in E.
      by apply hours_empty_iff in E. }
    pose proof Hpos as Hb. apply Nat.ltb_lt in Hb. rewrite Hb.
    rewrite percentage_all by done. reflexivity.
  - intros Hnone.
    assert (Heq : chillHours r = 0%nat).
    { rewrite Hc. apply size_empty_iff.
      intros k. rewrite elem_of_filter.
      split; [|set_solver]. intros [Hhalf Hk]. exfalso.
      unfold HourSets.halfInRange in Hhalf.
      rewrite (inRangeCount_none minTemp maxTemp) in Hhalf by by apply Forall_readingsAt.
      apply readingsAt_hours in Hk. lia. }
    split; [done|]. rewrite Hp, Heq.
    destruct (0 <? totalHours r)%nat; [|reflexivity].
    rewrite percentage_none. reflexivity.
Qed.

Lemma report_all_or_none_in_range_witness :
  chillHours (ChillHourCalculator.calculateChillHours Fixtures.utcHost 0 100
                Fixtures.twoHours) = 2%nat /\
  chillHours (ChillHourCalculator.calculateChillHours Fixtures.utcHost 0 10
                Fixtures.twoHours) = 0%nat.
Proof.
  destruct (report_all_or_none_in_range Fixtures.utcHost 0 100 Fixtures.twoHours)
    as [Hall _].
  destruct (report_all_or_none_in_range Fixtures.utcHost 0 10 Fixtures.twoHours)
    as [_ Hnone].
  split.
  - destruct Hall as [-> _]; [|reflexivity].
    unfold Fixtures.twoHours.
    repeat (constructor; [unfold Spec.inChillRange, Qle; simpl; lia|]). constructor.
  - destruct Hnone as [-> _]; [|reflexivity].
    unfold Fixtures.twoHours.
    repeat (constructor; [unfold Spec.inChillRange, Qle; simpl; lia|]). constructor.
Defined.

(** X5.  Widening the chill range never lowers the number of chill hours
    and leaves the number of hours as it is. *)
Theorem report_range_monotone
    (host : JSDate.Host) (minTemp maxTemp minTemp' maxTemp' : Q)
    (data : list WeatherData) :
  (minTemp' <= minTemp)%Q -> (maxTemp <= maxTemp')%Q ->
  let r := ChillHourCalculator.calculateChillHours host minTemp maxTemp data in
  let r' := ChillHourCalculator.calculateChillHours host minTemp' maxTemp' data in
  totalHours r' = totalHours r /\ (chillHours r <= chillHours r')%nat.
Proof.
  intros Hmin Hmax r r'.
  destruct (calculateChillHours_hours host minTemp maxTemp data) as [Ht Hc].
  destruct (calculateChillHours_hours host minTemp' maxTemp' data) as [Ht' Hc'].
  fold r in Ht, Hc. fold r' in Ht', Hc'.
  split; [congruence|]. rewrite Hc, Hc'. apply subseteq_size.
  intros k. rewrite !elem_of_filter. intros [Hhalf Hk]. split; [|done].
  unfold HourSets.halfInRange in *.
  etrans; [exact Hhalf|]. apply Nat.mul_le_mono_l.
  unfold Spec.inRangeCount. apply length_filter_impl.
  intros e [H1 H2]. split; [exact (Qle_trans _ _ _ Hmin H1)|exact (Qle_trans _ _ _ H2 Hmax)].
Qed.

Lemma report_range_monotone_witness :
  (chillHours (ChillHourCalculator.calculateChillHours Fixtures.utcHost 32 45
                 Fixtures.twoHours)
   <= chillHours (ChillHourCalculator.calculateChillHours Fixtures.utcHost 30 50
                    Fixtures.twoHours))%nat.
Proof.
  apply (report_range_monotone Fixtures.utcHost 32 45 30 50 Fixtures.twoHours);
    unfold Qle; simpl; lia.
Defined.

(** X6.  The season report depends on the readings of the season window
    only: two lists with the same readings in the window, in any order and
    with any readings outside it, have the same season report. *)
Theorem season_report_window_only
    (host : JSDate.Host) (minTemp maxTemp : Q) (data data' : list WeatherData)
    (seasonStartMonth : Z) (year : option Z) :
  let window := ChillHourCalculator.determineSeasonDates host seasonStartMonth year in
  filter (Spec.inWindow window.1 window.2) data
    ≡ₚ filter (Spec.inWindow window.1 window.2) data' ->
  ChillHourCalculator.calculateSeasonChillHours host minTemp maxTemp data'
    seasonStartMonth year =
  ChillHourCalculator.calculateSeasonChillHours host minTemp maxTemp data
    seasonStartMonth year.
Proof.
  intros window Hp. unfold ChillHourCalculator.calculateSeasonChillHours.
  fold window. destruct window as [s e]. simpl in Hp.
  rewrite !filterDataForSeason_inWindow. rewrite (Permutation_length Hp).
  destruct (length _ =? 0)%nat; [done|].
  by apply calculateChillHours_perm.
Qed.

Lemma season_report_window_only_witness :
  ChillHourCalculator.calculateSeasonChillHours Fixtures.utcHost 32 45
    (Fixtures.reading 0 40 :: Fixtures.twoHoursShuffled) 9 (Some 2023) =
  ChillHourCalculator.calculateSeasonChillHours Fixtures.utcHost 32 45
    Fixtures.twoHours 9 (Some 2023).
Proof.
  apply (season_report_window_only Fixtures.utcHost 32 45 Fixtures.twoHours
           (Fixtures.reading 0 40 :: Fixtures.twoHoursShuffled) 9 (Some 2023)).
  vm_compute. solve_Permutation.
Defined.

(** ** Hour keys *)

Section KeyStrings.
Import HourKeys.

Lemma string_app_assoc (a b c : string) : (a +:+ b) +:+ c = a +:+ (b +:+ c).
Proof.
  induction a as [|x a IH]; [done|].
  change (String x ((a +:+ b) +:+ c) = String x (a +:+ (b +:+ c))). by rewrite IH.
Qed.

Lemma noDash_app_dash a b : ~ noDash (a +:+ String "-" b).
Proof.
  induction a as [|x a IH].
  - by intros [H _].
  - change (~ noDash (String x (a +:+ String "-" b))). intros [_ H]. by apply IH.
Qed.

(** A string is cut in one way only at its last minus sign. *)
Lemma app_dash_inj a1 a2 b1 b2 :
  noDash b1 -> noDash b2 ->
  a1 +:+ String "-" b1 = a2 +:+ String "-" b2 -> a1 = a2 /\ b1 = b2.
Proof.
  intros H1 H2. revert a2.
  induction a1 as [|x a1 IH]; intros [|y a2] Heq.
  - change (String "-" b1 = String "-" b2) in Heq. by injection Heq as ->.
  - change (String "-" b1 = String y (a2 +:+ String "-" b2)) in Heq.
    injection Heq as _ ->. by apply noDash_app_dash in H1.
  - change (String x (a1 +:+ String "-" b1) = String "-" b2) in Heq.
    injection Heq as _ <-. by apply noDash_app_dash in H2.
  - change (String x (a1 +:+ String "-" b1) = String y (a2 +:+ String "-" b2)) in Heq.
    injection Heq as -> Heq. by destruct (IH a2 Heq) as [-> ->].
Qed.

(** Four fields joined by minus signs, of which the last three have none,
    are read back from the joined string. *)
Lemma joined_fields_inj y m d h y' m' d' h' :
  noDash m -> noDash d -> noDash h -> noDash m' -> noDash d' -> noDash h' ->
  y +:+ "-" +:+ m +:+ "-" +:+ d +:+ "-" +:+ h =
  y' +:+ "-" +:+ m' +:+ "-" +:+ d' +:+ "-" +:+ h' ->
  y = y' /\ m = m' /\ d = d' /\ h = h'.
Proof.
  intros Hm Hd Hh Hm' Hd' Hh' H.
  assert (Hshape : forall a b c e : string,
            a +:+ "-" +:+ b +:+ "-" +:+ c +:+ "-" +:+ e =
            (a +:+ String "-" b +:+ String "-" c) +:+ String "-" e).
  { intros a b c e. rewrite !string_app_assoc. reflexivity. }
  rewrite !Hshape in H.
  apply app_dash_inj in H as [H ->]; [|done..].
  assert (Hshape2 : forall a b c : string,
            a +:+ String "-" b +:+ String "-" c = (a +:+ String "-" b) +:+ String "-" c).
  { intros a b c. rewrite !string_app_assoc. reflexivity. }
  rewrite !Hshape2 in H.
  apply app_dash_inj in H as [H ->]; [|done..].
  apply app_dash_inj in H as [-> ->]; [|done..]. done.
Qed.

Lemma noDash_uint d : noDash (NilEmpty.string_of_uint d).
Proof. induction d; simpl; (split; [discriminate|done]) || done. Qed.

Lemma noDash_numberToString z : 0 <= z -> noDash (JS.numberToString z).
Proof.
  intros Hz. unfold JS.numberToString.
  destruct z as [|p|p]; [simpl; by repeat split|..|lia].
  simpl. unfold NilZero.string_of_uint.
  destruct (Pos.to_uint p) eqn:E; try apply (noDash_uint); simpl; by repeat split.
Qed.

Lemma numberToString_inj z1 z2 :
  JS.numberToString z1 = JS.numberToString z2 -> z1 = z2.
Proof.
  unfold JS.numberToString. intros H.
  assert (Hn : forall z, Z.to_int z <> Decimal.Pos Decimal.Nil /\
                         Z.to_int z <> Decimal.Neg Decimal.Nil).
  { intros [|p|p]; simpl; split; try discriminate;
      intros [= E]; by apply Unsigned.to_uint_nonnil in E. }
  apply to_int_inj.
  assert (E : Some (Z.to_int z1) = Some (Z.to_int z2)); [|by injection E].
  rewrite <- (NilZero.isi (Z.to_int z1)), <- (NilZero.isi (Z.to_int z2)), H;
    try apply Hn. done.
Qed.
End KeyStrings.

Section KeyFields.
Import JSDate.

Lemma YearFromDay_spec d :
  DayFromYear (YearFromDay d) <= d < DayFromYear (YearFromDay d + 1).
Proof.
  unfold YearFromDay, DayFromYear.
  repeat match goal with
         | |- context [?a <? ?b] => destruct (Z.ltb_spec a b)
         | |- context [?a <=? ?b] => destruct (Z.leb_spec a b)
         end; Z.div_mod_to_equations; lia.
Qed.

Lemma DayWithinYear_range t :
  0 <= DayWithinYear t < 365 + InLeapYear t.
Proof.
  unfold DayWithinYear, InLeapYear, YearFromTime.
  pose proof (YearFromDay_spec (Day t)) as H.
  rewrite DayFromYear_succ in H. unfold DaysInYear in H.
  destruct (isLeapYear (YearFromDay (Day t))); lia.
Qed.

Lemma MonthFromTime_range t : 0 <= MonthFromTime t <= 11.
Proof.
  unfold MonthFromTime.
  repeat match goal with
         | |- context [?a <? ?b] => destruct (Z.ltb_spec a b); [lia|]
         end; lia.
Qed.

Lemma DateFromTime_pos t : 1 <= DateFromTime t.
Proof.
  pose proof (DayWithinYear_range t) as Hr.
  unfold DateFromTime, MonthFromTime.
  assert (Hl : InLeapYear t = 0 \/ InLeapYear t = 1)
    by (unfold InLeapYear; destruct (isLeapYear _); lia).
  repeat match goal with
         | |- context [?a <? ?b] => destruct (Z.ltb_spec a b); [simpl; lia|]
         end; simpl; lia.
Qed.

(** The day of a time value, from its calendar fields. *)
Lemma Day_of_fields t :
  Day t = DayFromYear (YearFromTime t)
          + monthStart (InLeapYear t) (MonthFromTime t) + DateFromTime t - 1.
Proof. unfold DateFromTime, DayWithinYear. lia. Qed.

Lemma Day_eq_of_fields t1 t2 :
  YearFromTime t1 = YearFromTime t2 ->
  MonthFromTime t1 = MonthFromTime t2 ->
  DateFromTime t1 = DateFromTime t2 ->
  Day t1 = Day t2.
Proof.
  intros Hy Hm Hd. rewrite (Day_of_fields t1), (Day_of_fields t2).
  unfold InLeapYear. by rewrite Hy, Hm, Hd.
Qed.

Lemma Day_hour t : Day t = (t / msPerHour) / HoursPerDay.
Proof.
  unfold Day, msPerDay, msPerHour, HoursPerDay.
  rewrite Z.div_div by lia. reflexivity.
Qed.

Lemma hour_eq_iff t1 t2 :
  t1 / msPerHour = t2 / msPerHour <->
  Day t1 = Day t2 /\ HourFromTime t1 = HourFromTime t2.
Proof.
  rewrite !Day_hour. unfold HourFromTime, HoursPerDay.
  split; [by intros ->|]. intros [Hd Hh].
  rewrite (Z.div_mod (t1 / msPerHour) 24), (Z.div_mod (t2 / msPerHour) 24) by lia.
  by rewrite Hd, Hh.
Qed.
End KeyFields.

(** X7.  Two instants get the same hour key exactly when they fall in the
    same hour of local time: the keys of different hours never collide. *)
Theorem createHourKey_same_hour (host : JSDate.Host) (t1 t2 : Z) :
  ChillHourCalculator.createHourKey host t1 = ChillHourCalculator.createHourKey host t2
  <-> HourKeys.localHour host t1 = HourKeys.localHour host t2.
Proof.
  unfold HourKeys.localHour. rewrite hour_eq_iff.
  unfold ChillHourCalculator.createHourKey,
    JSDate.getFullYear, JSDate.getMonth, JSDate.getDate, JSDate.getHours.
  set (l1 := JSDate.LocalTime host t1). set (l2 := JSDate.LocalTime host t2).
  split.
  - intros H.
    apply joined_fields_inj in H as (Hy & Hm & Hd & Hh);
      try (apply noDash_numberToString).
    + apply numberToString_inj in Hy, Hm, Hd, Hh.
      split; [|done]. apply Day_eq_of_fields; [done|lia|done].
    + pose proof (MonthFromTime_range l1). lia.
    + pose proof (DateFromTime_pos l1). lia.
    + unfold JSDate.HourFromTime, JSDate.HoursPerDay. apply Z.mod_pos_bound. lia.
    + pose proof (MonthFromTime_range l2). lia.
    + pose proof (DateFromTime_pos l2). lia.
    + unfold JSDate.HourFromTime, JSDate.HoursPerDay. apply Z.mod_pos_bound. lia.
  - intros [Hd Hh].
    destruct (fields_of_Day l1 l2 Hd) as (-> & -> & ->). by rewrite Hh.
Qed.

Section FixedOffset.
Import JSDate.
Context (host : Host) (offset : Z) (Hfixed : Zones.fixedOffset host offset).

Lemma LocalTime_fixed t : LocalTime host t = t + offset.
Proof. unfold LocalTime. by rewrite Hfixed. Qed.

Lemma UTC_fixed t : UTC host t = t - offset.
Proof. unfold UTC. by rewrite Hfixed. Qed.

(** A date made from local fields is the local midnight of its day. *)
Lemma LocalTime_newDate y m d :
  let t := newDate host y m d in
  JSDate.LocalTime host t = Spec.localDay host t * msPerDay.
Proof.
  cbv zeta. unfold Spec.localDay. rewrite LocalTime_fixed. unfold newDate.
  rewrite UTC_fixed. unfold MakeDate, Day.
  rewrite Z.add_0_r, Z.sub_add, Z.div_mul by (unfold msPerDay; lia). reflexivity.
Qed.
End FixedOffset.

(** X8.  In a zone with a fixed offset, the two bounds of the season
    filter are local midnights: a reading that the filter keeps is taken
    no earlier than the midnight that starts the first day of the window
    and no later than the midnight that starts its last day, so of the
    readings of the last day only one taken at that midnight is kept. *)
Theorem season_filter_midnights
    (host : JSDate.Host) (offset : Z) (seasonStartMonth : Z) (year : option Z)
    (allData : list WeatherData) (e : WeatherData) :
  Zones.fixedOffset host offset ->
  let window := ChillHourCalculator.determineSeasonDates host seasonStartMonth year in
  e ∈ ChillHourCalculator.filterDataForSeason allData window.1 window.2 ->
  Spec.localDay host window.1 * JSDate.msPerDay <= JSDate.LocalTime host (dateutc e)
  /\ JSDate.LocalTime host (dateutc e) <= Spec.localDay host window.2 * JSDate.msPerDay.
Proof.
  intros Hfixed window He.
  rewrite filterDataForSeason_inWindow in He.
  apply list_elem_of_filter in He as [[H1 H2] _].
  assert (Hw : exists y1 m1 d1 y2 m2 d2,
             window = (JSDate.newDate host y1 m1 d1, JSDate.newDate host y2 m2 d2)).
  { subst window. unfold ChillHourCalculator.determineSeasonDates.
    destruct (seasonStartMonth <=? 6); eauto 10. }
  destruct Hw as (y1 & m1 & d1 & y2 & m2 & d2 & Hw). rewrite Hw in *. simpl in *.
  rewrite <- !(LocalTime_newDate host offset Hfixed).
  rewrite !(LocalTime_fixed host offset Hfixed). lia.
Qed.

Lemma season_filter_midnights_witness :
  JSDate.LocalTime Fixtures.utcHost 1673751600000 <= 19600 * JSDate.msPerDay.
Proof.
  apply (season_filter_midnights Fixtures.utcHost 0 9 (Some 2023) Fixtures.twoHours
           (Fixtures.reading 1673751600000 40)).
  - intros t b. reflexivity.
  - vm_compute. left.
Defined.

(** ** More on requests and the fetch loop *)

Section RequestsMore.
Import AmbientWeatherAPI.
Context (host : JSDate.Host) (server : Server) (rateLimitDelay : Z).

Lemma totalWait_app l1 l2 :
  Pages.totalWait (l1 ++ l2) = Pages.totalWait l1 + Pages.totalWait l2.
Proof. unfold Pages.totalWait. induction l1 as [|x l1 IH]; simpl; lia. Qed.

Lemma totalWait_backoff first n :
  Pages.totalWait (Spec.backoff rateLimitDelay <$> seq (S first) n) =
  rateLimitDelay * 2 ^ Z.of_nat first * (2 ^ Z.of_nat n - 1).
Proof.
  revert first. induction n as [|n IH]; intros first.
  - simpl. lia.
  - cbn [seq fmap list_fmap]. change (list_fmap nat Z ?f ?l) with (f <$> l).
    unfold Pages.totalWait at 1. cbn [foldr]. fold (Pages.totalWait).
    change (foldr Z.add 0 ?l) with (Pages.totalWait l).
    rewrite IH. unfold Spec.backoff.
    replace (Z.of_nat (S first) - 1) with (Z.of_nat first) by lia.
    rewrite !Nat2Z.inj_succ, !Z.pow_succ_r by lia. lia.
Qed.

(** An answer that a request returns is an answer of the service. *)
Lemma makeRequestLoop_Ok req maxRetries : forall fuel retries tr data tr',
  makeRequestLoop server rateLimitDelay fuel req maxRetries retries tr
    = Some (Ok data, tr') ->
  exists i, server i req = Resolved data.
Proof.
  induction fuel as [|fuel IH]; intros retries tr data tr'; simpl; [done|].
  destruct (server (requests tr) req) as [data'|error] eqn:E.
  - intros [= <- <-]. eauto.
  - destruct (isRetryableError error); [|done].
    destruct (maxRetries <=? retries)%nat; [done|]. apply IH.
Qed.

Lemma getDeviceData_Ok macAddress cursor tr data tr' :
  getDeviceData server rateLimitDelay macAddress (Some cursor)
    DEFAULT_READINGS_PER_CHUNK tr = Some (Ok data, tr') ->
  exists i, server i (Spec.pageRequestAt macAddress cursor) = Resolved data.
Proof. unfold getDeviceData, makeRequest. apply makeRequestLoop_Ok. Qed.
End RequestsMore.

(** X9.  Whatever the service answers, a request ends after its first
    attempt and [n] retries with [n <= maxRetries], and the waits it has
    added sum up to [rateLimitDelay * (2^n - 1)]. *)
Theorem makeRequest_effort
    (server : AmbientWeatherAPI.Server) (rateLimitDelay : Z)
    (url : string) (params : AmbientWeatherAPI.Params) (maxRetries : nat)
    (tr : list AmbientWeatherAPI.Event) :
  exists n r tr',
    AmbientWeatherAPI.makeRequest server rateLimitDelay url params maxRetries tr
      = Some (r, tr') /\
    (n <= maxRetries)%nat /\
    AmbientWeatherAPI.requests tr' = (AmbientWeatherAPI.requests tr + 1 + n)%nat /\
    Pages.totalWait (AmbientWeatherAPI.sleeps tr') =
      Pages.totalWait (AmbientWeatherAPI.sleeps tr)
      + rateLimitDelay * (2 ^ Z.of_nat n - 1).
Proof.
  unfold AmbientWeatherAPI.makeRequest.
  destruct (makeRequestLoop_total server rateLimitDelay
              {| AmbientWeatherAPI.url := url; AmbientWeatherAPI.params := params |}
              maxRetries (S maxRetries) 0%nat tr) as (n & r & Hn & Hrun & _); [lia|].
  exists n, r. eexists. split; [exact Hrun|]. split; [lia|].
  rewrite requests_app, requests_retriesFrom, sleeps_app, sleeps_retriesFrom.
  split; [lia|]. rewrite totalWait_app, totalWait_backoff. simpl. lia.
Qed.

Section HonestService.
Import AmbientWeatherAPI.
Context (host : JSDate.Host) (server : Server) (rateLimitDelay : Z).

Local Abbreviation fetchLoop := (fetchLoop host server rateLimitDelay).

Lemma elem_of_concat {A} (x : A) (ls : list (list A)) :
  x ∈ concat ls <-> exists l, l ∈ ls /\ x ∈ l.
Proof.
  induction ls as [|l ls IH]; simpl.
  - split; [by intros ?%elem_of_nil|by intros (? & ?%elem_of_nil & _)].
  - rewrite elem_of_app, IH. split.
    + intros [H|(l' & H1 & H2)]; [exists l; split; [left|done]|exists l'; split; [by right|done]].
    + intros (l' & [->|H1]%elem_of_cons & H2); [by left|right; eauto].
Qed.

(** The pages of a service that honours the end date, from a state of the
    loop on. *)
Lemma fetchLoop_honest macAddress startDate :
  Pages.honoursEndDate server ->
  forall fuel st tr st' tr',
    fetchLoop fuel macAddress startDate st tr = Some (Ok st', tr') ->
    exists pages,
      allData st' = allData st ++ concat pages /\
      Forall (Forall (fun e => dateutc e <= currentEnd st)) pages /\
      Pages.pagesApart pages /\
      Forall (fun page => exists i req, server i req = Resolved page) pages.
Proof.
  intros Hhonest. induction fuel as [|fuel IH]; intros st tr st' tr' Hrun;
    destruct (negb (reachedStartDate st) && (fetchCount st <? MAX_FETCH_OPERATIONS)%nat)
      eqn:Hguard.
  2, 4: (rewrite fetchLoop_exit in Hrun by done; injection Hrun as <- _;
         exists []; simpl; rewrite app_nil_r; by repeat split).
  - cbn [AmbientWeatherAPI.fetchLoop] in Hrun. by rewrite Hguard in Hrun.
  - apply andb_true_iff in Hguard as [Hreached%negb_true_iff Hlt%Nat.ltb_lt].
    destruct (getDeviceData server rateLimitDelay macAddress (Some (currentEnd st))
                DEFAULT_READINGS_PER_CHUNK tr) as [[[chunk|e] tr1]|] eqn:Hget.
    + rewrite (fetchLoop_step host server rateLimitDelay fuel macAddress startDate
                 st tr chunk tr1 Hreached Hlt Hget) in Hrun.
      destruct (getDeviceData_Ok server rateLimitDelay macAddress _ tr chunk tr1 Hget)
        as [i Hi].
      pose proof (Hhonest i _ chunk (currentEnd st) Hi eq_refl) as Hle.
      destruct chunk as [|first rest].
      { injection Hrun as <- _. exists []. simpl. rewrite app_nil_r. by repeat split. }
      cbv zeta in Hrun.
      destruct (mathMin_spec (dateutc first) (dateutc <$> rest)) as [Hin Hmin].
      set (earliest := JS.mathMin (dateutc first) (dateutc <$> rest)) in *.
      assert (Hearliest : earliest <= currentEnd st).
      { change (dateutc first :: (dateutc <$> rest)) with (dateutc <$> first :: rest) in Hin.
        apply list_elem_of_fmap in Hin as (e0 & -> & He0).
        by eapply Forall_forall in Hle. }
      change (dateutc first :: (dateutc <$> rest)) with (dateutc <$> first :: rest) in Hmin.
      rewrite Forall_fmap in Hmin.
      destruct (earliest <=? startDate).
      * injection Hrun as <- _. exists [first :: rest]. simpl. rewrite app_nil_r.
        split; [done|]. split; [constructor; [exact Hle|constructor]|].
        split; [split; [|done]; by intros ? ? ? _ ?%elem_of_nil|].
        constructor; [eauto|constructor].
      * apply IH in Hrun as (pages & Hdata & Hpages & Hapart & Hserver).
        cbn [allData currentEnd] in *.
        exists ((first :: rest) :: pages). simpl.
        split; [by rewrite Hdata, <- app_assoc|].
        split.
        { constructor; [done|]. eapply Forall_impl; [exact Hpages|].
          intros page Hpage. eapply Forall_impl; [exact Hpage|]. simpl. intros; lia. }
        split.
        { split; [|done]. intros e1 page2 e2 He1 Hpage2 He2.
          eapply Forall_forall in Hpages; [|exact Hpage2].
          eapply Forall_forall in Hpages; [|exact He2].
          eapply Forall_forall in Hmin; [|exact He1]. simpl in Hmin. lia. }
        constructor; eauto.
    + cbn [AmbientWeatherAPI.fetchLoop] in Hrun. rewrite Hreached in Hrun.
      apply Nat.ltb_lt in Hlt. rewrite Hlt in Hrun. cbn [negb andb] in Hrun.
      by rewrite Hget in Hrun.
    + cbn [AmbientWeatherAPI.fetchLoop] in Hrun. rewrite Hreached in Hrun.
      apply Nat.ltb_lt in Hlt. rewrite Hlt in Hrun. cbn [negb andb] in Hrun.
      by rewrite Hget in Hrun.
Qed.

Lemma fetchDataInChunks_Ok macAddress startDate endDate tr fetched tr' :
  fetchDataInChunks host server rateLimitDelay macAddress startDate endDate tr
    = Some (Ok fetched, tr') ->
  exists fuel st',
    fetchLoop fuel macAddress startDate
      {| currentEnd := endDate; allData := []; reachedStartDate := false;
         fetchCount := 0 |} tr = Some (Ok st', tr') /\
    fetched = allData st'.
Proof.
  unfold fetchDataInChunks. generalize MAX_FETCH_OPERATIONS at 1. intros fuel.
  destruct (fetchLoop fuel _ _ _ _) as [[[st'|e] tr1]|] eqn:Hloop; intros [= <- <-].
  by exists fuel, st'.
Qed.

Lemma NoDup_pagesApart pages :
  Pages.pagesApart pages ->
  Forall (fun page => NoDup (dateutc <$> page)) pages ->
  NoDup (dateutc <$> concat pages).
Proof.
  induction pages as [|page later IH]; simpl; [constructor|].
  intros [Hpage Hlater] Hnd. apply Forall_cons in Hnd as [Hnd1 Hnd2].
  rewrite fmap_app. apply NoDup_app. split; [done|]. split; [|by apply IH].
  intros t (e1 & -> & He1)%list_elem_of_fmap (e2 & Ht & He2)%list_elem_of_fmap.
  apply elem_of_concat in He2 as (page2 & Hpage2 & He2).
  specialize (Hpage e1 page2 e2 He1 Hpage2 He2). lia.
Qed.

Lemma NoDup_fmap_filter {A B} (f : A -> B) (P : A -> Prop)
    `{!forall x, Decision (P x)} (l : list A) :
  NoDup (f <$> l) -> NoDup (f <$> filter P l).
Proof.
  induction l as [|x l IH]; [done|].
  rewrite fmap_cons, NoDup_cons. intros [Hx Hl].
  rewrite filter_cons. destruct (decide (P x)); [|by apply IH].
  rewrite fmap_cons. apply NoDup_cons. split; [|by apply IH].
  intros (y & Hy & Hin)%list_elem_of_fmap. apply Hx.
  apply list_elem_of_fmap. exists y. split; [done|].
  by apply list_elem_of_filter in Hin as [_ ?].
Qed.

Lemma Sorted_strict (l : list WeatherData) :
  Sorted Spec.chronological l -> NoDup (dateutc <$> l) ->
  Sorted HourSets.strictlyChronological l.
Proof.
  induction 1 as [|x l Hs IH Hhd]; [constructor|].
  rewrite fmap_cons, NoDup_cons. intros [Hx Hnd]. constructor; [by apply IH|].
  destruct Hhd as [|y l Hxy]; constructor.
  unfold Spec.chronological, HourSets.strictlyChronological in *.
  assert (dateutc x <> dateutc y); [|lia].
  intros Heq. apply Hx. rewrite Heq. simpl. left.
Qed.
End HonestService.

(** X10.  With a service that honours the end date of a request, the pages
    that the fetch loop collects do not overlap: every reading of a later
    page is at least a second older than every reading of an earlier page,
    and no reading is later than the end date. *)
Theorem fetched_pages_apart
    (host : JSDate.Host) (server : AmbientWeatherAPI.Server) (rateLimitDelay : Z)
    (macAddress : string) (startDate endDate : Z)
    (tr tr' : list AmbientWeatherAPI.Event) (fetched : list WeatherData) :
  Pages.honoursEndDate server ->
  AmbientWeatherAPI.fetchDataInChunks host server rateLimitDelay macAddress
    startDate endDate tr = Some (AmbientWeatherAPI.Ok fetched, tr') ->
  exists pages,
    fetched = concat pages /\
    Pages.pagesApart pages /\
    Forall (Forall (fun e => dateutc e <= endDate)) pages /\
    Forall (fun page => exists i req, server i req = AmbientWeatherAPI.Resolved page) pages.
Proof.
  intros Hhonest Hrun.
  apply fetchDataInChunks_Ok in Hrun as (fuel & st' & Hloop & ->).
  apply (fetchLoop_honest host server rateLimitDelay macAddress startDate Hhonest)
    in Hloop as (pages & Hdata & Hle & Hapart & Hserver).
  exists pages. cbn [AmbientWeatherAPI.allData AmbientWeatherAPI.currentEnd app] in *.
  by repeat split.
Qed.

(** X11.  With a service that honours the end date and has no two readings
    of one instant in a page, the range fetch returns readings with
    strictly ascending timestamps: no timestamp comes twice. *)
Theorem range_fetch_strictly_ascending
    (host : JSDate.Host) (server : AmbientWeatherAPI.Server) (rateLimitDelay : Z)
    (macAddress : string) (startDate : Z) (endDate maxDays : option Z)
    (tr tr' : list AmbientWeatherAPI.Event) (result : list WeatherData) :
  Pages.honoursEndDate server ->
  Pages.distinctInPage server ->
  AmbientWeatherAPI.getDeviceDataForDateRange host server rateLimitDelay macAddress
    startDate endDate maxDays tr = Some (AmbientWeatherAPI.Ok result, tr') ->
  Sorted HourSets.strictlyChronological result /\ NoDup (dateutc <$> result).
Proof.
  intros Hhonest Hdistinct Hrun.
  destruct (getDeviceDataForDateRange_Ok host server rateLimitDelay macAddress
              startDate endDate maxDays tr result tr' Hrun) as (fetched & Hfetch & ->).
  destruct (processRetrievedData_spec fetched startDate
              (default (JSDate.now host) endDate)) as (Hs & Hp & _).
  apply fetchDataInChunks_Ok in Hfetch as (fuel & st' & Hloop & ->).
  apply (fetchLoop_honest host server rateLimitDelay macAddress startDate Hhonest)
    in Hloop as (pages & Hdata & _ & Hapart & Hserver).
  cbn [AmbientWeatherAPI.allData app] in Hdata.
  assert (Hnd : NoDup (dateutc <$> AmbientWeatherAPI.processRetrievedData
                         (AmbientWeatherAPI.allData st') startDate
                         (default (JSDate.now host) endDate))).
  { rewrite Hp. apply NoDup_fmap_filter. rewrite Hdata.
    apply NoDup_pagesApart; [done|].
    eapply Forall_impl; [exact Hserver|]. intros page (i & req & Hi). eauto. }
  split; [by apply Sorted_strict|done].
Qed.

Lemma hourly_honoursEndDate : Pages.honoursEndDate Fixtures.hourly.
Proof.
  intros i req data t H Ht. unfold Fixtures.hourly in H. rewrite Ht in H.
  injection H as <-. constructor; [simpl; lia|constructor].
Qed.

Lemma hourly_distinctInPage : Pages.distinctInPage Fixtures.hourly.
Proof.
  intros i req data H. unfold Fixtures.hourly in H.
  destruct (AmbientWeatherAPI.endDate _); injection H as <-; simpl;
    repeat constructor; by intros ?%elem_of_nil.
Qed.

Lemma fetched_pages_apart_witness :
  exists pages,
    [Fixtures.reading (-3600000) 40; Fixtures.reading (-7201000) 40] = concat pages /\
    Pages.pagesApart pages.
Proof.
  destruct (fetched_pages_apart Fixtures.utcHost Fixtures.hourly 1000 "AA"
              (-7200000) 0 []
              ltac:(let v := eval vm_compute in
                      (match AmbientWeatherAPI.fetchDataInChunks Fixtures.utcHost
                               Fixtures.hourly 1000 "AA" (-7200000) 0 [] with
                       | Some (_, tr') => tr' | None => [] end) in exact v)
              [Fixtures.reading (-3600000) 40; Fixtures.reading (-7201000) 40])
    as (pages & H1 & H2 & _).
  - exact hourly_honoursEndDate.
  - vm_compute. reflexivity.
  - exists pages. split; [exact H1|exact H2].
Defined.

Lemma range_fetch_strictly_ascending_witness :
  Sorted HourSets.strictlyChronological [Fixtures.reading (-3600000) 40].
Proof.
  apply (range_fetch_strictly_ascending Fixtures.utcHost Fixtures.hourly 1000
           "AA" (-7200000) (Some 0) None []
           ltac:(let v := eval vm_compute in
                   (match AmbientWeatherAPI.getDeviceDataForDateRange Fixtures.utcHost
                            Fixtures.hourly 1000 "AA" (-7200000) (Some 0) None [] with
                    | Some (_, tr') => tr' | None => [] end) in exact v)
           [Fixtures.reading (-3600000) 40]).
  - exact hourly_honoursEndDate.
  - exact hourly_distinctInPage.
  - vm_compute. reflexivity.
Defined.

Section Endpoints.
Import AmbientWeatherAPI.
Context (host : JSDate.Host) (server : Server) (rateLimitDelay : Z).

Local Abbreviation fetchLoop := (fetchLoop host server rateLimitDelay).

Lemma deviceEvent_attempts macAddress cursor n :
  Forall (Pages.deviceEvent macAddress)
         (Spec.attempts (Spec.pageRequestAt macAddress cursor) rateLimitDelay n).
Proof.
  unfold Spec.attempts, Spec.retriesFrom. constructor; [simpl; eauto|].
  generalize 1%nat. induction n as [|n IH]; intros first; [constructor|].
  cbn [seq flat_map app]. constructor; [done|]. constructor; [simpl; eauto|apply IH].
Qed.

(** What the loop adds to the trace, from a state on. *)
Lemma fetchLoop_events macAddress startDate : forall fuel st tr r tr',
  fetchLoop fuel macAddress startDate st tr = Some (r, tr') ->
  exists events,
    tr' = tr ++ events /\
    Forall (Pages.deviceEvent macAddress) events /\
    (reachedStartDate st = false -> (fetchCount st < MAX_FETCH_OPERATIONS)%nat ->
     head events = Some (Get (Spec.pageRequestAt macAddress (currentEnd st)))).
Proof.
  induction fuel as [|fuel IH]; intros st tr r tr' Hrun;
    destruct (negb (reachedStartDate st) && (fetchCount st <? MAX_FETCH_OPERATIONS)%nat)
      eqn:Hguard.
  2, 4: (rewrite fetchLoop_exit in Hrun by done; injection Hrun as _ <-;
         exists []; rewrite app_nil_r; split; [done|]; split; [constructor|];
         intros Hr Hlt%Nat.ltb_lt; rewrite Hr, Hlt in Hguard; done).
  - cbn [AmbientWeatherAPI.fetchLoop] in Hrun. by rewrite Hguard in Hrun.
  - apply andb_true_iff in Hguard as [Hreached%negb_true_iff Hlt%Nat.ltb_lt].
    destruct (getDeviceData_total server rateLimitDelay macAddress (currentEnd st) tr)
      as (n & r1 & _ & Hget & _).
    pose proof (deviceEvent_attempts macAddress (currentEnd st) n) as Hatt.
    assert (Hhead : forall rest,
              head (Spec.attempts (Spec.pageRequestAt macAddress (currentEnd st))
                      rateLimitDelay n ++ rest) =
              Some (Get (Spec.pageRequestAt macAddress (currentEnd st)))) by done.
    destruct r1 as [chunk|e].
    + rewrite (fetchLoop_step host server rateLimitDelay fuel macAddress startDate
                 st tr chunk _ Hreached Hlt Hget) in Hrun.
      destruct chunk as [|first rest];
        [|cbv zeta in Hrun;
          destruct (JS.mathMin (dateutc first) (dateutc <$> rest) <=? startDate)].
      * injection Hrun as _ <-. eexists. split; [done|]. split; [done|].
        intros _ _. rewrite <- (app_nil_r (Spec.attempts _ _ _)). apply Hhead.
      * injection Hrun as _ <-. eexists. split; [done|]. split; [done|].
        intros _ _. rewrite <- (app_nil_r (Spec.attempts _ _ _)). apply Hhead.
      * apply IH in Hrun as (events & -> & Hev & _).
        eexists. rewrite <- !app_assoc. split; [done|]. split.
        { apply Forall_app. split; [done|]. by constructor. }
        intros _ _. apply Hhead.
    + cbn [AmbientWeatherAPI.fetchLoop] in Hrun. rewrite Hreached in Hrun.
      apply Nat.ltb_lt in Hlt. rewrite Hlt in Hrun. cbn [negb andb] in Hrun.
      rewrite Hget in Hrun. injection Hrun as _ <-.
      eexists. split; [done|]. split; [done|].
      intros _ _. rewrite <- (app_nil_r (Spec.attempts _ _ _)). apply Hhead.
Qed.

Lemma fetchLoop_step_Throw fuel macAddress startDate st tr e tr1 :
  reachedStartDate st = false ->
  (fetchCount st < MAX_FETCH_OPERATIONS)%nat ->
  getDeviceData server rateLimitDelay macAddress (Some (currentEnd st))
    DEFAULT_READINGS_PER_CHUNK tr = Some (Throw e, tr1) ->
  fetchLoop (S fuel) macAddress startDate st tr = Some (Throw e, tr1).
Proof.
  intros Hreached Hlt%Nat.ltb_lt Hget. cbn [AmbientWeatherAPI.fetchLoop].
  rewrite Hreached, Hlt. cbn [negb andb]. by rewrite Hget.
Qed.

Lemma ceilDiv_spec a b :
  0 < b -> a <= JS.ceilDiv a b * b < a + b.
Proof. intros Hb. unfold JS.ceilDiv. Z.div_mod_to_equations. nia. Qed.
End Endpoints.

(** X12.  Whatever it returns, the range fetch only adds waits and
    requests for readings of the one device, 500 at most per request, to
    the trace, and its first request asks for the readings up to the end
    date. *)
Theorem range_fetch_requests
    (host : JSDate.Host) (server : AmbientWeatherAPI.Server) (rateLimitDelay : Z)
    (macAddress : string) (startDate : Z) (endDate maxDays : option Z)
    (tr tr' : list AmbientWeatherAPI.Event)
    (r : AmbientWeatherAPI.Result (list WeatherData)) :
  AmbientWeatherAPI.getDeviceDataForDateRange host server rateLimitDelay macAddress
    startDate endDate maxDays tr = Some (r, tr') ->
  exists events,
    tr' = tr ++ events /\
    Forall (Pages.deviceEvent macAddress) events /\
    head events =
      Some (AmbientWeatherAPI.Get
              (Spec.pageRequestAt macAddress (default (JSDate.now host) endDate))).
Proof.
  unfold AmbientWeatherAPI.getDeviceDataForDateRange,
    AmbientWeatherAPI.fetchDataInChunks. cbv zeta.
  generalize AmbientWeatherAPI.MAX_FETCH_OPERATIONS at 1. intros fuel Hrun.
  destruct (AmbientWeatherAPI.fetchLoop _ _ _ fuel _ _ _ _) as [[r1 tr1]|] eqn:Hloop;
    [|done].
  assert (tr1 = tr') as -> by (destruct r1; by injection Hrun).
  apply fetchLoop_events in Hloop as (events & -> & Hev & Hhead).
  exists events. split; [done|]. split; [done|].
  apply Hhead; [done|]. cbn. unfold AmbientWeatherAPI.MAX_FETCH_OPERATIONS. lia.
Qed.

Lemma range_fetch_requests_witness :
  exists events,
    Forall (Pages.deviceEvent "AA") events /\
    head events = Some (AmbientWeatherAPI.Get (Spec.pageRequestAt "AA" 1000)).
Proof.
  destruct (range_fetch_requests Fixtures.utcHost Fixtures.twiceBusy 1000 "AA" 1000
              (Some 1000) None []
              ltac:(let v := eval vm_compute in
                      (match AmbientWeatherAPI.getDeviceDataForDateRange Fixtures.utcHost
                               Fixtures.twiceBusy 1000 "AA" 1000 (Some 1000) None [] with
                       | Some (_, tr') => tr' | None => [] end) in exact v)
              (AmbientWeatherAPI.Ok [Fixtures.reading 1000 40]))
    as (events & _ & H1 & H2).
  - vm_compute. reflexivity.
  - exists events. split; [exact H1|exact H2].
Defined.


(** X14.  When the service rejects the first request of a range fetch
    with an error that is not a 429 or 5xx response, the fetch throws that
    error after this one request and without a wait. *)
Theorem range_fetch_first_rejection
    (host : JSDate.Host) (server : AmbientWeatherAPI.Server) (rateLimitDelay : Z)
    (macAddress : string) (startDate : Z) (endDate maxDays : option Z)
    (tr : list AmbientWeatherAPI.Event) (error : AmbientWeatherAPI.AxiosError) :
  let req := Spec.pageRequestAt macAddress (default (JSDate.now host) endDate) in
  server (AmbientWeatherAPI.requests tr) req = AmbientWeatherAPI.Rejected error ->
  ~ Spec.retryable (AmbientWeatherAPI.Rejected error) ->
  AmbientWeatherAPI.getDeviceDataForDateRange host server rateLimitDelay macAddress
    startDate endDate maxDays tr =
  Some (AmbientWeatherAPI.Throw error, tr ++ [AmbientWeatherAPI.Get req]).
Proof.
  intros req Hrej Hnot.
  assert (Hget : AmbientWeatherAPI.getDeviceData server rateLimitDelay macAddress
                   (Some (default (JSDate.now host) endDate))
                   AmbientWeatherAPI.DEFAULT_READINGS_PER_CHUNK tr =
                 Some (AmbientWeatherAPI.Throw error, tr ++ [AmbientWeatherAPI.Get req])).
  { change (AmbientWeatherAPI.makeRequestLoop server rateLimitDelay
              (S AmbientWeatherAPI.DEFAULT_MAX_RETRIES) req
              AmbientWeatherAPI.DEFAULT_MAX_RETRIES 0 tr =
            Some (AmbientWeatherAPI.Throw error, tr ++ [AmbientWeatherAPI.Get req])).
    unfold AmbientWeatherAPI.DEFAULT_MAX_RETRIES.
    rewrite (makeRequestLoop_run server rateLimitDelay req 3 0 4 0 tr);
      rewrite ?Nat.add_0_r.
    - rewrite Hrej. reflexivity.
    - lia.
    - lia.
    - intros i Hi. lia.
    - intros _. by rewrite Hrej. }
  unfold AmbientWeatherAPI.getDeviceDataForDateRange,
    AmbientWeatherAPI.fetchDataInChunks. cbv zeta.
  change AmbientWeatherAPI.MAX_FETCH_OPERATIONS with (S 99) at 1.
  erewrite fetchLoop_step_Throw; [reflexivity|reflexivity| |exact Hget].
  cbn [AmbientWeatherAPI.fetchCount]. unfold AmbientWeatherAPI.MAX_FETCH_OPERATIONS. lia.
Qed.

Lemma range_fetch_first_rejection_witness :
  AmbientWeatherAPI.getDeviceDataForDateRange Fixtures.utcHost Fixtures.unauthorized
    1000 "AA" 0 (Some 1000) None [] =
  Some (AmbientWeatherAPI.Throw {| AmbientWeatherAPI.status := Some 401 |},
        [AmbientWeatherAPI.Get (Spec.pageRequestAt "AA" 1000)]).
Proof.
  apply (range_fetch_first_rejection Fixtures.utcHost Fixtures.unauthorized 1000
           "AA" 0 (Some 1000) None []).
  - reflexivity.
  - intros (st & [= <-] & H). lia.
Defined.

(** ** The [chill] command *)

Section ChillCommand.
Import JSDate CommandLine.
Context (host : Host) (server : AmbientWeatherAPI.Server).

Lemma seasonDates_determineSeasonDates seasonStartMonth year :
  seasonDates host seasonStartMonth (Seasons.effectiveYear host year) =
  ChillHourCalculator.determineSeasonDates host seasonStartMonth
    (Some (Seasons.effectiveYear host year)).
Proof.
  unfold seasonDates, ChillHourCalculator.determineSeasonDates,
    ChillHourCalculator.DECEMBER_MONTH.
  destruct (Z.eqb_spec (Seasons.effectiveYear host year) 0) as [H0|_]; [|done].
  assert (Hc : getFullYear host (now host) = Seasons.effectiveYear host year).
  { unfold Seasons.effectiveYear in *. destruct year as [y|]; [|done].
    destruct (Z.eqb_spec y 0); [done|congruence]. }
  by rewrite Hc.
Qed.

(** What the season branch reports, in terms of the readings fetched. *)
Lemma chill_season_data config options tr r tr' :
  season options = true ->
  chill host server config options tr = Some (Reported r, tr') ->
  let y := Seasons.effectiveYear host (year options) in
  let window :=
    ChillHourCalculator.determineSeasonDates host (seasonStart config) (Some y) in
  exists data,
    Sorted Spec.chronological data /\
    Forall (Spec.inWindow window.1 (now host)) data /\
    r = ChillHourCalculator.calculateSeasonChillHours host
          (chillHourMin config) (chillHourMax config) data (seasonStart config) (Some y).
Proof.
  intros Hseason Hrun y window. unfold chill in Hrun.
  destruct (truthy (Some (apiKey config))); [|done].
  destruct (truthy (match truthy (mac options) with
                    | Some m => Some m
                    | None => defaultStationMac config
                    end)) as [stationMac|]; [|done].
  rewrite Hseason in Hrun. cbv zeta in Hrun.
  match type of Hrun with
  | context [seasonDates host ?m ?yy] => change yy with y in Hrun
  end.
  unfold y in Hrun at 1. rewrite seasonDates_determineSeasonDates in Hrun.
  fold y in Hrun. fold window in Hrun.
  destruct window as [ws we] eqn:Hw.
  destruct (AmbientWeatherAPI.getDeviceDataForDateRange _ _ _ _ _ _ _ _)
    as [[[data|err] tr1]|] eqn:Hfetch; [|done..].
  injection Hrun as <- <-.
  apply getDeviceDataForDateRange_Ok in Hfetch as (fetched & _ & ->).
  destruct (processRetrievedData_spec fetched ws (now host)) as (Hs & _ & Hin).
  eexists. split; [exact Hs|]. split; [exact Hin|]. reflexivity.
Qed.

Lemma setDate_fixed offset t k :
  Zones.fixedOffset host offset ->
  setDate host t (getDate host t - k) = t - k * msPerDay.
Proof.
  intros Hfixed. unfold setDate, getDate.
  rewrite (UTC_fixed host offset Hfixed). cbv zeta.
  set (l := LocalTime host t).
  rewrite MakeDay_in_year by apply MonthFromTime_range.
  pose proof (Day_of_fields l) as Hday. unfold InLeapYear in Hday.
  unfold MakeDate, TimeWithinDay.
  replace (DayFromYear (YearFromTime l)
           + monthStart (if isLeapYear (YearFromTime l) then 1 else 0) (MonthFromTime l)
           + (DateFromTime l - k) - 1) with (Day l - k) by lia.
  unfold Day. pose proof (Z.div_mod l msPerDay ltac:(unfold msPerDay; lia)) as Hdm.
  subst l. rewrite (LocalTime_fixed host offset Hfixed) in *. lia.
Qed.
End ChillCommand.

(** X15.  Without an API key, or without a station in the options and in
    the configuration, the command ends with its complaint and makes no
    request. *)
Theorem chill_without_credentials
    (host : JSDate.Host) (server : AmbientWeatherAPI.Server)
    (config : CommandLine.Config) (options : CommandLine.ChillOptions)
    (tr : list AmbientWeatherAPI.Event) :
  CommandLine.apiKey config = EmptyString \/
  (CommandLine.truthy (CommandLine.mac options) = None /\
   CommandLine.truthy (CommandLine.defaultStationMac config) = None) ->
  exists outcome,
    CommandLine.chill host server config options tr = Some (outcome, tr) /\
    (outcome = CommandLine.ApiKeyMissing \/ outcome = CommandLine.StationMissing).
Proof.
  intros H. unfold CommandLine.chill.
  destruct (CommandLine.apiKey config) as [|c key] eqn:Hkey.
  { exists CommandLine.ApiKeyMissing. split; [done|by left]. }
  destruct H as [H|[Hmac Hdefault]]; [done|].
  cbn [CommandLine.truthy]. rewrite Hmac, Hdefault.
  exists CommandLine.StationMissing. split; [done|by right].
Qed.

Lemma chill_without_credentials_witness :
  CommandLine.chill Fixtures.utcHost Fixtures.oneReading
    {| CommandLine.apiKey := "key"; CommandLine.applicationKey := None;
       CommandLine.defaultStationMac := None; CommandLine.seasonStart := 9;
       CommandLine.chillHourMin := 32; CommandLine.chillHourMax := 45;
       CommandLine.rateLimitDelay := None |}
    {| CommandLine.mac := Some EmptyString; CommandLine.days := 7;
       CommandLine.year := None; CommandLine.season := false |} [] =
  Some (CommandLine.StationMissing, []).
Proof.
  destruct (chill_without_credentials Fixtures.utcHost Fixtures.oneReading
              {| CommandLine.apiKey := "key"; CommandLine.applicationKey := None;
                 CommandLine.defaultStationMac := None; CommandLine.seasonStart := 9;
                 CommandLine.chillHourMin := 32; CommandLine.chillHourMax := 45;
                 CommandLine.rateLimitDelay := None |}
              {| CommandLine.mac := Some EmptyString; CommandLine.days := 7;
                 CommandLine.year := None; CommandLine.season := false |} [])
    as (outcome & Hrun & _).
  - right. split; reflexivity.
  - reflexivity.
Defined.


(** X17.  When the season window starts after the time of the run, a
    season report has no hours: it is the empty report that names the
    window. *)
Theorem chill_future_season
    (host : JSDate.Host) (server : AmbientWeatherAPI.Server)
    (config : CommandLine.Config) (options : CommandLine.ChillOptions)
    (tr tr' : list AmbientWeatherAPI.Event) (r : ChillHourReport) :
  CommandLine.season options = true ->
  CommandLine.chill host server config options tr = Some (CommandLine.Reported r, tr') ->
  let y := Seasons.effectiveYear host (CommandLine.year options) in
  let window :=
    ChillHourCalculator.determineSeasonDates host (CommandLine.seasonStart config)
      (Some y) in
  JSDate.now host < window.1 ->
  r = ChillHourCalculator.createEmptyReport
        (JSDate.toLocaleDateString host window.1 +:+ " to "
         +:+ JSDate.toLocaleDateString host window.2 +:+ " (no data)")%string.
Proof.
  intros Hseason Hrun y window Hfuture.
  destruct (chill_season_data host server config options tr r tr' Hseason Hrun)
    as (data & _ & Hin & ->).
  fold y window in Hin |- *.
  assert (data = []) as ->.
  { destruct data as [|e data]; [done|].
    apply Forall_cons in Hin as [[H1 H2] _]. lia. }
  unfold ChillHourCalculator.calculateSeasonChillHours. fold window.
  by destruct window.
Qed.



Lemma chill_future_season_witness :
  exists r tr',
    CommandLine.chill Fixtures.utcHost Fixtures.oneReading Runs.config
      (Runs.seasonOf 2030) [] = Some (CommandLine.Reported r, tr') /\
    r = ChillHourCalculator.createEmptyReport "2029-9-1 to 2030-8-31 (no data)".
Proof.
  assert (Hrun :
    CommandLine.chill Fixtures.utcHost Fixtures.oneReading Runs.config (Runs.seasonOf 2030) []
    = Some (CommandLine.Reported
              {| totalHours := 0; chillHours := 0;
                 date := "2029-9-1 to 2030-8-31 (no data)"; percentChillHours := 0 |},
            [AmbientWeatherAPI.Get (Spec.pageRequestAt "AA" 1717200000000)]))
    by (vm_compute; reflexivity).
  eexists _, _. split; [exact Hrun|].
  apply (chill_future_season Fixtures.utcHost Fixtures.oneReading Runs.config
           (Runs.seasonOf 2030) [] _ _ eq_refl Hrun).
  vm_compute. reflexivity.
Defined.


Section SeasonLog.
Import JSDate ChillHourCalculator.

Lemma roundDiv_mul k b : 0 < b -> JS.roundDiv (k * b) b = k.
Proof. intros Hb. unfold JS.roundDiv. Z.div_mod_to_equations. nia. Qed.

Lemma roundDiv_mono a a' b : 0 < b -> a <= a' -> JS.roundDiv a b <= JS.roundDiv a' b.
Proof. intros Hb Ha. unfold JS.roundDiv. apply Z.div_le_mono; lia. Qed.

Lemma roundDiv_nonneg a b : 0 < b -> 0 <= a -> 0 <= JS.roundDiv a b.
Proof. intros Hb Ha. unfold JS.roundDiv. apply Z.div_pos; lia. Qed.

Lemma mathMax_spec t ts :
  JS.mathMax t ts ∈ t :: ts /\ Forall (fun x => x <= JS.mathMax t ts) (t :: ts).
Proof.
  unfold JS.mathMax. induction ts as [|x ts [IHin IHle]]; simpl.
  - split; [by left|]. repeat constructor. lia.
  - split.
    + rewrite !elem_of_cons in *.
      destruct (Z.max_spec x (foldr Z.max t ts)) as [[_ ->]|[_ ->]]; tauto.
    + inversion IHle as [|? ? Ht Hts]; subst.
      constructor; [lia|]. constructor; [lia|].
      eapply Forall_impl; [exact Hts|]. simpl. intros; lia.
Qed.

(** The earliest and latest timestamps of a non-empty array. *)
Lemma findDateRange_spec (data : list WeatherData) :
  data <> [] ->
  let range := ChillHourCalculatorLog.findDateRange data in
  range.1 ∈ dateutc <$> data /\ range.2 ∈ dateutc <$> data /\
  Forall (fun e => range.1 <= dateutc e <= range.2) data.
Proof.
  intros Hne. destruct data as [|e data]; [done|].
  unfold ChillHourCalculatorLog.findDateRange. cbn [fmap list_fmap fst snd].
  change (list_fmap WeatherData Z dateutc data) with (dateutc <$> data).
  destruct (mathMin_spec (dateutc e) (dateutc <$> data)) as [Hin1 Hle1].
  destruct (mathMax_spec (dateutc e) (dateutc <$> data)) as [Hin2 Hle2].
  split; [done|]. split; [done|].
  change (dateutc e :: (dateutc <$> data)) with (dateutc <$> e :: data) in Hle1, Hle2.
  rewrite Forall_fmap in Hle1, Hle2.
  apply Forall_forall. intros x Hx.
  eapply Forall_forall in Hle1; [|exact Hx]. eapply Forall_forall in Hle2; [|exact Hx].
  simpl in *. lia.
Qed.
End SeasonLog.

(** X19.  In a zone with a fixed offset, for a start month from 7 to 12
    and a target year outside 0..100, the number of days between the two
    dates of the season window, which the calculator logs as the duration
    of the season, is 364, or 365 when the target year is a leap year:
    one less than the number of days of the window. *)
Theorem season_duration_logged
    (host : JSDate.Host) (offset : Z) (seasonStartMonth year : Z) :
  Zones.fixedOffset host offset ->
  7 <= seasonStartMonth <= 12 ->
  year < 0 \/ 100 < year ->
  let window := ChillHourCalculator.determineSeasonDates host seasonStartMonth (Some year) in
  ChillHourCalculator.calculateDaysBetween window.1 window.2 =
  364 + (if JSDate.isLeapYear year then 1 else 0).
Proof.
  intros Hfixed Hm Hy window. subst window.
  unfold ChillHourCalculator.determineSeasonDates.
  replace (year =? 0) with false by (symmetry; apply Z.eqb_neq; lia).
  replace (seasonStartMonth <=? 6) with false by (symmetry; apply Z.leb_gt; lia).
  cbn [fst snd]. unfold ChillHourCalculator.calculateDaysBetween, JSDate.newDate.
  replace ((0 <=? year) && (year <=? 99)) with false
    by (symmetry; apply andb_false_iff; lia).
  replace ((0 <=? year - 1) && (year - 1 <=? 99)) with false
    by (symmetry; apply andb_false_iff; lia).
  rewrite !(UTC_fixed host offset Hfixed). unfold JSDate.MakeDate.
  rewrite !MakeDay_in_year by lia.
  pose proof (DayFromYear_succ (year - 1)) as Hsucc.
  replace (year - 1 + 1) with year in Hsucc by lia. unfold JSDate.DaysInYear in Hsucc.
  set (leap := if JSDate.isLeapYear year then 1 else 0).
  set (leap' := if JSDate.isLeapYear (year - 1) then 1 else 0).
  assert (Hleap' : JSDate.DayFromYear year = JSDate.DayFromYear (year - 1) + 365 + leap').
  { subst leap'. destruct (JSDate.isLeapYear (year - 1)); lia. }
  assert (Hms : JSDate.monthStart leap (seasonStartMonth - 1)
                - JSDate.monthStart leap' (seasonStartMonth - 1) = leap - leap').
  { assert (Hc : seasonStartMonth = 7 \/ seasonStartMonth = 8 \/ seasonStartMonth = 9 \/
                 seasonStartMonth = 10 \/ seasonStartMonth = 11 \/ seasonStartMonth = 12)
      by lia.
    destruct Hc as [->|[->|[->|[->|[->| ->]]]]]; simpl; lia. }
  unfold ChillHourCalculator.MILLISECONDS_PER_DAY.
  replace (24 * 60 * 60 * 1000) with JSDate.msPerDay by reflexivity.
  match goal with
  | |- JS.roundDiv ?a _ = _ =>
      replace a with ((364 + leap) * JSDate.msPerDay) by lia
  end.
  apply roundDiv_mul. reflexivity.
Qed.

Lemma season_duration_logged_witness :
  ChillHourCalculator.calculateDaysBetween 1661990400000 1693440000000 = 364.
Proof.
  apply (season_duration_logged Fixtures.utcHost 0 9 2023).
  - intros t b. reflexivity.
  - lia.
  - lia.
Defined.

(** X20.  For the readings of a season that has some, the days from the
    earliest to the latest reading, which the calculator logs as the
    coverage, are at least 0 and at most the days between the two dates
    of the season window. *)
Theorem season_coverage_days
    (host : JSDate.Host) (minTemp maxTemp : Q) (allData : list WeatherData)
    (seasonStartMonth : Z) (year : option Z) :
  let window := ChillHourCalculator.determineSeasonDates host seasonStartMonth year in
  let seasonData := ChillHourCalculator.filterDataForSeason allData window.1 window.2 in
  let range := ChillHourCalculatorLog.findDateRange seasonData in
  seasonData <> [] ->
  0 <= ChillHourCalculator.calculateDaysBetween range.1 range.2
    <= ChillHourCalculator.calculateDaysBetween window.1 window.2.
Proof.
  intros window seasonData range Hne.
  destruct (findDateRange_spec seasonData Hne) as (H1 & H2 & Hall).
  fold range in H1, H2, Hall.
  assert (Hw : Forall (Spec.inWindow window.1 window.2) seasonData).
  { subst seasonData. rewrite filterDataForSeason_inWindow.
    apply Forall_forall. intros e He. by apply list_elem_of_filter in He as [? _]. }
  apply list_elem_of_fmap in H1 as (e1 & He1 & Hin1).
  apply list_elem_of_fmap in H2 as (e2 & He2 & Hin2).
  pose proof Hin1 as Hr1. eapply Forall_forall in Hr1; [|exact Hall].
  eapply Forall_forall in Hin1; [|exact Hw]. eapply Forall_forall in Hin2; [|exact Hw].
  unfold Spec.inWindow in *. simpl in Hr1.
  unfold ChillHourCalculator.calculateDaysBetween. split.
  - apply roundDiv_nonneg; [reflexivity|lia].
  - apply roundDiv_mono; [reflexivity|lia].
Qed.

Lemma season_coverage_days_witness :
  0 <= ChillHourCalculator.calculateDaysBetween 1673751600000 1673755800000 <= 364.
Proof.
  apply (season_coverage_days Fixtures.utcHost 32 45 Fixtures.twoHours 9 (Some 2023)).
  vm_compute. discriminate.
Defined.

(** X21.  The percentage of a report of the aggregator, for a list of
    readings or for a season, lies between 0 and 100. *)
Theorem report_percentage_bounds
    (host : JSDate.Host) (minTemp maxTemp : Q) (data : list WeatherData)
    (seasonStartMonth : Z) (year : option Z) :
  let r := ChillHourCalculator.calculateChillHours host minTemp maxTemp data in
  let r' := ChillHourCalculator.calculateSeasonChillHours host minTemp maxTemp data
              seasonStartMonth year in
  (0 <= percentChillHours r <= 100)%Q /\ (0 <= percentChillHours r' <= 100)%Q.
Proof.
  assert (H : forall l,
            (0 <= percentChillHours
                    (ChillHourCalculator.calculateChillHours host minTemp maxTemp l)
             <= 100)%Q).
  { intros l.
    destruct (calculateChillHours_counts host minTemp maxTemp l) as [Hle ->].
    destruct (0 <? totalHours _)%nat eqn:Hpos; [|split; discriminate].
    apply Nat.ltb_lt in Hpos. by apply percentage_bounds. }
  intros r r'. split; [apply H|]. subst r'.
  unfold ChillHourCalculator.calculateSeasonChillHours.
  destruct (ChillHourCalculator.determineSeasonDates _ _ _) as [s e].
  destruct (length _ =? 0)%nat; [split; discriminate|apply H].
Qed.

(** X22.  More readings never give fewer hours: the report of two lists
    of readings taken together has at least as many hours as the report of
    each, and at most as many as both reports together. *)
Theorem report_hours_append
    (host : JSDate.Host) (minTemp maxTemp : Q) (data1 data2 : list WeatherData) :
  let hoursOf l :=
    totalHours (ChillHourCalculator.calculateChillHours host minTemp maxTemp l) in
  (hoursOf data1 <= hoursOf (data1 ++ data2))%nat /\
  (hoursOf data2 <= hoursOf (data1 ++ data2))%nat /\
  (hoursOf (data1 ++ data2) <= hoursOf data1 + hoursOf data2)%nat.
Proof.
  intros hoursOf. subst hoursOf. cbv beta.
  destruct (calculateChillHours_hours host minTemp maxTemp data1) as [-> _].
  destruct (calculateChillHours_hours host minTemp maxTemp data2) as [-> _].
  destruct (calculateChillHours_hours host minTemp maxTemp (data1 ++ data2)) as [-> _].
  assert (Hu : HourSets.hours host (data1 ++ data2) =
               HourSets.hours host data1 ∪ HourSets.hours host data2).
  { unfold HourSets.hours. by rewrite fmap_app, list_to_set_app_L. }
  rewrite Hu. split; [apply subseteq_size, union_subseteq_l|].
  split; [apply subseteq_size, union_subseteq_r|].
  rewrite size_union_alt.
  pose proof (subseteq_size (HourSets.hours host data2 ∖ HourSets.hours host data1)
                (HourSets.hours host data2)) as Hd.
  assert (Hsub : HourSets.hours host data2 ∖ HourSets.hours host data1
                 ⊆ HourSets.hours host data2).
  { intros k Hk. by apply elem_of_difference in Hk as [Hk _]. }
  specialize (Hd Hsub). lia.
Qed.

Section SortFilter.
Context {A : Type} (key : A -> Z).
Local Abbreviation cmp' := (fun a b : A => key a - key b).
Context (P : A -> Prop) `{!forall x, Decision (P x)}.

Lemma filter_insertSorted_in x l :
  Sorted (fun a b => key a <= key b) l -> P x ->
  filter P (JS.insertSorted cmp' x l) = JS.insertSorted cmp' x (filter P l).
Proof.
  intros Hs Hx. induction Hs as [|y l Hs IH Hhd]; simpl.
  - by rewrite filter_cons_True.
  - destruct (Z.leb_spec (key x - key y) 0) as [Hle|Hgt].
    + rewrite (filter_cons_True _ x) by done.
      symmetry. apply insertSorted_HdRel_id.
      assert (Hall : Forall (fun b => key x <= key b) (y :: l)).
      { assert (Hy : Forall (fun b => key y <= key b) l).
        { apply (Sorted_extends (R:=fun a b => key a <= key b)); [|by constructor].
          intros a b c ? ?. lia. }
        constructor; [lia|]. eapply Forall_impl; [exact Hy|]. simpl. intros; lia. }
      assert (Hall' : Forall (fun b => key x <= key b) (filter P (y :: l))).
      { apply Forall_forall. intros b Hb. apply list_elem_of_filter in Hb as [_ Hb].
        eapply Forall_forall in Hall; [exact Hall|done]. }
      destruct (filter P (y :: l)) as [|b bs]; constructor.
      by inversion Hall'.
    + destruct (decide (P y)) as [Hy|Hy].
      * rewrite !(filter_cons_True _ y) by done. rewrite IH. simpl.
        destruct (Z.leb_spec (key x - key y) 0); [lia|done].
      * rewrite !(filter_cons_False _ y) by done. apply IH.
Qed.

Lemma filter_sort l :
  filter P (JS.sort cmp' l) = JS.sort cmp' (filter P l).
Proof.
  induction l as [|x l IH]; simpl; [done|].
  destruct (decide (P x)) as [Hx|Hx].
  - rewrite filter_insertSorted_in by (apply (sort_Sorted key) || done).
    rewrite IH. by rewrite filter_cons_True.
  - rewrite filter_insertSorted_ne by done. rewrite IH. by rewrite filter_cons_False.
Qed.
End SortFilter.

(** X23.  The API client's clean-up of fetched readings gives the same
    list when it sorts first and filters afterwards, and cleaning up its
    result for a window inside the first one gives what cleaning up the
    fetched readings for the inner window gives. *)
Theorem processRetrievedData_narrow
    (allData : list WeatherData) (startDate endDate startDate' endDate' : Z) :
  AmbientWeatherAPI.processRetrievedData allData startDate endDate =
    AmbientWeatherAPI.filterDataByDateRange
      (AmbientWeatherAPI.sortDataChronologically allData) startDate endDate /\
  (startDate <= startDate' -> endDate' <= endDate ->
   AmbientWeatherAPI.processRetrievedData
     (AmbientWeatherAPI.processRetrievedData allData startDate endDate)
     startDate' endDate' =
   AmbientWeatherAPI.processRetrievedData allData startDate' endDate').
Proof.
  unfold AmbientWeatherAPI.processRetrievedData,
    AmbientWeatherAPI.sortDataChronologically. cbv zeta.
  rewrite !filterDataByDateRange_inWindow. split.
  - symmetry. apply (filter_sort dateutc).
  - intros Hs He. rewrite (filter_sort dateutc), list_filter_filter.
    rewrite (sort_Sorted_id dateutc) by apply (sort_Sorted dateutc).
    f_equal. apply list_filter_iff. intros e. unfold Spec.inWindow. lia.
Qed.
